(** * cross-storage: the hub and the client of a shared localStorage

  A shallow embedding of [CrossStorageHub] (cross-storage-hub) and
  [CrossStorageClient] (cross-storage-client), and the properties of the
  client/hub protocol that hold of them.

  - [Js]: the JavaScript values that cross the wire (what [JSON.parse]
    yields), their coercions, and the texts exchanged by [postMessage].
  - [CrossStorageHub]: permissions, the message listener, the storage
    listener, the storage operations.
  - [CrossStorageClient]: the document, timers and promises the client
    lives in, the caller's functions it calls back, and its methods.
  - [HubProperties], [ClientProperties]: what is proved of each.
  - [ProtocolProperties]: what is proved of the two together. *)

From Stdlib Require Import Ascii.
From stdpp Require Import gmap strings pretty list fin_maps.

Set Warnings "-register-all".

Local Open Scope string_scope.
Local Open Scope list_scope.

(** ** JavaScript values and wire texts *)

Module Js.

(** A value produced by [JSON.parse].  A number is carried by the text
    that [Number.prototype.toString] prints for it: the protocol only ever
    tests a number for truthiness and converts it to a string. An object
    is carried by its own properties. *)
Inductive json : Type :=
| JNull
| JBool (b : bool)
| JNum (repr : string)
| JStr (s : string)
| JArr (items : list json)
| JObj (props : list (string * json)).

(** [undefined] is the absent value: [None]. *)
Definition value := option json.

(** The outcome of an evaluation that may throw; the exception is carried
    by its [message]. *)
Inductive result (A : Type) : Type :=
| Ok (a : A)
| Throw (message : string).
Arguments Ok {A} a.
Arguments Throw {A} message.

#[global] Instance result_ret : MRet result := fun A a => Ok a.

#[global] Instance result_bind : MBind result := fun A B k r =>
  match r with
  | Ok a => k a
  | Throw m => Throw m
  end.

(** The message of the TypeError raised when an object has no usable
    [toString]/[valueOf]. *)
Definition TypeError_primitive : string :=
  "Cannot convert object to primitive value".

(** The message of the TypeError raised by a property read on [null]. *)
Definition TypeError_null : string :=
  "Cannot read properties of null".

Fixpoint assoc {A} (k : string) (l : list (string * A)) : option A :=
  match l with
  | [] => None
  | (k', a) :: l' => if String.eqb k k' then Some a else assoc k l'
  end.

(** [Array.prototype.join] with separator ["," ] over converted items. *)
Fixpoint join (l : list string) : string :=
  match l with
  | [] => ""
  | [s] => s
  | s :: l' => s +:+ "," +:+ join l'
  end.

Fixpoint sequence {A} (l : list (result A)) : result (list A) :=
  match l with
  | [] => Ok []
  | r :: l' => a ← r; rest ← sequence l'; Ok (a :: rest)
  end.

(** The abstract operation ToString on a JSON value.  An array is joined
    ([null] items print as the empty text); a plain object prints through
    [Object.prototype.toString], unless it has an own [toString] property,
    which (being data, not a function) makes the conversion throw. *)
Fixpoint ToString (j : json) : result string :=
  match j with
  | JNull => Ok "null"
  | JBool true => Ok "true"
  | JBool false => Ok "false"
  | JNum repr => Ok repr
  | JStr s => Ok s
  | JArr items =>
      parts ← sequence
                (map (fun item => match item with
                                  | JNull => Ok ""
                                  | _ => ToString item
                                  end) items);
      Ok (join parts)
  | JObj props =>
      match assoc "toString" props with
      | Some _ => Throw TypeError_primitive
      | None => Ok "[object Object]"
      end
  end.

(** ToString on a possibly [undefined] value. *)
Definition ToStringV (v : value) : result string :=
  match v with
  | None => Ok "undefined"
  | Some j => ToString j
  end.

(** ToBoolean. *)
Definition truthy (j : json) : bool :=
  match j with
  | JNull => false
  | JBool b => b
  | JNum repr => negb (String.eqb repr "0")
  | JStr s => negb (String.eqb s "")
  | JArr _ | JObj _ => true
  end.

Definition truthyV (v : value) : bool :=
  match v with
  | None => false
  | Some j => truthy j
  end.

(** [o.p] for the property names of the protocol ([id], [method], [key],
    [value], [error], [result]), none of which a built-in prototype
    defines: an own property of an object, [undefined] on any other value
    that is not [null]. *)
Definition field (o : json) (p : string) : value :=
  match o with
  | JObj props => assoc p props
  | _ => None
  end.

(** [o.p] where [o] may be [null]: the read then throws a TypeError. *)
Definition prop (o : json) (p : string) : result value :=
  match o with
  | JNull => Throw TypeError_null
  | _ => Ok (field o p)
  end.

(** [JSON.stringify] of an object literal: a property whose value is
    [undefined] is left out. *)
Fixpoint literal (fields : list (string * value)) : list (string * json) :=
  match fields with
  | [] => []
  | (k, Some j) :: rest => (k, j) :: literal rest
  | (_, None) :: rest => literal rest
  end.

(** A text passed to [postMessage].  [Text s] is a text that is not JSON
    ([JSON.parse] throws on it), such as the protocol's four signals;
    [Json j] is the text [JSON.stringify] gives for [j], on which
    [JSON.parse] gives [j] back. *)
Inductive wire : Type :=
| Text (s : string)
| Json (j : json).

Definition JSON_parse (w : wire) : result json :=
  match w with
  | Text _ => Throw "Unexpected token"
  | Json j => Ok j
  end.

(** [w === s] for a signal [s] (a text that is not JSON). *)
Definition is_text (w : wire) (s : string) : bool :=
  match w with
  | Text t => String.eqb t s
  | Json _ => false
  end.

(** [w.startsWith(p)] for a prefix [p] that no JSON text starts with. *)
Definition startsWith (w : wire) (p : string) : bool :=
  match w with
  | Text t => String.prefix p t
  | Json _ => false
  end.

(** [s.slice(n)]. *)
Definition slice (s : string) (n : nat) : string :=
  String.substring n (String.length s - n) s.

Definition EVENT_UNAVAILABLE : string := "cross-storage:unavailable".
Definition EVENT_READY : string := "cross-storage:ready".
Definition EVENT_POLL : string := "cross-storage:poll".
Definition EVENT_CHANGE : string := "cross-storage:change".

(** The actions that can be performed on the hub (types.ts). *)
Inductive CrossStorageAction : Type := SET | GET | DEL | GET_KEYS | CLEAR.

Definition action_name (a : CrossStorageAction) : string :=
  match a with
  | SET => "set"
  | GET => "get"
  | DEL => "del"
  | GET_KEYS => "getKeys"
  | CLEAR => "clear"
  end.

Definition action_eqb (a b : CrossStorageAction) : bool :=
  String.eqb (action_name a) (action_name b).

(** A window a message can be posted to, as seen from the hub frame. *)
Inductive window : Type :=
| Parent
| Self
| Other (n : nat).

(** One call [target.postMessage(data, targetOrigin)]. *)
Record post : Type := Post {
  target : window;
  data : wire;
  targetOrigin : string
}.

(** A [message] event: the origin and the window of the sender, and the
    text sent ([data] is a string, as the client and the hub send it). *)
Record MessageEvent : Type := Message {
  message_origin : string;
  message_data : wire;
  message_source : window
}.

(** Induction on a value that reaches the items of its arrays. *)
Fixpoint json_array_ind (P : json -> Prop)
  (HNull : P JNull) (HBool : forall b, P (JBool b))
  (HNum : forall repr, P (JNum repr)) (HStr : forall s, P (JStr s))
  (HArr : forall items, Forall P items -> P (JArr items))
  (HObj : forall props, P (JObj props)) (j : json) : P j :=
  match j with
  | JNull => HNull
  | JBool b => HBool b
  | JNum repr => HNum repr
  | JStr s => HStr s
  | JArr items =>
      HArr items
           ((fix go (l : list json) : Forall P l :=
               match l with
               | [] => @List.Forall_nil json P
               | x :: l' =>
                   @List.Forall_cons json P x l'
                     (json_array_ind P HNull HBool HNum HStr HArr HObj x)
                     (go l')
               end) items)
  | JObj props => HObj props
  end.

End Js.

(** ** The hub (cross-storage-hub) *)

Module CrossStorageHub.
Import Js.

(** [origin: RegExp | string].  A regular expression is carried by its
    [test] method (an expression without the [g] or [y] flag, whose [test]
    keeps no state between calls). *)
Inductive OriginMatcher : Type :=
| OriginString (s : string)
| OriginRegExp (test : string -> bool).

(** [allow: '*' | CrossStorageAction[]]. *)
Inductive Allow : Type :=
| AllowAll
| AllowList (actions : list CrossStorageAction).

Record CrossStoragePermission : Type := Permission {
  origin : OriginMatcher;
  allow : Allow
}.

(** [watch?: string[] | boolean]. *)
Inductive WatchKeys : Type :=
| WatchBool (b : bool)
| WatchArray (keys : list string).

(** The storage areas of the hub document; [storage] is
    [window.localStorage]. *)
Inductive StorageArea : Type := LocalStorage | SessionStorage.

Definition storageArea_eqb (a b : StorageArea) : bool :=
  match a, b with
  | LocalStorage, LocalStorage | SessionStorage, SessionStorage => true
  | _, _ => false
  end.

Record StorageEvent : Type := Storage {
  event_storageArea : StorageArea;
  event_key : option string
}.

(** The quota of the storage area, which the user agent decides:
    [exceeded k v st] tells that storing [v] under [k], in an area whose
    content is [st], goes over it. *)
Definition Quota := string -> string -> gmap string string -> bool.

(** A storage area that takes every item. *)
Definition unlimited : Quota := fun _ _ _ => false.

(** The hub document: the [CrossStorageHub] instance, the content and the
    quota of [window.localStorage], the listeners registered on [window],
    and the calls to [postMessage] made so far, oldest first. *)
Record Hub : Type := MkHub {
  available : bool;
  permissions : list CrossStoragePermission;
  watchKeys : WatchKeys;
  storage : gmap string string;
  quota : Quota;
  listens_message : bool;
  listens_storage : bool;
  posted : list post
}.

Definition with_storage (st : gmap string string) (h : Hub) : Hub :=
  MkHub (available h) (permissions h) (watchKeys h) st (quota h)
        (listens_message h) (listens_storage h) (posted h).

(** [w.postMessage(d, t)]. *)
Definition postMessage (w : window) (d : wire) (t : string) (h : Hub) : Hub :=
  MkHub (available h) (permissions h) (watchKeys h) (storage h) (quota h)
        (listens_message h) (listens_storage h) (posted h ++ [Post w d t]).

(** [new CrossStorageHub()], in a document where the probe of
    [window.localStorage] gave [avail], and whose storage area has the
    quota [exceeded] and the content [st]. *)
Definition new (avail : bool) (exceeded : Quota) (st : gmap string string)
  : Hub :=
  MkHub avail [] (WatchBool false) st exceeded false false [].

Definition allowedMethods : list CrossStorageAction :=
  [SET; GET; DEL; GET_KEYS; CLEAR].

(** [allowedMethods.has(method)], returning the action found. *)
Definition allowedMethods_has (method : json) : option CrossStorageAction :=
  match method with
  | JStr s => find (fun a => String.eqb (action_name a) s) allowedMethods
  | _ => None
  end.

(** *** Storage operations

    [window.localStorage] is a finite map from keys to strings; [setItem]
    throws, and stores nothing, when the item goes over the quota; the
    order in which [storage.key] lists the keys is the storage area's
    own. *)

Definition getItem (k : string) (st : gmap string string) : json :=
  match st !! k with
  | Some v => JStr v
  | None => JNull
  end.

(** [storage.key(i)]: the keys in the order the storage area lists them. *)
Definition storage_key (i : nat) (st : gmap string string) : json :=
  match (map_to_list st).*1 !! i with
  | Some k => JStr k
  | None => JNull
  end.

(** The message of the DOMException [QuotaExceededError]. *)
Definition QuotaExceededError : string := "The quota has been exceeded.".

(** [storage.setItem(k, v)]. *)
Definition setItem (exceeded : Quota) (k v : string)
  (st : gmap string string) : result value * gmap string string :=
  if exceeded k v st then (Throw QuotaExceededError, st)
  else (Ok None, <[k := v]> st).

Definition set (exceeded : Quota) (key val : value)
  (st : gmap string string) : result value * gmap string string :=
  match ToStringV key with
  | Throw m => (Throw m, st)
  | Ok k =>
      match ToStringV val with
      | Throw m => (Throw m, st)
      | Ok v => setItem exceeded k v st
      end
  end.

(** The accumulator of [get]: an ordinary object, with its own properties
    and whether its prototype has been set to [null]. *)
Record object : Type := Object {
  own : list (string * json);
  proto_null : bool
}.

Fixpoint define (p : string) (v : json) (l : list (string * json))
  : list (string * json) :=
  match l with
  | [] => [(p, v)]
  | (p', v') :: l' =>
      if String.eqb p p' then (p, v) :: l' else (p', v') :: define p v l'
  end.

(** [acc[p] = v].  While [acc] inherits from [Object.prototype] the name
    [__proto__] is an accessor: assigning [null] clears the prototype,
    assigning a string does nothing, and no own property is made. *)
Definition assign (p : string) (v : json) (acc : object) : object :=
  if String.eqb p "__proto__" && negb (proto_null acc) then
    match v with
    | JNull => Object (own acc) true
    | _ => acc
    end
  else Object (define p v (own acc)) (proto_null acc).

Fixpoint get_reduce (keys : list json) (acc : object)
  (st : gmap string string) : result object :=
  match keys with
  | [] => Ok acc
  | k :: keys' =>
      p ← ToString k;
      get_reduce keys' (assign p (getItem p st) acc) st
  end.

Definition get (key : value) (st : gmap string string) : result value :=
  match key with
  | Some (JArr keys) =>
      acc ← get_reduce keys (Object [] false) st;
      Ok (Some (JObj (own acc)))
  | _ =>
      k ← ToStringV key;
      Ok (Some (getItem k st))
  end.

(** [key.forEach(k => storage.removeItem(k))]: a conversion that throws
    keeps the removals made before it. *)
Fixpoint del_forEach (keys : list json) (st : gmap string string)
  : result value * gmap string string :=
  match keys with
  | [] => (Ok None, st)
  | k :: keys' =>
      match ToString k with
      | Throw m => (Throw m, st)
      | Ok p => del_forEach keys' (delete p st)
      end
  end.

Definition del (key : value) (st : gmap string string)
  : result value * gmap string string :=
  match key with
  | Some (JArr keys) => del_forEach keys st
  | _ =>
      match ToStringV key with
      | Throw m => (Throw m, st)
      | Ok k => (Ok None, delete k st)
      end
  end.

Definition clear (st : gmap string string) : gmap string string := ∅.

Definition getKeys (st : gmap string string) : json :=
  JArr (map (fun i => storage_key i st) (seq 0 (size st))).

(** *** Permissions *)

Definition _permitted (perms : list CrossStoragePermission)
  (org : string) (method : CrossStorageAction) : bool :=
  existsb
    (fun entry =>
       if match origin entry with
          | OriginString s => negb (String.eqb org s)
          | OriginRegExp test => negb (test org)
          end
       then false
       else
         match allow entry with
         | AllowAll => true
         | AllowList actions => existsb (action_eqb method) actions
         end)
    perms.

(** Whether the origin matcher of a rule matches the sender origin, and
    whether its allow-set is ["*"] or contains the action: the two tests of
    the callback of [_permitted]. *)
Definition rule_matches (entry : CrossStoragePermission) (org : string)
  : bool :=
  match origin entry with
  | OriginString s => String.eqb org s
  | OriginRegExp test => test org
  end.

Definition rule_allows (entry : CrossStoragePermission)
  (method : CrossStorageAction) : bool :=
  match allow entry with
  | AllowAll => true
  | AllowList actions => existsb (action_eqb method) actions
  end.

(** The evaluation the specification describes, first match wins: the
    first rule whose origin matcher matches decides alone; no matching rule
    denies.  It is compared with [_permitted] below. *)
Fixpoint first_match_permitted (perms : list CrossStoragePermission)
  (org : string) (method : CrossStorageAction) : bool :=
  match perms with
  | [] => false
  | entry :: rest =>
      if rule_matches entry org then rule_allows entry method
      else first_match_permitted rest org method
  end.

(** *** Replies *)

Definition response (request : json) (error : option string) (res : value)
  : wire :=
  Json (JObj (literal [("id", field request "id");
                       ("method", field request "method");
                       ("error", JStr <$> error);
                       ("result", res)])).

Definition _response (org : string) (request : json)
  (error : option string) (res : value) (h : Hub) : Hub :=
  let targetOrigin := if String.eqb org "file://" then "*" else org in
  postMessage Parent (response request error res) targetOrigin h.

(** The [switch] of [_onListener]. *)
Definition execute (exceeded : Quota) (method : CrossStorageAction)
  (request : json) (st : gmap string string)
  : result value * gmap string string :=
  match method with
  | GET => (get (field request "key") st, st)
  | SET => set exceeded (field request "key") (field request "value") st
  | DEL => del (field request "key") st
  | CLEAR => (Ok None, clear st)
  | GET_KEYS => (Ok (Some (getKeys st)), st)
  end.

Definition invalid_method (m : string) : string :=
  "Invalid method " +:+ m +:+ ", allowed methods are set, get, del, getKeys, clear".

Definition invalid_permissions (method : CrossStorageAction) : string :=
  "Invalid permissions for " +:+ action_name method.

(** *** Listeners *)

Definition _onListener (message : MessageEvent) (h : Hub) : Hub :=
  let org := if String.eqb (message_origin message) "null"
             then "file://" else message_origin message in
  if is_text (message_data message) EVENT_POLL then
    postMessage Parent (Text EVENT_READY) (message_origin message) h
  else if is_text (message_data message) EVENT_READY then h
  else
    match JSON_parse (message_data message) with
    | Throw _ => h
    | Ok request =>
        match prop request "id", prop request "method" with
        | Ok id, Ok (Some method) =>
            if negb (truthyV id) || negb (truthy method) then h
            else
              match allowedMethods_has method with
              | None =>
                  match ToString method with
                  | Ok m => _response org request (Some (invalid_method m))
                                      (Some JNull) h
                  | Throw _ => h
                  end
              | Some action =>
                  if negb (_permitted (permissions h) org action) then
                    _response org request
                              (Some (invalid_permissions action))
                              (Some JNull) h
                  else
                    match execute (quota h) action request (storage h) with
                    | (Throw m, st) =>
                        _response org request (Some m) (Some JNull)
                                  (with_storage st h)
                    | (Ok res, st) =>
                        _response org request None res (with_storage st h)
                    end
              end
        | _, _ => h
        end
    end.

Definition change (key : string) : wire :=
  Text (EVENT_CHANGE +:+ ":" +:+ key).

Definition _onStorage (event : StorageEvent) (h : Hub) : Hub :=
  if negb (storageArea_eqb (event_storageArea event) LocalStorage) then h
  else
    match event_key event with
    | None | Some "" => postMessage Parent (change "*") "*" h
    | Some key =>
        match watchKeys h with
        | WatchArray keys =>
            if negb (existsb (String.eqb key) keys) then h
            else postMessage Parent (change key) "*" h
        | WatchBool _ => postMessage Parent (change key) "*" h
        end
    end.

(** Truthiness of the [keys] argument: [true] or any array, even an empty
    one. *)
Definition watch_truthy (keys : WatchKeys) : bool :=
  match keys with
  | WatchBool b => b
  | WatchArray _ => true
  end.

(** [_init(permissions, keys)]; [keys] is [None] when [watch] is left
    out. *)
Definition _init (perms : list CrossStoragePermission)
  (keys : option WatchKeys) (h : Hub) : Hub :=
  if negb (available h) then
    postMessage Parent (Text EVENT_UNAVAILABLE) "*" h
  else
    let h1 := MkHub (available h) perms (watchKeys h) (storage h) (quota h)
                    true (listens_storage h) (posted h) in
    let h2 := postMessage Parent (Text EVENT_READY) "*" h1 in
    match keys with
    | Some k =>
        if watch_truthy k then
          MkHub (available h2) (permissions h2) k (storage h2) (quota h2)
                (listens_message h2) true (posted h2)
        else h2
    | None => h2
    end.

(** The sender origin as [_onListener] uses it, its [origin] constant: the
    transport's ["null"] becomes the token [file://]. *)
Definition hub_origin (message : MessageEvent) : string :=
  if String.eqb (message_origin message) "null"
  then "file://" else message_origin message.

(** Events reach a listener only once it is registered on [window]. *)
Definition on_message (message : MessageEvent) (h : Hub) : Hub :=
  if listens_message h then _onListener message h else h.

Definition on_storage (event : StorageEvent) (h : Hub) : Hub :=
  if listens_storage h then _onStorage event h else h.

End CrossStorageHub.

(** ** The client (cross-storage-client) *)

Module CrossStorageClient.
Import Js.

(** [frameId?: string] and [timeout?: number], a whole number of
    milliseconds; [None] is a property left out. *)
Record CrossStorageClientOptions : Type := Options {
  options_frameId : option string;
  options_timeout : option Z
}.

(** An element of the document: the node itself and its [id] attribute. *)
Record Element : Type := MkElement {
  node : nat;
  element_id : string;
  element_src : string
}.

(** The closure pushed on [_connects]: it holds its timer and the
    [resolve]/[reject] pair of its promise. *)
Record ConnectCallback : Type := MkConnect {
  connect_timer : nat;
  connect_promise : nat
}.

(** The closure stored in [_requests]. *)
Record RequestCallback : Type := MkRequest {
  request_timer : nat;
  request_promise : nat
}.

(** A [WatchHandler] is a function; it is known by its identity. *)
Definition WatchHandler := nat.

Record Client : Type := MkClient {
  id : string;
  url : string;
  origin : string;
  options : CrossStorageClientOptions;
  connected : bool;
  closed : bool;
  count : nat;
  frame : option Element;
  _requests : gmap string RequestCallback;
  _connects : list ConnectCallback;
  _watchers : list WatchHandler
}.

(** What a timer runs when it fires. *)
Inductive TimerAction : Type :=
| PollInterval
| ConnectTimeout (promise : nat)
| RequestTimeout (request_id : string) (method : CrossStorageAction)
                 (promise : nat).

Record Timer : Type := MkTimer {
  delay : Z;
  action : TimerAction
}.

Inductive Settlement : Type :=
| ResolvedThis
| Resolved (v : value)
| Rejected (message : string).

(** A promise is pending ([None]) or settled, once and for all. *)
Definition Promise := option Settlement.

(** A call of a callback held by the client. *)
Inductive Invocation : Type :=
| InvokeConnect (callback : ConnectCallback) (err : option string)
| InvokeWatcher (watcher : WatchHandler) (changeKey : option string)
| InvokeRequest (request_id : string) (callback : RequestCallback).

(** The client together with the page it runs in: the elements of the
    document in tree order, whether [_onListener] is registered on
    [window], the live timers, the promises handed out, the messages posted
    to the hub window and the callbacks invoked, oldest first. *)
Record Page : Type := MkPage {
  client : Client;
  document : list Element;
  next_node : nat;
  listening : bool;
  timers : gmap nat Timer;
  next_timer : nat;
  promises : list Promise;
  sent : list post;
  invoked : list Invocation
}.

(** *** Field updates *)

Definition with_client (f : Client -> Client) (w : Page) : Page :=
  MkPage (f (client w)) (document w) (next_node w) (listening w) (timers w)
         (next_timer w) (promises w) (sent w) (invoked w).

Definition set_connected (b : bool) (c : Client) : Client :=
  MkClient (id c) (url c) (origin c) (options c) b (closed c) (count c)
           (frame c) (_requests c) (_connects c) (_watchers c).

Definition set_closed (b : bool) (c : Client) : Client :=
  MkClient (id c) (url c) (origin c) (options c) (connected c) b (count c)
           (frame c) (_requests c) (_connects c) (_watchers c).

Definition set_count (n : nat) (c : Client) : Client :=
  MkClient (id c) (url c) (origin c) (options c) (connected c) (closed c) n
           (frame c) (_requests c) (_connects c) (_watchers c).

Definition set_frame (f : option Element) (c : Client) : Client :=
  MkClient (id c) (url c) (origin c) (options c) (connected c) (closed c)
           (count c) f (_requests c) (_connects c) (_watchers c).

Definition set_requests (r : gmap string RequestCallback) (c : Client)
  : Client :=
  MkClient (id c) (url c) (origin c) (options c) (connected c) (closed c)
           (count c) (frame c) r (_connects c) (_watchers c).

Definition set_connects (l : list ConnectCallback) (c : Client) : Client :=
  MkClient (id c) (url c) (origin c) (options c) (connected c) (closed c)
           (count c) (frame c) (_requests c) l (_watchers c).

Definition set_watchers (l : list WatchHandler) (c : Client) : Client :=
  MkClient (id c) (url c) (origin c) (options c) (connected c) (closed c)
           (count c) (frame c) (_requests c) (_connects c) l.

Definition set_document (d : list Element) (w : Page) : Page :=
  MkPage (client w) d (next_node w) (listening w) (timers w)
         (next_timer w) (promises w) (sent w) (invoked w).

Definition set_listening (b : bool) (w : Page) : Page :=
  MkPage (client w) (document w) (next_node w) b (timers w)
         (next_timer w) (promises w) (sent w) (invoked w).

Definition set_timers (t : gmap nat Timer) (w : Page) : Page :=
  MkPage (client w) (document w) (next_node w) (listening w) t
         (next_timer w) (promises w) (sent w) (invoked w).

Definition set_promises (ps : list Promise) (w : Page) : Page :=
  MkPage (client w) (document w) (next_node w) (listening w) (timers w)
         (next_timer w) ps (sent w) (invoked w).

Definition log (i : Invocation) (w : Page) : Page :=
  MkPage (client w) (document w) (next_node w) (listening w) (timers w)
         (next_timer w) (promises w) (sent w) (invoked w ++ [i]).

(** *** The platform: document, timers, promises, the hub window *)

(** [document.getElementById(i)]: the first element, in tree order, whose
    id is [i]; no element has the empty id. *)
Definition getElementById (i : string) (d : list Element) : option Element :=
  if String.eqb i "" then None
  else find (fun e => String.eqb (element_id e) i) d.

(** [e.remove()], for an element without element children (a frame). *)
Definition remove (e : Element) (d : list Element) : list Element :=
  filter (fun e' => node e' ≠ node e) d.

Definition attached (e : Element) (d : list Element) : bool :=
  existsb (fun e' => Nat.eqb (node e') (node e)) d.

(** [setTimeout(a, ms)] and [setInterval(a, ms)]: the new timer's id. *)
Definition setTimer (ms : Z) (a : TimerAction) (w : Page) : nat * Page :=
  (next_timer w,
   MkPage (client w) (document w) (next_node w) (listening w)
          (<[next_timer w := MkTimer ms a]> (timers w))
          (S (next_timer w)) (promises w) (sent w) (invoked w)).

(** [clearTimeout(t)] and [clearInterval(t)]. *)
Definition clearTimer (t : nat) (w : Page) : Page :=
  set_timers (delete t (timers w)) w.

(** [new Promise(...)], pending: its index among the promises. *)
Definition newPromise (w : Page) : nat * Page :=
  (length (promises w), set_promises (promises w ++ [None]) w).

(** [resolve(...)] or [reject(...)]: a settled promise stays as it is. *)
Definition settle (p : nat) (s : Settlement) (w : Page) : Page :=
  match promises w !! p with
  | Some None => set_promises (<[p := Some s]> (promises w)) w
  | _ => w
  end.

Definition resolve (p : nat) (v : value) : Page -> Page :=
  settle p (Resolved v).

Definition reject (p : nat) (message : string) : Page -> Page :=
  settle p (Rejected message).

(** [Promise.resolve(this)] and [Promise.reject(new Error(message))]. *)
Definition Promise_settled (s : Settlement) (w : Page) : nat * Page :=
  (length (promises w), set_promises (promises w ++ [Some s]) w).

(** *** Getters *)

Definition frameId (c : Client) : string :=
  match options_frameId (options c) with
  | Some i => i
  | None => "cross-storage-client-" +:+ id c
  end.

Definition timeout (c : Client) : Z :=
  match options_timeout (options c) with
  | Some ms => ms
  | None => 30000%Z
  end.

(** [this.frame?.contentWindow]: a frame has a content window while it is
    in the document. *)
Definition hub (w : Page) : option Element :=
  match frame (client w) with
  | Some f => if attached f (document w) then Some f else None
  | None => None
  end.

Definition targetOrigin (c : Client) : string :=
  if String.eqb (origin c) "file://" then "*" else origin c.

(** [this.hub.postMessage(d, t)]. *)
Definition hub_postMessage (f : Element) (d : wire) (t : string) (w : Page)
  : Page :=
  MkPage (client w) (document w) (next_node w) (listening w) (timers w)
         (next_timer w) (promises w) (sent w ++ [Post (Other (node f)) d t])
         (invoked w).

(** *** Construction *)

Definition fresh_node (d : list Element) : nat :=
  S (foldr Nat.max 0 (node <$> d)).

Definition _poll (w : Page) : Page :=
  (setTimer 1000 PollInterval w).2.

Definition _createFrame (w : Page) : Element * Page :=
  let f := MkElement (next_node w) (frameId (client w)) (url (client w)) in
  (f, MkPage (client w) (document w ++ [f]) (S (next_node w)) (listening w)
             (timers w) (next_timer w) (promises w) (sent w) (invoked w)).

(** [new CrossStorageClient(url, options)] in a page whose document holds
    the elements [d].  [uuid] is the value [uuid()] gave for [id] and
    [org] is [new URL(url).origin]. *)
Definition constructor (uuid url' org : string)
  (opts : CrossStorageClientOptions) (d : list Element) : Page :=
  let c := MkClient uuid url' org opts false false 0 None ∅ [] [] in
  let w := MkPage c d (fresh_node d) true ∅ 0 [] [] [] in
  let found :=
    match options_frameId opts with
    | Some i => if String.eqb i "" then None else getElementById i d
    | None => None
    end in
  match found with
  | Some f => _poll (with_client (set_frame (Some f)) w)
  | None =>
      let '(f, w') := _createFrame w in
      with_client (set_frame (Some f)) w'
  end.

(** *** Public methods *)

Definition close (w : Page) : Page :=
  let w1 :=
    match getElementById (frameId (client w)) (document w) with
    | Some f => set_document (remove f (document w)) w
    | None => w
    end in
  with_client (fun c => set_connected false (set_closed true c))
              (set_listening false w1).

Definition closed_error : string := "CrossStorageClient has been closed".

Definition connect_timed_out (c : Client) : string :=
  "CrossStorageClient timed out after " +:+ pretty (timeout c) +:+ "ms".

Definition connect (w : Page) : nat * Page :=
  if connected (client w) then Promise_settled ResolvedThis w
  else if closed (client w) then Promise_settled (Rejected closed_error) w
  else
    let '(p, w1) := newPromise w in
    let '(t, w2) := setTimer (timeout (client w1)) (ConnectTimeout p) w1 in
    (p, with_client
          (fun c => set_connects (_connects c ++ [MkConnect t p]) c) w2).

(** [this._watchers.indexOf(watcher)]; [None] stands for [-1]. *)
Fixpoint indexOf (watcher : WatchHandler) (l : list WatchHandler)
  : option nat :=
  match l with
  | [] => None
  | x :: l' => if Nat.eqb x watcher then Some 0 else S <$> indexOf watcher l'
  end.

(** The function [watch(watcher)] returns. *)
Definition unsubscribe (watcher : WatchHandler) (w : Page) : Page :=
  match indexOf watcher (_watchers (client w)) with
  | Some index =>
      with_client (fun c => set_watchers (delete index (_watchers c)) c) w
  | None => w
  end.

(** [watch(watcher)]; the function it returns is [unsubscribe watcher]. *)
Definition watch (watcher : WatchHandler) (w : Page) : Page :=
  with_client (fun c => set_watchers (_watchers c ++ [watcher]) c) w.

(** An argument of a request as [JSON.stringify] sees it: a value with a
    JSON form, a value that is left out ([undefined], a function), or a
    value on which [JSON.stringify] throws (a cyclic object, a BigInt). *)
Inductive any : Type :=
| Serialized (j : json)
| Omitted
| Unserializable.

Definition stringify_error : string := "Converting circular structure to JSON".

(** [JSON.stringify({ id, method, ...params })]. *)
Definition stringify (request_id : string) (method : CrossStorageAction)
  (params : list (string * any)) : result wire :=
  fields ← sequence
             (map (fun ka : string * any =>
                     match ka.2 with
                     | Serialized j => Ok (ka.1, Some j)
                     | Omitted => Ok (ka.1, None)
                     | Unserializable => Throw stringify_error
                     end) params);
  Ok (Json (JObj (literal (("id", Some (JStr request_id))
                           :: ("method", Some (JStr (action_name method)))
                           :: fields)))).

Definition not_connected_error : string :=
  "CrossStorageClient is not connected".

Definition hub_error : string := "CrossStorageClient hub is not available".

Definition request_timed_out (method : CrossStorageAction) (c : Client)
  : string :=
  "Timeout: cross-storage:" +:+ action_name method
  +:+ " request timed out after " +:+ pretty (timeout c) +:+ "ms".

Definition _request (method : CrossStorageAction)
  (params : list (string * any)) (w : Page) : nat * Page :=
  if closed (client w) then Promise_settled (Rejected closed_error) w
  else if negb (connected (client w)) then
    Promise_settled (Rejected not_connected_error) w
  else
    let w1 := with_client (fun c => set_count (S (count c)) c) w in
    let request_id := id (client w1) +:+ ":" +:+ pretty (count (client w1)) in
    let '(p, w2) := newPromise w1 in
    let '(t, w3) :=
      setTimer (timeout (client w2)) (RequestTimeout request_id method p) w2 in
    match hub w3 with
    | None => (p, reject p hub_error (clearTimer t w3))
    | Some h =>
        let w4 :=
          with_client
            (fun c => set_requests
                        (<[request_id := MkRequest t p]> (_requests c)) c)
            w3 in
        match stringify request_id method params with
        | Throw m => (p, reject p m w4)
        | Ok d => (p, hub_postMessage h d (targetOrigin (client w4)) w4)
        end
    end.

(** [key: string | string[]]. *)
Inductive Key : Type :=
| KeyString (k : string)
| KeyArray (ks : list string).

Definition key_json (key : Key) : json :=
  match key with
  | KeyString k => JStr k
  | KeyArray ks => JArr (JStr <$> ks)
  end.

Definition set (key : string) (val : any) : Page -> nat * Page :=
  _request SET [("key", Serialized (JStr key)); ("value", val)].

Definition get (key : Key) : Page -> nat * Page :=
  _request GET [("key", Serialized (key_json key))].

Definition del (key : Key) : Page -> nat * Page :=
  _request DEL [("key", Serialized (key_json key))].

Definition getKeys : Page -> nat * Page := _request GET_KEYS [].

Definition clear : Page -> nat * Page := _request CLEAR [].

(** *** Callbacks, the message listener and timers *)

(** The closure of [connect()]:
    [(err) => { clearTimeout(timeoutId); err ? reject(err) : resolve(this) }]. *)
Definition connect_callback (cb : ConnectCallback) (err : option string)
  (w : Page) : Page :=
  let w1 := clearTimer (connect_timer cb) (log (InvokeConnect cb err) w) in
  match err with
  | Some m => reject (connect_promise cb) m w1
  | None => settle (connect_promise cb) ResolvedThis w1
  end.

(** [this._connects.forEach((cb) => cb(err))]. *)
Definition connects_forEach (err : option string) (w : Page) : Page :=
  foldl (fun w' cb => connect_callback cb err w') w (_connects (client w)).

(** The closure [_request] stores under [request_id]. *)
Definition request_callback (request_id : string) (cb : RequestCallback)
  (response : json) (w : Page) : Page :=
  let w1 :=
    clearTimer (request_timer cb) (log (InvokeRequest request_id cb) w) in
  let w2 :=
    with_client
      (fun c => set_requests (delete request_id (_requests c)) c) w1 in
  if truthyV (field response "error") then
    match ToStringV (field response "error") with
    | Ok m => reject (request_promise cb) m w2
    | Throw _ => w2
    end
  else resolve (request_promise cb) (field response "result") w2.

Definition unavailable_error : string :=
  "CrossStorageHub unavailable, check if localStorage is enabled in the hub domain".

(** *** The caller's functions

    A watcher is a function of the caller.  When the client calls it, it
    runs to its end before the client goes on; what it does to the client
    is the sequence of calls it makes to the client's public methods, and
    it returns or throws. *)
Inductive Call : Type :=
| CallConnect
| CallRequest (method : CrossStorageAction) (params : list (string * any))
| CallWatch (watcher : WatchHandler)
| CallUnsubscribe (watcher : WatchHandler)
| CallClose.

Definition call (c : Call) (w : Page) : Page :=
  match c with
  | CallConnect => (connect w).2
  | CallRequest method params => (_request method params w).2
  | CallWatch watcher => watch watcher w
  | CallUnsubscribe watcher => unsubscribe watcher w
  | CallClose => close w
  end.

(** One run of a function: the calls it makes, in order, and whether it
    then throws. *)
Record Behaviour : Type := Behave {
  calls : list Call;
  throws : bool
}.

(** The functions of the caller: what the function [watcher] does when it
    is called with [changeKey] on the page as it then is. *)
Definition Handlers := WatchHandler -> option string -> Page -> Behaviour.

(** A function that does nothing to the client, and a caller all of
    whose functions are so. *)
Definition silent : Behaviour := Behave [] false.

Definition idle : Handlers := fun _ _ _ => silent.

(** The page after the watchers of [called] have been called and have done
    nothing. *)
Definition called_silently (changeKey : option string)
  (called : list WatchHandler) (w : Page) : Page :=
  MkPage (client w) (document w) (next_node w) (listening w) (timers w)
         (next_timer w) (promises w) (sent w)
         (invoked w
          ++ ((fun watcher => InvokeWatcher watcher changeKey) <$> called)).

(** [watcher(changeKey)]: the page the call leaves, and whether it
    threw. *)
Definition invoke (fns : Handlers) (watcher : WatchHandler)
  (changeKey : option string) (w : Page) : Page * bool :=
  let b := fns watcher changeKey w in
  (foldl (fun w' c => call c w') (log (InvokeWatcher watcher changeKey) w)
         (calls b),
   throws b).

(** [watchers.forEach((watcher) => watcher(changeKey))], from the index
    [k], with [n] indices to go.  [forEach] reads the length once, before
    the first call, and then reads the array at each index when it gets
    there: [watchers] is the array [this._watchers] itself, which a watcher
    changes when it registers or unsubscribes.  An index that the array no
    longer has is passed over; a watcher that throws ends the loop. *)
Fixpoint watchers_forEach (fns : Handlers) (changeKey : option string)
  (n k : nat) (w : Page) : Page * bool :=
  match n with
  | 0 => (w, false)
  | S n' =>
      match _watchers (client w) !! k with
      | None => watchers_forEach fns changeKey n' (S k) w
      | Some watcher =>
          let '(w1, thrown) := invoke fns watcher changeKey w in
          if thrown then (w1, true)
          else watchers_forEach fns changeKey n' (S k) w1
      end
  end.

(** [_onListener]; an exception of a watcher leaves the listener, and
    nothing after the call of the watchers is run. *)
Definition _onListener (fns : Handlers) (message : MessageEvent) (w : Page)
  : Page :=
  let messageData := message_data message in
  if closed (client w) || is_text messageData "" then w
  else
    let org := if String.eqb (message_origin message) "null"
               then "file://" else message_origin message in
    if negb (String.eqb org (origin (client w))) then w
    else if is_text messageData EVENT_UNAVAILABLE then
      let w1 := if negb (closed (client w)) then close w else w in
      connects_forEach (Some unavailable_error) w1
    else
      let w1 :=
        if startsWith messageData "cross-storage:"
           && negb (connected (client w))
        then
          with_client (set_connects [])
            (connects_forEach None (with_client (set_connected true) w))
        else w in
      let watchers := _watchers (client w1) in
      let '(w2, thrown) :=
        match messageData with
        | Text t =>
            if negb (Nat.eqb (length watchers) 0)
               && String.prefix (EVENT_CHANGE +:+ ":") t
            then
              let watchKey := slice t (String.length EVENT_CHANGE + 1) in
              let changeKey :=
                if String.eqb watchKey "*" then None else Some watchKey in
              watchers_forEach fns changeKey (length watchers) 0 w1
            else (w1, false)
        | Json _ => (w1, false)
        end in
      if thrown then w2
      else if is_text messageData EVENT_READY then w2
      else
        match JSON_parse messageData with
        | Throw _ => w2
        | Ok response =>
            match prop response "id" with
            | Throw _ => w2
            | Ok response_id =>
                if negb (truthyV response_id) then w2
                else
                  match ToStringV response_id with
                  | Throw _ => w2
                  | Ok request_id =>
                      match _requests (client w2) !! request_id with
                      | Some requestCallback =>
                          request_callback request_id requestCallback
                                           response w2
                      | None => w2
                      end
                  end
            end
        end.

(** A [message] event reaches [_onListener] while it is registered. *)
Definition receive (fns : Handlers) (message : MessageEvent) (w : Page)
  : Page :=
  if listening w then _onListener fns message w else w.

(** Timer [t] comes due.  A timeout is gone once it has run; the interval
    of [_poll] stays until it clears itself. *)
Definition fire (t : nat) (w : Page) : Page :=
  match timers w !! t with
  | None => w
  | Some timer =>
      match action timer with
      | PollInterval =>
          if connected (client w) then clearTimer t w
          else
            match hub w with
            | None => w
            | Some h =>
                hub_postMessage h (Text EVENT_POLL)
                                (targetOrigin (client w)) w
            end
      | ConnectTimeout p =>
          let w1 := clearTimer t w in
          reject p (connect_timed_out (client w1)) w1
      | RequestTimeout request_id method p =>
          let w1 := clearTimer t w in
          match _requests (client w1) !! request_id with
          | None => w1
          | Some _ =>
              let w2 :=
                with_client
                  (fun c => set_requests (delete request_id (_requests c)) c)
                  w1 in
              reject p (request_timed_out method (client w2)) w2
          end
      end
  end.

(** *** Runs of the client

    What can happen to the client in its page: a message arrives, a timer
    comes due, or the caller uses a public method.  [fns] are the
    caller's functions, which the client calls when a change is
    announced. *)
Inductive Event : Type :=
| Receive (message : MessageEvent)
| Fire (t : nat)
| Connect
| Request (method : CrossStorageAction) (params : list (string * any))
| Watch (watcher : WatchHandler)
| Unsubscribe (watcher : WatchHandler)
| Close.

Definition step (fns : Handlers) (e : Event) (w : Page) : Page :=
  match e with
  | Receive message => receive fns message w
  | Fire t => fire t w
  | Connect => (connect w).2
  | Request method params => (_request method params w).2
  | Watch watcher => watch watcher w
  | Unsubscribe watcher => unsubscribe watcher w
  | Close => close w
  end.

Definition run (fns : Handlers) (es : list Event) (w : Page) : Page :=
  foldl (fun w' e => step fns e w') w es.

(** *** The client id *)

Definition hex_digit (v : N) : Ascii.ascii :=
  match String.get (N.to_nat v) "0123456789abcdef" with
  | Some c => c
  | None => "?"%char
  end.

Fixpoint toString16_go (fuel : nat) (v : N) (acc : string) : string :=
  match fuel with
  | 0 => acc
  | S fuel' =>
      let acc' := String (hex_digit (v mod 16)) acc in
      if (v / 16 =? 0)%N then acc' else toString16_go fuel' (v / 16)%N acc'
  end.

(** [v.toString(16)] for a natural number [v]. *)
Definition toString16 (v : N) : string :=
  toString16_go (S (N.size_nat v)) v "".

(** [template.replace(/[xy]/g, c => ...)]: every [x] and [y], from left to
    right, is replaced by the digit made from the next random number;
    [random i] is the value of [Math.random() * 16 | 0] at the call number
    [i]. *)
Fixpoint replace_xy (template : string) (random : nat -> N) (i : nat)
  : string :=
  match template with
  | "" => ""
  | String c rest =>
      if Ascii.eqb c "x"%char then
        toString16 (random i) +:+ replace_xy rest random (S i)
      else if Ascii.eqb c "y"%char then
        toString16 (N.lor (N.land (random i) 3) 8)
        +:+ replace_xy rest random (S i)
      else String c (replace_xy rest random i)
  end.

Definition uuid (random : nat -> N) : string :=
  replace_xy "xxxxxxxx-xxxx-4xxx-yxxx-xxxxxxxxxxxx" random 0.

(** *** The stages of [_onListener]

    The three things [_onListener] does, in this order, with a message
    that passed its filters and is not the unavailable signal. *)

(** "Handle initial connection". *)
Definition on_connection (messageData : wire) (w : Page) : Page :=
  if startsWith messageData "cross-storage:" && negb (connected (client w))
  then
    with_client (set_connects [])
      (connects_forEach None (with_client (set_connected true) w))
  else w.

(** The call of the watchers. *)
Definition on_change (fns : Handlers) (messageData : wire) (w : Page)
  : Page * bool :=
  match messageData with
  | Text t =>
      if negb (Nat.eqb (length (_watchers (client w))) 0)
         && String.prefix (EVENT_CHANGE +:+ ":") t
      then
        let watchKey := slice t (String.length EVENT_CHANGE + 1) in
        let changeKey :=
          if String.eqb watchKey "*" then None else Some watchKey in
        watchers_forEach fns changeKey (length (_watchers (client w))) 0 w
      else (w, false)
  | Json _ => (w, false)
  end.

(** "All other messages". *)
Definition on_response (messageData : wire) (w : Page) : Page :=
  if is_text messageData EVENT_READY then w
  else
    match JSON_parse messageData with
    | Throw _ => w
    | Ok response =>
        match prop response "id" with
        | Throw _ => w
        | Ok response_id =>
            if negb (truthyV response_id) then w
            else
              match ToStringV response_id with
              | Throw _ => w
              | Ok request_id =>
                  match _requests (client w) !! request_id with
                  | Some requestCallback =>
                      request_callback request_id requestCallback response w
                  | None => w
                  end
              end
        end
    end.

(** *** What a run keeps *)

(** A post is addressed to the hub: to the window of the client's frame,
    with the client's target origin, and it is the poll signal or a
    request. *)
Definition posts_to_hub (w : Page) (p : post) : Prop :=
  Js.targetOrigin p = targetOrigin (client w)
  /\ (exists f, frame (client w) = Some f /\ target p = Other (node f))
  /\ (data p = Text EVENT_POLL
      \/ exists request_id method rest,
           data p = Json (JObj (("id", JStr request_id)
                                :: ("method", JStr (action_name method))
                                :: rest))).

(** [w'] comes after [w]: the fields set at construction are the same,
    a closed client is still closed, the counters have not gone back, the
    document and the listener are as they were as long as the client is
    not closed, and what was posted since went to the hub. *)
Definition stable (w w' : Page) : Prop :=
  id (client w') = id (client w)
  /\ url (client w') = url (client w)
  /\ origin (client w') = origin (client w)
  /\ options (client w') = options (client w)
  /\ frame (client w') = frame (client w)
  /\ (closed (client w) = true -> closed (client w') = true)
  /\ count (client w) <= count (client w')
  /\ next_timer w <= next_timer w'
  /\ (closed (client w') = false ->
      document w' = document w /\ listening w' = listening w)
  /\ exists new, sent w' = sent w ++ new /\ Forall (posts_to_hub w) new.

(** The bookkeeping of the client is consistent: a closed client is not
    connected; timer ids are below the next one; every pending request has
    its own timer, set to the configured timeout; the timers of the
    pending connects are not
    request timers; and the ids of the pending requests were made from the
    counter. *)
Definition consistent (w : Page) : Prop :=
  (closed (client w) = true -> connected (client w) = false)
  /\ (forall t tm, timers w !! t = Some tm -> t < next_timer w)
  /\ (forall request_id cb,
        _requests (client w) !! request_id = Some cb ->
        exists method,
          timers w !! request_timer cb
          = Some (MkTimer (timeout (client w))
                          (RequestTimeout request_id method
                                          (request_promise cb))))
  /\ (forall cb, cb ∈ _connects (client w) ->
        connect_timer cb < next_timer w
        /\ forall ms request_id method p,
             timers w !! connect_timer cb
             <> Some (MkTimer ms (RequestTimeout request_id method p)))
  /\ (forall request_id,
        is_Some (_requests (client w) !! request_id) ->
        exists n, n <= count (client w)
                  /\ request_id = id (client w) +:+ ":" +:+ pretty n).

End CrossStorageClient.

(** ** Properties of the hub *)

Module HubProperties.
Import Js CrossStorageHub.

#[local] Arguments _permitted : simpl never.

Lemma action_eqb_refl (a : CrossStorageAction) : action_eqb a a = true.
Proof. by destruct a. Qed.

Lemma action_eqb_eq (a b : CrossStorageAction) :
  action_eqb a b = true <-> a = b.
Proof. split; [by destruct a, b | intros ->; apply action_eqb_refl]. Qed.

Lemma allowedMethods_has_name (a : CrossStorageAction) :
  allowedMethods_has (JStr (action_name a)) = Some a.
Proof. by destruct a. Qed.

(** [_permitted] asks every rule both questions. *)
Lemma _permitted_existsb perms org method :
  _permitted perms org method
  = existsb (fun entry => rule_matches entry org && rule_allows entry method)
            perms.
Proof.
  unfold _permitted. induction perms as [|entry rest IH]; [done|].
  cbn [existsb]. rewrite IH. f_equal.
  unfold rule_matches, rule_allows.
  destruct (origin entry) as [s|test];
    [by destruct (String.eqb org s) | by destruct (test org)].
Qed.

Lemma _permitted_true perms org method :
  _permitted perms org method = true <->
  exists entry, entry ∈ perms /\ rule_matches entry org = true
                /\ rule_allows entry method = true.
Proof.
  rewrite _permitted_existsb, existsb_exists. split.
  - intros (entry & Hin & Hb). apply andb_true_iff in Hb.
    exists entry. by rewrite list_elem_of_In.
  - intros (entry & Hin & Hm & Ha). exists entry.
    rewrite <- list_elem_of_In, Hm, Ha. done.
Qed.

Lemma _permitted_false perms org method :
  _permitted perms org method = false <->
  forall entry, entry ∈ perms ->
    rule_matches entry org = false \/ rule_allows entry method = false.
Proof.
  rewrite _permitted_existsb. split.
  - intros Hf entry Hin. apply andb_false_iff.
    destruct (rule_matches entry org && rule_allows entry method) eqn:Hb;
      [|done].
    assert (existsb (fun e => rule_matches e org && rule_allows e method)
                    perms = true) as Ht; [|congruence].
    apply existsb_exists. exists entry. by rewrite <- list_elem_of_In.
  - intros Hall. apply not_true_iff_false. intros Ht.
    apply existsb_exists in Ht as (entry & Hin & Hb).
    apply andb_true_iff in Hb as [Hm Ha].
    apply list_elem_of_In in Hin.
    destruct (Hall entry Hin); congruence.
Qed.

(** C1, as the code has it: permission evaluation is any-match.  A request
    is allowed exactly when some rule whose origin matcher matches the
    sender origin has the allow-set ["*"] or one containing the action;
    so a first matching rule with an empty allow-set does not deny a
    request that a later rule for the same origin allows. *)
Theorem permitted_any_match :
  forall perms org method,
    (_permitted perms org method = true <->
     exists entry, entry ∈ perms /\ rule_matches entry org = true
                   /\ rule_allows entry method = true)
    /\ forall first later,
         rule_matches later org = true -> allow later = AllowAll ->
         later ∈ perms ->
         _permitted (first :: perms) org method = true.
Proof.
  intros perms org method. split; [apply _permitted_true|].
  intros first later Hm Ha Hin. apply _permitted_true.
  exists later. split; [by right|]. split; [done|].
  unfold rule_allows. by rewrite Ha.
Qed.

Lemma permitted_any_match_witness :
  let first := Permission (OriginString "https://a.example") (AllowList []) in
  let later := Permission (OriginRegExp (String.prefix "https://a."))
                          AllowAll in
  _permitted [first; later] "https://a.example" DEL = true.
Proof.
  intros first later.
  destruct (permitted_any_match [later] "https://a.example" DEL)
    as [_ Hlater].
  apply (Hlater first later); [reflexivity | reflexivity | constructor].
Defined.

(** C1 fails as stated: with a first rule for [https://a.example] whose
    allow-set is empty and a later rule for the same origin allowing ["*"],
    first-match evaluation denies [get] and the hub allows it. *)
Lemma permitted_is_not_first_match :
  let perms := [Permission (OriginString "https://a.example") (AllowList []);
                Permission (OriginString "https://a.example") AllowAll] in
  first_match_permitted perms "https://a.example" GET = false
  /\ _permitted perms "https://a.example" GET = true.
Proof. done. Qed.


(** *** Origin normalisation *)

(** A request is answered on the normalised origin: it is the origin the
    permissions are matched against, and the reply to the token [file://]
    goes to the wildcard target. *)
Lemma request_reply_target (h : Hub) (message : MessageEvent) :
  exists new,
    posted (_onListener message h) = posted h ++ new
    /\ (is_text (message_data message) EVENT_POLL = false ->
        Forall (fun p => targetOrigin p
                         = if String.eqb (hub_origin message) "file://"
                           then "*" else hub_origin message) new).
Proof.
  unfold _onListener. fold (hub_origin message).
  destruct (is_text (message_data message) EVENT_POLL) eqn:Hpoll.
  { eexists. split; [done|]. intros [=]. }
  assert (forall (P : list post -> Prop), P [] ->
            exists new : list post, posted h = posted h ++ new /\ (false = false -> P new))
    as Hnone.
  { intros P HP. exists []. by rewrite app_nil_r. }
  assert (forall org request error res h',
            posted h' = posted h ->
            exists new,
              posted (_response org request error res h') = posted h ++ new
              /\ (false = false ->
                  Forall (fun p => targetOrigin p
                                   = if String.eqb org "file://"
                                     then "*" else org) new))
    as Hone.
  { intros org request error res h' Hh'. eexists. cbn. rewrite Hh'.
    split; [done|]. intros _. by repeat constructor. }
  destruct (is_text (message_data message) EVENT_READY); [by apply Hnone|].
  destruct (JSON_parse (message_data message)) as [request|];
    [|by apply Hnone].
  destruct (prop request "id") as [id|]; [|by apply Hnone].
  destruct (prop request "method") as [[method|]|]; try by apply Hnone.
  destruct (negb (truthyV id) || negb (truthy method)); [by apply Hnone|].
  destruct (allowedMethods_has method) as [action|].
  - destruct (negb (_permitted _ _ _)); [by apply Hone|].
    destruct (execute _ action request (storage h)) as [[res|m] st];
      by apply Hone.
  - destruct (ToString method); [by apply Hone | by apply Hnone].
Qed.

(** C3, at the failing input: a poll whose transport origin is ["null"] is
    answered with the ready signal addressed to ["null"] itself, not to the
    wildcard target that the token [file://] calls for. *)
Theorem poll_from_null_origin_reply :
  forall (h : Hub) (source : window),
    posted (_onListener (Message "null" (Text EVENT_POLL) source) h)
    = posted h ++ [Post Parent (Text EVENT_READY) "null"].
Proof. done. Qed.

(** *** Denied requests *)

Lemma action_name_truthy (a : CrossStorageAction) :
  truthy (JStr (action_name a)) = true.
Proof. by destruct a. Qed.

(** C6: a request whose (origin, action) pair matches no rule, or only
    rules whose allow-set excludes the action, is answered with one error
    response naming the method, and the storage is left as it was. *)
Theorem denied_request_error_and_no_mutation :
  forall (h : Hub) (message : MessageEvent) (request id : json)
         (action : CrossStorageAction),
    message_data message = Json request ->
    field request "id" = Some id ->
    truthy id = true ->
    field request "method" = Some (JStr (action_name action)) ->
    (forall entry, entry ∈ permissions h ->
       rule_matches entry (hub_origin message) = false
       \/ rule_allows entry action = false) ->
    storage (_onListener message h) = storage h
    /\ posted (_onListener message h)
       = posted h
         ++ [Post Parent
               (Json (JObj [("id", id);
                            ("method", JStr (action_name action));
                            ("error", JStr ("Invalid permissions for "
                                            +:+ action_name action));
                            ("result", JNull)]))
               (if String.eqb (hub_origin message) "file://"
                then "*" else hub_origin message)].
Proof.
  intros h message request id action Hdata Hid Htruthy Hmethod Hrules.
  apply _permitted_false in Hrules.
  unfold _onListener. fold (hub_origin message). rewrite Hdata. cbn.
  destruct request; try discriminate Hid.
  cbn in *. rewrite Hid, Hmethod. cbn [truthyV]. rewrite Htruthy.
  rewrite action_name_truthy. cbn [negb orb].
  rewrite allowedMethods_has_name, Hrules. cbn [negb].
  unfold _response, response. cbn. by rewrite Hid, Hmethod.
Qed.

Lemma denied_request_witness :
  let h := _init [Permission (OriginString "https://a.example")
                             (AllowList [GET; SET])]
                 None (new true unlimited {["x" := "1"]}) in
  let request := JObj [("id", JStr "c:1"); ("method", JStr "del");
                       ("key", JStr "x")] in
  let message := Message "https://a.example" (Json request) (Other 1) in
  storage (_onListener message h) = storage h
  /\ posted (_onListener message h)
     = posted h
       ++ [Post Parent
             (Json (JObj [("id", JStr "c:1"); ("method", JStr "del");
                          ("error", JStr "Invalid permissions for del");
                          ("result", JNull)]))
             "https://a.example"].
Proof.
  intros h request message.
  apply (denied_request_error_and_no_mutation
           h message request (JStr "c:1") DEL);
    [reflexivity | reflexivity | reflexivity | reflexivity |].
  intros entry Hin. apply list_elem_of_singleton in Hin as ->.
  right. reflexivity.
Defined.

(** *** Storage operations *)

Lemma getItem_insert k v (st : gmap string string) :
  getItem k (<[k := v]> st) = JStr v.
Proof. unfold getItem. by rewrite lookup_insert_eq. Qed.

Lemma getItem_delete k (st : gmap string string) :
  getItem k (delete k st) = JNull.
Proof. unfold getItem. by rewrite lookup_delete_eq. Qed.

Lemma getItem_insert_ne k k' v (st : gmap string string) :
  k <> k' -> getItem k' (<[k := v]> st) = getItem k' st.
Proof. intros Hne. unfold getItem. by rewrite lookup_insert_ne. Qed.

(** The request objects the client sends for [set(k, v)], [get(k)] and
    [del(k)] with a single key and a string value. *)
Lemma client_requests (i k v : string) :
  CrossStorageClient.stringify i SET
    [("key", CrossStorageClient.Serialized (JStr k));
     ("value", CrossStorageClient.Serialized (JStr v))]
  = Ok (Json (JObj [("id", JStr i); ("method", JStr "set");
                    ("key", JStr k); ("value", JStr v)]))
  /\ CrossStorageClient.stringify i GET
       [("key", CrossStorageClient.Serialized
                  (CrossStorageClient.key_json
                     (CrossStorageClient.KeyString k)))]
     = Ok (Json (JObj [("id", JStr i); ("method", JStr "get");
                       ("key", JStr k)]))
  /\ CrossStorageClient.stringify i DEL
       [("key", CrossStorageClient.Serialized
                  (CrossStorageClient.key_json
                     (CrossStorageClient.KeyString k)))]
     = Ok (Json (JObj [("id", JStr i); ("method", JStr "del");
                       ("key", JStr k)])).
Proof. done. Qed.

(** C7, as the code has it: when the storage area takes the item,
    executing [set(k, v)] and then [get(k)] returns [v]; when the item goes
    over the quota, [set(k, v)] ends in the error of [setItem], the storage
    is left as it was, and [get(k)] returns what was stored before.
    Executing [del(k)] and then [get(k)] returns [null].  The requests are
    those of the client, run by the hub's [switch] on any storage
    content. *)
Theorem set_get_del_round_trip :
  forall (exceeded : Quota) (i j k v : string) (st : gmap string string),
    let set_request := JObj [("id", JStr i); ("method", JStr "set");
                             ("key", JStr k); ("value", JStr v)] in
    let del_request := JObj [("id", JStr i); ("method", JStr "del");
                             ("key", JStr k)] in
    let get_request := JObj [("id", JStr j); ("method", JStr "get");
                             ("key", JStr k)] in
    (exceeded k v st = false ->
     (execute exceeded SET set_request st).1 = Ok None
     /\ execute exceeded GET get_request
                (execute exceeded SET set_request st).2
        = (Ok (Some (JStr v)), (execute exceeded SET set_request st).2))
    /\ (exceeded k v st = true ->
        execute exceeded SET set_request st = (Throw QuotaExceededError, st)
        /\ execute exceeded GET get_request
                   (execute exceeded SET set_request st).2
           = (Ok (Some (getItem k st)), st))
    /\ (execute exceeded DEL del_request st).1 = Ok None
    /\ execute exceeded GET get_request
               (execute exceeded DEL del_request st).2
       = (Ok (Some JNull), (execute exceeded DEL del_request st).2).
Proof.
  intros exceeded i j k v st. cbn. unfold setItem.
  split; [|split].
  - intros ->. cbn. by rewrite getItem_insert.
  - by intros ->.
  - by rewrite getItem_delete.
Qed.

Lemma set_get_del_round_trip_witness :
  let set_request := JObj [("id", JStr "c:1"); ("method", JStr "set");
                           ("key", JStr "token"); ("value", JStr "abc")] in
  let get_request := JObj [("id", JStr "c:2"); ("method", JStr "get");
                           ("key", JStr "token")] in
  execute unlimited GET get_request
          (execute unlimited SET set_request {["token" := "old"]}).2
  = (Ok (Some (JStr "abc")),
     (execute unlimited SET set_request {["token" := "old"]}).2).
Proof.
  intros set_request get_request.
  destruct (set_get_del_round_trip unlimited "c:1" "c:2" "token" "abc"
                                   {["token" := "old"]})
    as (Haccepted & _).
  destruct (Haccepted eq_refl) as [_ Hget]. exact Hget.
Defined.

(** C7 fails as stated: on a storage area that has no room left (here one
    whose quota takes no item at all), a permitted [set(k, v)] is answered
    with the error of [setItem], and the [get(k)] that follows returns
    [null], not [v]. *)
Lemma set_over_quota_get_returns_null :
  let full : Quota := fun _ _ _ => true in
  let h := _init [Permission (OriginString "https://a.example") AllowAll]
                 None (new true full ∅) in
  let set_message :=
    Message "https://a.example"
            (Json (JObj [("id", JStr "c:1"); ("method", JStr "set");
                         ("key", JStr "token"); ("value", JStr "abc")]))
            (Other 1) in
  let get_message :=
    Message "https://a.example"
            (Json (JObj [("id", JStr "c:2"); ("method", JStr "get");
                         ("key", JStr "token")]))
            (Other 1) in
  posted (on_message get_message (on_message set_message h))
  = [Post Parent (Text EVENT_READY) "*";
     Post Parent
          (Json (JObj [("id", JStr "c:1"); ("method", JStr "set");
                       ("error", JStr QuotaExceededError);
                       ("result", JNull)]))
          "https://a.example";
     Post Parent
          (Json (JObj [("id", JStr "c:2"); ("method", JStr "get");
                       ("result", JNull)]))
          "https://a.example"]
  /\ storage (on_message get_message (on_message set_message h)) = ∅.
Proof. done. Qed.

(** The same round trip seen from outside the hub: a permitted origin gets
    the stored value back in the [result] of the reply to [get]. *)
Lemma set_then_get_replies (h : Hub) (org i j k v : string) (w : window) :
  quota h k v (storage h) = false ->
  org <> "null" ->
  _permitted (permissions h) org SET = true ->
  _permitted (permissions h) org GET = true ->
  let set_message :=
    Message org (Json (JObj [("id", JStr i); ("method", JStr "set");
                             ("key", JStr k); ("value", JStr v)])) w in
  let get_message :=
    Message org (Json (JObj [("id", JStr j); ("method", JStr "get");
                             ("key", JStr k)])) w in
  truthy (JStr i) = true -> truthy (JStr j) = true ->
  posted (_onListener get_message (_onListener set_message h))
  = posted h
    ++ [Post Parent (Json (JObj [("id", JStr i); ("method", JStr "set")]))
             (if String.eqb org "file://" then "*" else org);
        Post Parent (Json (JObj [("id", JStr j); ("method", JStr "get");
                                 ("result", JStr v)]))
             (if String.eqb org "file://" then "*" else org)].
Proof.
  intros Hquota Hnull Hset Hget set_message get_message Hi Hj.
  apply String.eqb_neq in Hnull. cbn in Hi, Hj.
  unfold _onListener, set_message, get_message. cbn.
  rewrite Hnull, Hi, Hj. cbn. rewrite Hset. cbn.
  unfold setItem. rewrite Hquota. cbn.
  rewrite Hget. cbn.
  rewrite getItem_insert. unfold _response, response, postMessage. cbn.
  by rewrite <- app_assoc.
Qed.

(** *** Change notifications *)

(** What [_onStorage] does for an event of the hub's storage area that
    carries no key, or a key that is not the empty string. *)
Lemma _onStorage_keyed (h : Hub) (key : option string) :
  key <> Some "" ->
  posted (_onStorage (Storage LocalStorage key) h)
  = posted h
    ++ match key with
       | None => [Post Parent (Text "cross-storage:change:*") "*"]
       | Some k =>
           match watchKeys h with
           | WatchArray keys =>
               if existsb (String.eqb k) keys
               then [Post Parent (Text ("cross-storage:change:" +:+ k)) "*"]
               else []
           | WatchBool _ =>
               [Post Parent (Text ("cross-storage:change:" +:+ k)) "*"]
           end
       end.
Proof.
  intros Hkey. unfold _onStorage. cbn.
  destruct key as [[|a k]|]; [done| |done].
  destruct (watchKeys h) as [b|keys]; [done|].
  destruct (existsb _ keys); [done|]. by rewrite app_nil_r.
Qed.

Lemma _onStorage_keyed_witness :
  let h :=
    _init [] (Some (WatchArray ["token"])) (new true unlimited ∅) in
  posted (_onStorage (Storage LocalStorage (Some "token")) h)
  = posted h ++ [Post Parent (Text "cross-storage:change:token") "*"]
  /\ posted (_onStorage (Storage LocalStorage (Some "theme")) h)
     = posted h ++ [].
Proof.
  intros h. split.
  - apply (_onStorage_keyed h (Some "token")). discriminate.
  - apply (_onStorage_keyed h (Some "theme")). discriminate.
Defined.

(** An event of another storage area is not the hub's business. *)
Lemma _onStorage_other_area (h : Hub) (key : option string) :
  _onStorage (Storage SessionStorage key) h = h.
Proof. done. Qed.

(** C5, at the failing input: a mutation of the item whose key is the
    empty string is announced as a bulk change, one wildcard notification,
    whatever is watched: also when a specific key set is watched that does
    not hold the empty key, and without carrying the key when every key is
    watched. *)
Theorem empty_key_mutation_broadcasts_wildcard :
  forall (h : Hub),
    posted (_onStorage (Storage LocalStorage (Some "")) h)
    = posted h ++ [Post Parent (Text "cross-storage:change:*") "*"].
Proof. done. Qed.

(** Initialising an available hub with a truthy [watch] registers both
    listeners and announces readiness. *)
Lemma _init_watching (perms : list CrossStoragePermission)
  (keys : WatchKeys) (exceeded : Quota) (st : gmap string string) :
  watch_truthy keys = true ->
  _init perms (Some keys) (new true exceeded st)
  = MkHub true perms keys st exceeded true true
          [Post Parent (Text EVENT_READY) "*"].
Proof. intros Hk. unfold _init. cbn. by rewrite Hk. Qed.

(** With [watch: []] the storage listener is registered, a bulk clear is
    announced by one wildcard notification, and a mutation of a key that
    is not the empty string is never announced. *)
Lemma empty_watch_array (perms : list CrossStoragePermission)
  (exceeded : Quota) (st : gmap string string) :
  let h := _init perms (Some (WatchArray [])) (new true exceeded st) in
  listens_storage h = true
  /\ posted (on_storage (Storage LocalStorage None) h)
     = posted h ++ [Post Parent (Text "cross-storage:change:*") "*"]
  /\ forall k, k <> "" ->
       on_storage (Storage LocalStorage (Some k)) h = h.
Proof.
  cbn. split; [done|]. split; [done|].
  intros [|a k] Hk; done.
Qed.

(** C10, at the failing input: after [watch: []] a mutation of the item
    whose key is the empty string does produce a notification, the
    wildcard one. *)
Theorem empty_watch_array_empty_key :
  forall (perms : list CrossStoragePermission) (exceeded : Quota)
         (st : gmap string string),
    let h := _init perms (Some (WatchArray [])) (new true exceeded st) in
    posted (on_storage (Storage LocalStorage (Some "")) h)
    = posted h ++ [Post Parent (Text "cross-storage:change:*") "*"].
Proof. done. Qed.

(** *** Where the hub posts *)

Lemma _response_posted org request error res (h : Hub) :
  posted (_response org request error res h)
  = posted h
    ++ [Post Parent (response request error res)
             (if String.eqb org "file://" then "*" else org)].
Proof. done. Qed.

Lemma _onListener_posts_parent (message : MessageEvent) (h : Hub) :
  exists new,
    posted (_onListener message h) = posted h ++ new
    /\ Forall (fun p => target p = Parent) new.
Proof.
  assert (exists new : list post,
            posted h = posted h ++ new
            /\ Forall (fun p => target p = Parent) new) as Hnone.
  { exists []. by rewrite app_nil_r. }
  assert (forall org request error res st,
            exists new,
              posted (_response org request error res (with_storage st h))
              = posted h ++ new
              /\ Forall (fun p => target p = Parent) new) as Hone.
  { intros. eexists. rewrite _response_posted. split; [done|].
    by repeat constructor. }
  assert (forall org request error res,
            exists new,
              posted (_response org request error res h) = posted h ++ new
              /\ Forall (fun p => target p = Parent) new) as Hone'.
  { intros. eexists. rewrite _response_posted. split; [done|].
    by repeat constructor. }
  unfold _onListener.
  destruct (is_text (message_data message) EVENT_POLL).
  { eexists. split; [done|]. by repeat constructor. }
  destruct (is_text (message_data message) EVENT_READY); [done|].
  destruct (JSON_parse (message_data message)) as [request|]; [|done].
  destruct (prop request "id") as [id|]; [|done].
  destruct (prop request "method") as [[method|]|]; try done.
  destruct (negb (truthyV id) || negb (truthy method)); [done|].
  destruct (allowedMethods_has method) as [action|].
  - destruct (negb (_permitted _ _ _)); [done|].
    destruct (execute _ action request (storage h)) as [[res|m] st]; done.
  - destruct (ToString method); done.
Qed.

(** C9: every message the hub emits, from [_init] (ready or unavailable),
    from the message listener (the ready reply to a poll and every
    response) and from the storage listener (every change notification),
    is posted to the parent window, whatever window sent the message that
    triggered it. *)
Theorem hub_posts_only_to_parent :
  forall (h : Hub),
    (forall message,
        exists new,
          posted (_onListener message h) = posted h ++ new
          /\ Forall (fun p => target p = Parent) new)
    /\ (forall event,
          exists new,
            posted (_onStorage event h) = posted h ++ new
            /\ Forall (fun p => target p = Parent) new)
    /\ (forall perms keys,
          exists new,
            posted (_init perms keys h) = posted h ++ new
            /\ Forall (fun p => target p = Parent) new).
Proof.
  intros h. split; [intros; apply _onListener_posts_parent|]. split.
  - intros [area key]. unfold _onStorage. cbn.
    destruct area; cbn; [|exists []; by rewrite app_nil_r].
    destruct key as [[|a k]|];
      try (eexists; split; [done|]; by repeat constructor).
    destruct (watchKeys h) as [b|keys];
      [eexists; split; [done|]; by repeat constructor|].
    destruct (existsb _ keys); cbn;
      [eexists; split; [done|]; by repeat constructor|].
    exists []. by rewrite app_nil_r.
  - intros perms keys. unfold _init.
    destruct (available h); cbn;
      [|eexists; split; [done|]; by repeat constructor].
    destruct keys as [k|]; [destruct (watch_truthy k)|];
      cbn; eexists; (split; [done|]); by repeat constructor.
Qed.

(** *** What the message listener does with each kind of message *)

Lemma allowedMethods_has_Some (method : json) (action : CrossStorageAction) :
  allowedMethods_has method = Some action ->
  method = JStr (action_name action).
Proof.
  destruct method as [| | |s| |]; try done.
  unfold allowedMethods_has, allowedMethods. cbn [find action_name].
  repeat match goal with
         | |- context [String.eqb ?a s] =>
             destruct (String.eqb_spec a s) as [<-|_]; [by intros [= <-]|]
         end.
  done.
Qed.

Lemma allowedMethods_has_None (m : string) :
  (forall action, action_name action <> m) ->
  allowedMethods_has (JStr m) = None.
Proof.
  intros Hm. destruct (allowedMethods_has (JStr m)) as [action|] eqn:Hhas;
    [|done].
  apply allowedMethods_has_Some in Hhas as [= Heq]. by destruct (Hm action).
Qed.

(** A message that parses to a request with a truthy [id] and a method
    that is a non-empty string: the listener reaches the method check. *)
Lemma _onListener_request (h : Hub) (message : MessageEvent)
  (request id : json) (m : string) :
  message_data message = Json request ->
  field request "id" = Some id ->
  truthy id = true ->
  field request "method" = Some (JStr m) ->
  m <> "" ->
  _onListener message h
  = match allowedMethods_has (JStr m) with
    | None =>
        _response (hub_origin message) request (Some (invalid_method m))
                  (Some JNull) h
    | Some action =>
        if negb (_permitted (permissions h) (hub_origin message) action)
        then _response (hub_origin message) request
                       (Some (invalid_permissions action)) (Some JNull) h
        else
          match execute (quota h) action request (storage h) with
          | (Throw e, st) =>
              _response (hub_origin message) request (Some e) (Some JNull)
                        (with_storage st h)
          | (Ok res, st) =>
              _response (hub_origin message) request None res
                        (with_storage st h)
          end
    end.
Proof.
  intros Hdata Hid Htruthy Hmethod Hm. apply String.eqb_neq in Hm.
  unfold _onListener. fold (hub_origin message). rewrite Hdata.
  destruct request; try discriminate Hid.
  cbn [is_text JSON_parse prop]. rewrite Hid, Hmethod.
  cbn [truthyV truthy]. by rewrite Htruthy, Hm.
Qed.

(** The hub answers a method it does not know with an error that names the
    method and lists the allowed ones, before it looks at the permissions
    and without touching the storage. *)
Theorem invalid_method_is_refused :
  forall (h : Hub) (message : MessageEvent) (request id : json) (m : string),
    message_data message = Json request ->
    field request "id" = Some id ->
    truthy id = true ->
    field request "method" = Some (JStr m) ->
    m <> "" ->
    (forall action, action_name action <> m) ->
    storage (_onListener message h) = storage h
    /\ posted (_onListener message h)
       = posted h
         ++ [Post Parent
               (Json (JObj [("id", id);
                            ("method", JStr m);
                            ("error",
                             JStr ("Invalid method " +:+ m
                                   +:+ ", allowed methods are set, get, del, getKeys, clear"));
                            ("result", JNull)]))
               (if String.eqb (hub_origin message) "file://"
                then "*" else hub_origin message)].
Proof.
  intros h message request id m Hdata Hid Htruthy Hmethod Hm Hunknown.
  rewrite (_onListener_request _ _ _ _ _ Hdata Hid Htruthy Hmethod Hm).
  rewrite (allowedMethods_has_None _ Hunknown).
  unfold _response, response. cbn. by rewrite Hid, Hmethod.
Qed.

Lemma invalid_method_witness :
  let h := _init [] None (new true unlimited {["x" := "1"]}) in
  let request := JObj [("id", JStr "c:1"); ("method", JStr "drop")] in
  let message := Message "https://a.example" (Json request) (Other 1) in
  storage (_onListener message h) = storage h
  /\ posted (_onListener message h)
     = posted h
       ++ [Post Parent
             (Json (JObj [("id", JStr "c:1"); ("method", JStr "drop");
                          ("error",
                           JStr "Invalid method drop, allowed methods are set, get, del, getKeys, clear");
                          ("result", JNull)]))
             "https://a.example"].
Proof.
  intros h request message.
  apply (invalid_method_is_refused h message request (JStr "c:1") "drop");
    [reflexivity | reflexivity | reflexivity | reflexivity | discriminate |].
  intros action. destruct action; discriminate.
Defined.

(** Messages the hub drops without a reply and without any change: the
    ready signal, a text that is neither the poll signal nor JSON, and a
    JSON value without a truthy [id] or without a truthy [method]. *)
Theorem malformed_message_is_dropped :
  forall (h : Hub) (message : MessageEvent),
    (message_data message = Text EVENT_READY
     \/ (exists s, message_data message = Text s /\ s <> EVENT_POLL)
     \/ (exists j, message_data message = Json j
                   /\ (truthyV (field j "id") = false
                       \/ truthyV (field j "method") = false))) ->
    _onListener message h = h.
Proof.
  intros h message [Hready | [(s & Hdata & Hs) | (j & Hdata & Hj)]];
    unfold _onListener; rewrite ?Hready, ?Hdata.
  - done.
  - cbn. apply String.eqb_neq in Hs. rewrite Hs.
    by destruct (String.eqb s EVENT_READY).
  - cbn [is_text JSON_parse]. unfold prop. destruct j; try done.
    destruct (field (JObj props) "id") as [id|];
      destruct (field (JObj props) "method") as [method|];
      cbn in *; try done.
    destruct Hj as [-> | ->]; [done | by rewrite orb_true_r].
Qed.

Lemma malformed_message_witness :
  let h := _init [] None (new true unlimited ∅) in
  _onListener (Message "https://a.example"
                       (Json (JObj [("id", JStr ""); ("method", JStr "get")]))
                       (Other 1)) h = h
  /\ _onListener (Message "https://a.example" (Text "hello") (Other 1)) h = h.
Proof.
  intros h. split.
  - apply malformed_message_is_dropped. right. right.
    eexists. split; [reflexivity|]. by left.
  - apply malformed_message_is_dropped. right. left.
    eexists. split; [reflexivity | discriminate].
Defined.

(** Every request with a truthy [id] and a method that is a non-empty
    string gets exactly one response; the response echoes the [id] and the
    [method] of the request, and when it carries an [error] its [result] is
    [null]. *)
Theorem exactly_one_response_per_request :
  forall (h : Hub) (message : MessageEvent) (request id : json) (m : string),
    message_data message = Json request ->
    field request "id" = Some id ->
    truthy id = true ->
    field request "method" = Some (JStr m) ->
    m <> "" ->
    exists (error : option string) (res : value),
      posted (_onListener message h)
      = posted h
        ++ [Post Parent
              (Json (JObj (("id", id) :: ("method", JStr m)
                           :: literal [("error", JStr <$> error);
                                       ("result", res)])))
              (if String.eqb (hub_origin message) "file://"
               then "*" else hub_origin message)]
      /\ (error <> None -> res = Some JNull).
Proof.
  intros h message request id m Hdata Hid Htruthy Hmethod Hm.
  rewrite (_onListener_request _ _ _ _ _ Hdata Hid Htruthy Hmethod Hm).
  assert (forall error res h',
            posted h' = posted h ->
            posted (_response (hub_origin message) request error res h')
            = posted h
              ++ [Post Parent
                    (Json (JObj (("id", id) :: ("method", JStr m)
                                 :: literal [("error", JStr <$> error);
                                             ("result", res)])))
                    (if String.eqb (hub_origin message) "file://"
                     then "*" else hub_origin message)]) as Hpost.
  { intros error res h' Hh'. rewrite _response_posted, Hh'.
    unfold response. cbn [literal]. by rewrite Hid, Hmethod. }
  destruct (allowedMethods_has (JStr m)) as [action|].
  - destruct (negb (_permitted _ _ _)).
    + eexists _, _. split; [by apply Hpost | done].
    + destruct (execute _ action request (storage h)) as [[res|e] st];
        eexists _, _; (split; [by apply Hpost | done]).
  - eexists _, _. split; [by apply Hpost | done].
Qed.

Lemma exactly_one_response_witness :
  let h := _init [Permission (OriginRegExp (String.prefix "https://"))
                             AllowAll]
                 None (new true unlimited {["x" := "1"]}) in
  let request := JObj [("id", JStr "c:1"); ("method", JStr "get");
                       ("key", JStr "x")] in
  exists (error : option string) (res : value),
    posted (_onListener (Message "https://a.example" (Json request) (Other 1))
                        h)
    = posted h
      ++ [Post Parent
            (Json (JObj (("id", JStr "c:1") :: ("method", JStr "get")
                         :: literal [("error", JStr <$> error);
                                     ("result", res)])))
            "https://a.example"]
    /\ (error <> None -> res = Some JNull).
Proof.
  intros h request.
  apply (exactly_one_response_per_request
           h (Message "https://a.example" (Json request) (Other 1))
           request (JStr "c:1") "get");
    [reflexivity | reflexivity | reflexivity | reflexivity | discriminate].
Defined.

(** The storage changes only in answer to a permitted [set], [del] or
    [clear]: the storage listener and [_init] never write, and a message
    after which the storage differs is such a request. *)
Theorem storage_changes_only_by_permitted_mutation :
  forall (h : Hub),
    (forall event, storage (_onStorage event h) = storage h)
    /\ (forall perms keys, storage (_init perms keys h) = storage h)
    /\ (forall message,
          storage (_onListener message h) <> storage h ->
          exists request action,
            message_data message = Json request
            /\ field request "method" = Some (JStr (action_name action))
            /\ (action = SET \/ action = DEL \/ action = CLEAR)
            /\ _permitted (permissions h) (hub_origin message) action = true).
Proof.
  intros h. split; [|split].
  - intros [area key]. unfold _onStorage. cbn.
    destruct area; cbn; [|done].
    destruct key as [[|a k]|]; try done.
    destruct (watchKeys h) as [b|keys]; [done|].
    by destruct (existsb _ keys).
  - intros perms keys. unfold _init. destruct (available h); cbn; [|done].
    destruct keys as [k|]; [by destruct (watch_truthy k) | done].
  - intros message. unfold _onListener. fold (hub_origin message).
    destruct (is_text (message_data message) EVENT_POLL); [done|].
    destruct (is_text (message_data message) EVENT_READY); [done|].
    destruct (message_data message) as [s|request] eqn:Hdata; [done|].
    cbn [JSON_parse]. unfold prop. destruct request; try done.
    destruct (field (JObj props) "method") as [method|] eqn:Hmethod; [|done].
    destruct (negb (truthyV (field (JObj props) "id"))
              || negb (truthy method)); [done|].
    destruct (allowedMethods_has method) as [action|] eqn:Hhas;
      [|by destruct (ToString method)].
    apply allowedMethods_has_Some in Hhas as ->.
    destruct (_permitted (permissions h) (hub_origin message) action)
      eqn:Hperm; [|done].
    cbn [negb]. intros Hchanged. exists (JObj props), action.
    do 2 (split; [done|]). split; [|done].
    destruct action;
      [ auto
      | exfalso; apply Hchanged; cbn; by destruct (get _ _)
      | auto
      | exfalso; by apply Hchanged
      | auto ].
Qed.

Lemma storage_change_witness :
  let h := _init [Permission (OriginString "https://a.example") AllowAll]
                 None (new true unlimited {["x" := "1"]}) in
  let message :=
    Message "https://a.example"
            (Json (JObj [("id", JStr "c:1"); ("method", JStr "clear")]))
            (Other 1) in
  exists request action,
    message_data message = Json request
    /\ field request "method" = Some (JStr (action_name action))
    /\ (action = SET \/ action = DEL \/ action = CLEAR)
    /\ _permitted (permissions h) (hub_origin message) action = true.
Proof.
  intros h message.
  destruct (storage_changes_only_by_permitted_mutation h) as (_ & _ & Hmsg).
  apply (Hmsg message). vm_compute. intros [=].
Defined.

(** *** The storage operations on key lists and conversions *)

Lemma assoc_define (k p : string) (v : json) (l : list (string * json)) :
  assoc k (define p v l) = if String.eqb k p then Some v else assoc k l.
Proof.
  induction l as [|[p' v'] l IH]; cbn; [done|].
  destruct (String.eqb_spec p p') as [<-|Hpp']; cbn.
  - by destruct (String.eqb k p).
  - rewrite IH. destruct (String.eqb_spec k p) as [->|Hkp]; [|done].
    apply String.eqb_neq in Hpp'. by rewrite Hpp'.
Qed.

Lemma assign_own (k p : string) (v : json) (acc : object) :
  k <> "__proto__" ->
  assoc k (own (assign p v acc))
  = if String.eqb k p then Some v else assoc k (own acc).
Proof.
  intros Hk. unfold assign.
  destruct (String.eqb_spec p "__proto__") as [->|Hp]; cbn.
  - apply String.eqb_neq in Hk. rewrite Hk.
    destruct (proto_null acc); cbn.
    + by rewrite assoc_define, Hk.
    + by destruct v.
  - apply assoc_define.
Qed.

Lemma get_reduce_strings (ks : list string) (acc : object)
  (st : gmap string string) :
  exists acc',
    get_reduce (JStr <$> ks) acc st = Ok acc'
    /\ forall k, k <> "__proto__" ->
         assoc k (own acc')
         = if bool_decide (k ∈ ks) then Some (getItem k st)
           else assoc k (own acc).
Proof.
  revert acc. induction ks as [|k0 ks IH]; intros acc.
  - exists acc. split; [done|]. intros k _. by rewrite bool_decide_eq_false_2
      by apply not_elem_of_nil.
  - destruct (IH (assign k0 (getItem k0 st) acc)) as (acc' & Hred & Hown).
    exists acc'. split; [exact Hred|]. intros k Hk.
    rewrite (Hown k Hk), (assign_own _ _ _ _ Hk).
    destruct (decide (k ∈ ks)) as [Hin|Hnin].
    + rewrite !bool_decide_eq_true_2; [done | by right | done].
    + rewrite (bool_decide_eq_false_2 _ Hnin).
      destruct (String.eqb_spec k k0) as [->|Hne].
      * by rewrite bool_decide_eq_true_2 by left.
      * rewrite bool_decide_eq_false_2; [done|].
        rewrite not_elem_of_cons. by split.
Qed.

(** [get] on a list of keys answers with an object that has, under every
    listed key, the stored value or [null], and nothing under any other
    name; the name [__proto__] apart, which the accumulator object treats
    as its prototype accessor. *)
Theorem get_of_key_list :
  forall (ks : list string) (st : gmap string string),
    exists props,
      get (Some (JArr (JStr <$> ks))) st = Ok (Some (JObj props))
      /\ forall k, k <> "__proto__" ->
           assoc k props
           = if bool_decide (k ∈ ks) then Some (getItem k st) else None.
Proof.
  intros ks st.
  destruct (get_reduce_strings ks (Object [] false) st) as (acc & Hred & Hown).
  exists (own acc). split; [|exact Hown].
  unfold get. by rewrite Hred.
Qed.

(** A value stored under the key [__proto__] is not reported by a [get]
    on a key list, as long as the accumulator still has its prototype: the
    assignment goes to the accessor and makes no property. *)
Lemma get_of_proto_key (st : gmap string string) :
  get (Some (JArr [JStr "__proto__"])) st = Ok (Some (JObj [])).
Proof. unfold get. cbn. unfold assign. cbn. by destruct (getItem _ st). Qed.

Lemma del_forEach_strings (ks : list string) (st : gmap string string) :
  del_forEach (JStr <$> ks) st
  = (Ok None, foldl (fun m k => delete k m) st ks).
Proof.
  revert st. induction ks as [|k ks IH]; intros st; [done|]. cbn. apply IH.
Qed.

Lemma foldl_delete_lookup (ks : list string) (st : gmap string string) k :
  foldl (fun m k' => delete k' m) st ks !! k
  = if bool_decide (k ∈ ks) then None else st !! k.
Proof.
  revert st. induction ks as [|k0 ks IH]; intros st; cbn.
  - by rewrite bool_decide_eq_false_2 by apply not_elem_of_nil.
  - rewrite IH. destruct (decide (k ∈ ks)) as [Hin|Hnin].
    + rewrite !bool_decide_eq_true_2; [done | by right | done].
    + rewrite (bool_decide_eq_false_2 _ Hnin).
      destruct (decide (k = k0)) as [->|Hne].
      * rewrite bool_decide_eq_true_2 by left. apply lookup_delete_eq.
      * rewrite bool_decide_eq_false_2
          by (rewrite not_elem_of_cons; by split).
        by apply lookup_delete_ne.
Qed.

(** [del] on a list of keys removes every listed key, leaves every other
    item as it was, and reports no result. *)
Theorem del_of_key_list :
  forall (ks : list string) (st : gmap string string),
    (del (Some (JArr (JStr <$> ks))) st).1 = Ok None
    /\ forall k,
         (del (Some (JArr (JStr <$> ks))) st).2 !! k
         = if bool_decide (k ∈ ks) then None else st !! k.
Proof.
  intros ks st. unfold del. rewrite del_forEach_strings. cbn.
  split; [done|]. intros k. apply foldl_delete_lookup.
Qed.

(** [del] on a list is not all-or-nothing: when the conversion of a key
    throws (an object with a [toString] property of its own), the keys
    before it are removed, the keys after it are not looked at, and the
    request ends in that error. *)
Theorem del_stops_at_failing_key :
  forall (ks : list string) (props : list (string * json)) (v : json)
         (rest : list json) (st : gmap string string),
    assoc "toString" props = Some v ->
    del (Some (JArr ((JStr <$> ks) ++ JObj props :: rest))) st
    = (Throw TypeError_primitive, foldl (fun m k => delete k m) st ks).
Proof.
  intros ks props v rest st Hprops. unfold del. revert st.
  induction ks as [|k ks IH]; intros st; cbn.
  - by rewrite Hprops.
  - apply IH.
Qed.

Lemma del_stops_witness :
  del (Some (JArr ((JStr <$> ["a"]) ++ JObj [("toString", JNum "1")]
                   :: [JStr "b"])))
      {["a" := "1"; "b" := "2"]}
  = (Throw TypeError_primitive,
     foldl (fun m k => delete k m) {["a" := "1"; "b" := "2"]} ["a"]).
Proof.
  apply (del_stops_at_failing_key ["a"] [("toString", JNum "1")] (JNum "1")).
  reflexivity.
Defined.

Lemma storage_key_seq (l : list string) :
  map (fun i => match l !! i with Some k => JStr k | None => JNull end)
      (seq 0 (length l))
  = JStr <$> l.
Proof.
  induction l as [|k l IH]; [done|]. cbn [length seq map].
  rewrite <- seq_shift, map_map, fmap_cons. f_equal. exact IH.
Qed.

(** [getKeys] lists exactly the keys that are stored, each once. *)
Theorem getKeys_lists_stored_keys :
  forall (st : gmap string string),
    exists ks,
      getKeys st = JArr (JStr <$> ks)
      /\ NoDup ks
      /\ length ks = size st
      /\ forall k, k ∈ ks <-> is_Some (st !! k).
Proof.
  intros st. exists ((map_to_list st).*1).
  split; [|split; [apply NoDup_fst_map_to_list|split]].
  - unfold getKeys. f_equal.
    rewrite <- (length_map_to_list st), <- (length_fmap fst).
    exact (storage_key_seq ((map_to_list st).*1)).
  - by rewrite length_fmap, length_map_to_list.
  - intros k. rewrite list_elem_of_fmap. split.
    + intros ([k' v] & -> & Hin). apply elem_of_map_to_list in Hin. by exists v.
    + intros [v Hv]. exists (k, v). split; [done|].
      by apply elem_of_map_to_list.
Qed.

(** [set] stores the string forms of its key and value when the storage
    area takes the item, so that what [get] returns for that key is a
    string whatever was sent ([null] comes back as the text ["null"], a
    missing value as ["undefined"]), and the other items are left as they
    were; when the item goes over the quota, [set] ends in the error of
    [setItem] and nothing is stored. *)
Theorem set_stores_string_forms :
  forall (exceeded : Quota) (request : json) (k v : string)
         (st : gmap string string),
    ToStringV (field request "key") = Ok k ->
    ToStringV (field request "value") = Ok v ->
    (exceeded k v st = false ->
     (execute exceeded SET request st).1 = Ok None
     /\ get (Some (JStr k)) (execute exceeded SET request st).2
        = Ok (Some (JStr v))
     /\ forall k', k' <> k ->
          getItem k' (execute exceeded SET request st).2 = getItem k' st)
    /\ (exceeded k v st = true ->
        execute exceeded SET request st = (Throw QuotaExceededError, st)).
Proof.
  intros exceeded request k v st Hk Hv. cbn. unfold set, setItem.
  rewrite Hk, Hv. split; intros ->; [|done]. cbn.
  rewrite getItem_insert. do 2 (split; [done|]).
  intros k' Hne. by apply getItem_insert_ne.
Qed.

Lemma set_stores_string_forms_witness :
  let request := JObj [("id", JStr "c:1"); ("method", JStr "set");
                       ("key", JNum "7"); ("value", JNull)] in
  get (Some (JStr "7")) (execute unlimited SET request ∅).2
  = Ok (Some (JStr "null"))
  /\ execute (fun _ _ _ => true) SET request ∅ = (Throw QuotaExceededError, ∅).
Proof.
  intros request. split.
  - destruct (set_stores_string_forms unlimited request "7" "null" ∅
                                      eq_refl eq_refl) as (Haccepted & _).
    destruct (Haccepted eq_refl) as (_ & Hget & _). exact Hget.
  - destruct (set_stores_string_forms (fun _ _ _ => true) request "7" "null"
                                      ∅ eq_refl eq_refl) as (_ & Hrefused).
    exact (Hrefused eq_refl).
Defined.

(** *** Initialisation *)

(** A hub whose storage is not available announces it once, to the parent
    and to any origin, and is inert from then on: it keeps no permissions,
    and no message or storage event changes it or is answered. *)
Theorem unavailable_hub_is_inert :
  forall (perms : list CrossStoragePermission) (keys : option WatchKeys)
         (exceeded : Quota) (st : gmap string string),
    let h := _init perms keys (new false exceeded st) in
    posted h = [Post Parent (Text EVENT_UNAVAILABLE) "*"]
    /\ permissions h = []
    /\ (forall message, on_message message h = h)
    /\ (forall event, on_storage event h = h).
Proof. done. Qed.

(** Without a truthy [watch] option ([false], or left out) the hub never
    sends a change notification: storage events do not reach it. *)
Theorem no_watch_no_notification :
  forall (perms : list CrossStoragePermission) (keys : option WatchKeys)
         (exceeded : Quota) (st : gmap string string) (event : StorageEvent),
    keys = None \/ keys = Some (WatchBool false) ->
    let h := _init perms keys (new true exceeded st) in
    on_storage event h = h.
Proof. by intros perms keys exceeded st event [-> | ->]. Qed.

Lemma no_watch_witness :
  let h := _init [] (Some (WatchBool false)) (new true unlimited ∅) in
  on_storage (Storage LocalStorage (Some "token")) h = h.
Proof.
  intros h.
  apply (no_watch_no_notification [] (Some (WatchBool false))
                                  unlimited ∅).
  by right.
Defined.

(** *** Exceptions of the storage operations *)

(** The only exception a conversion to string raises is the TypeError of
    an object without a usable [toString]. *)
Lemma ToString_throw (j : json) :
  forall m, ToString j = Throw m -> m = TypeError_primitive.
Proof.
  induction j as [|b|repr|s|items IH|props] using json_array_ind;
    intros m; cbn.
  - discriminate.
  - destruct b; discriminate.
  - discriminate.
  - discriminate.
  - induction IH as [|item items Hitem _ IH]; cbn; [discriminate|].
    assert ((match item with
             | JNull => Ok ""
             | _ => ToString item
             end) = Throw m -> m = TypeError_primitive) as Hhead.
    { destruct item; try discriminate; apply Hitem. }
    destruct (match item with
              | JNull => Ok ""
              | _ => ToString item
              end) as [a|m'] eqn:Hm'; cbn.
    + destruct (sequence _) as [rest|m'']; cbn in *; [discriminate|].
      intros [= <-]. by apply IH.
    + intros [= <-]. by apply Hhead.
  - destruct (assoc "toString" props); [by intros [= <-] | discriminate].
Qed.

Lemma ToStringV_throw (v : value) (m : string) :
  ToStringV v = Throw m -> m = TypeError_primitive.
Proof. destruct v; [apply ToString_throw | discriminate]. Qed.

(** An operation of the [switch] ends in one of two errors: that
    TypeError, or the quota error of [setItem]. *)
Lemma execute_throw (exceeded : Quota) (method : CrossStorageAction)
  (request : json) (st st' : gmap string string) (m : string) :
  execute exceeded method request st = (Throw m, st') ->
  m = TypeError_primitive \/ m = QuotaExceededError.
Proof.
  destruct method; cbn.
  - unfold set, setItem. destruct (ToStringV (field request "key")) eqn:Hk;
      [|intros [= <- _]; left; by eapply ToStringV_throw].
    destruct (ToStringV (field request "value")) eqn:Hv;
      [|intros [= <- _]; left; by eapply ToStringV_throw].
    destruct (exceeded _ _ _); [|discriminate]. intros [= <- _]. by right.
  - intros [= Hget _]. left. unfold get in Hget.
    destruct (field request "key") as [[| | | |keys|]|];
      cbn in Hget; try discriminate.
    + destruct b; discriminate.
    + generalize dependent (Object [] false).
      induction keys as [|k keys IH]; intros acc; cbn; [discriminate|].
      destruct (ToString k) eqn:Hk; cbn;
        [apply IH | intros [= <-]; by eapply ToString_throw].
    + destruct (assoc "toString" props); [by injection Hget | discriminate].
  - unfold del. intros Hdel. left. revert Hdel.
    assert (forall keys st0,
              del_forEach keys st0 = (Throw m, st') ->
              m = TypeError_primitive) as Heach.
    { induction keys as [|k keys IH]; intros st0; cbn; [discriminate|].
      destruct (ToString k) eqn:Hk; [apply IH|].
      intros [= <- _]. by eapply ToString_throw. }
    destruct (field request "key") as [[| | | |keys|]|]; cbn;
      try discriminate; try (by destruct b); [apply Heach|].
    destruct (assoc "toString" props); [by intros [= <- _] | discriminate].
  - discriminate.
  - discriminate.
Qed.

End HubProperties.

(** ** Properties of the client *)

Module ClientProperties.
Import Js CrossStorageClient.

#[local] Arguments pretty : simpl never.
#[local] Arguments stringify : simpl never.
#[local] Arguments attached : simpl never.

(** *** Watchers *)

Lemma indexOf_None (watcher : WatchHandler) (l : list WatchHandler) :
  indexOf watcher l = None <-> watcher ∉ l.
Proof.
  induction l as [|x l IH]; cbn.
  - split; [intros _; apply not_elem_of_nil | done].
  - rewrite not_elem_of_cons. destruct (Nat.eqb_spec x watcher) as [->|Hne].
    + split; [done | by intros [? _]].
    + destruct (indexOf watcher l); cbn.
      * split; [done|]. intros [_ Hl]. by apply IH in Hl.
      * split; [|done]. intros _. split; [done | by apply IH].
Qed.

Lemma indexOf_Some (watcher : WatchHandler) (l : list WatchHandler) index :
  indexOf watcher l = Some index ->
  exists l1 l2,
    l = l1 ++ watcher :: l2 /\ (watcher ∉ l1) /\ delete index l = l1 ++ l2.
Proof.
  revert index. induction l as [|x l IH]; intros index; cbn; [done|].
  destruct (Nat.eqb_spec x watcher) as [->|Hne].
  - intros [= <-]. exists [], l. split; [done|]. split; [|done].
    apply not_elem_of_nil.
  - destruct (indexOf watcher l) as [i|]; [|done]. cbn. intros [= <-].
    destruct (IH i eq_refl) as (l1 & l2 & -> & Hl1 & Hdel).
    exists (x :: l1), l2. split; [done|]. split.
    + apply not_elem_of_cons. by split.
    + change (x :: delete i (l1 ++ watcher :: l2) = x :: (l1 ++ l2)).
      by rewrite Hdel.
Qed.

Lemma unsubscribe_absent (watcher : WatchHandler) (w : Page) :
  watcher ∉ _watchers (client w) -> unsubscribe watcher w = w.
Proof. intros Hn. unfold unsubscribe. apply indexOf_None in Hn. by rewrite Hn. Qed.

Lemma unsubscribe_present (watcher : WatchHandler) (w : Page) :
  watcher ∈ _watchers (client w) ->
  exists l1 l2,
    _watchers (client w) = l1 ++ watcher :: l2 /\ (watcher ∉ l1)
    /\ unsubscribe watcher w = with_client (set_watchers (l1 ++ l2)) w.
Proof.
  intros Hin. unfold unsubscribe.
  destruct (indexOf watcher (_watchers (client w))) as [index|] eqn:Hi.
  - destruct (indexOf_Some _ _ _ Hi) as (l1 & l2 & Hl & Hl1 & Hdel).
    exists l1, l2. split; [done|]. split; [done|].
    unfold with_client. by rewrite Hdel.
  - by apply indexOf_None in Hi.
Qed.

(** The number of registrations of a callback. *)
Lemma registrations_split (watcher : WatchHandler) l1 l2 :
  watcher ∉ l1 ->
  length (filter (fun x => x = watcher) (l1 ++ watcher :: l2))
  = S (length (filter (fun x => x = watcher) (l1 ++ l2))).
Proof.
  intros Hl1. rewrite !filter_app, filter_cons_True by done.
  rewrite !length_app. cbn. lia.
Qed.

Lemma registrations_zero (watcher : WatchHandler) l :
  length (filter (fun x => x = watcher) l) = 0 <-> watcher ∉ l.
Proof.
  induction l as [|x l IH].
  - split; [intros _; apply not_elem_of_nil | done].
  - rewrite not_elem_of_cons. destruct (decide (x = watcher)) as [->|Hne].
    + rewrite filter_cons_True by done. cbn. split; [done | by intros [? _]].
    + rewrite filter_cons_False by done. rewrite IH.
      split; [intros ?; split; [congruence | done] | by intros [_ ?]].
Qed.

(** Every list of callbacks is the outcome of a sequence of [watch()]
    registrations. *)
Lemma watch_sequence (regs : list WatchHandler) (w : Page) :
  _watchers (client (foldl (fun w' f => watch f w') w regs))
  = _watchers (client w) ++ regs.
Proof.
  revert w. induction regs as [|f regs IH]; intros w; cbn.
  - by rewrite app_nil_r.
  - rewrite IH. cbn. by rewrite <- app_assoc.
Qed.

(** C8, as the code has it, for every page, hence after every sequence of
    [watch()] registrations: the function [watch(watcher)] returns removes
    the first registration of [watcher] from the watcher list, one entry,
    and leaves every other entry in place; invoked when [watcher] is not in
    the list it does nothing.  So every invocation after the first is a
    no-op when [watcher] is registered at most once; when it is registered
    more than once, the second invocation removes a further registration. *)
Theorem unsubscribe_removes_first_registration :
  forall (watcher : WatchHandler) (w : Page),
    let registrations (w' : Page) :=
      length (filter (fun x => x = watcher) (_watchers (client w'))) in
    (watcher ∉ _watchers (client w) -> unsubscribe watcher w = w)
    /\ (watcher ∈ _watchers (client w) ->
        exists l1 l2,
          _watchers (client w) = l1 ++ watcher :: l2 /\ (watcher ∉ l1)
          /\ unsubscribe watcher w = with_client (set_watchers (l1 ++ l2)) w)
    /\ registrations (unsubscribe watcher w) = pred (registrations w)
    /\ (registrations w <= 1 ->
        forall n, Nat.iter (S n) (unsubscribe watcher) w
                  = unsubscribe watcher w)
    /\ (2 <= registrations w ->
        unsubscribe watcher (unsubscribe watcher w)
        <> unsubscribe watcher w).
Proof.
  intros watcher w registrations.
  assert (registrations (unsubscribe watcher w) = pred (registrations w))
    as Hpred.
  { destruct (decide (watcher ∈ _watchers (client w))) as [Hin|Hn].
    - destruct (unsubscribe_present _ _ Hin) as (l1 & l2 & Hl & Hl1 & ->).
      unfold registrations. cbn. rewrite Hl.
      by rewrite registrations_split.
    - rewrite unsubscribe_absent by done.
      apply registrations_zero in Hn. unfold registrations. by rewrite Hn. }
  split; [apply unsubscribe_absent|].
  split; [apply unsubscribe_present|].
  split; [done|]. split.
  - intros Hle n. induction n as [|n IH]; [done|].
    change (Nat.iter (S (S n)) (unsubscribe watcher) w)
      with (unsubscribe watcher (Nat.iter (S n) (unsubscribe watcher) w)).
    rewrite IH. apply unsubscribe_absent, registrations_zero.
    fold (registrations (unsubscribe watcher w)). lia.
  - intros Hge Heq.
    assert (registrations (unsubscribe watcher (unsubscribe watcher w))
            = registrations (unsubscribe watcher w)) as Hr by by rewrite Heq.
    assert (watcher ∈ _watchers (client (unsubscribe watcher w))) as Hin.
    { destruct (decide (watcher ∈ _watchers (client (unsubscribe watcher w))))
        as [|Hn]; [done|].
      apply registrations_zero in Hn.
      fold (registrations (unsubscribe watcher w)) in Hn. lia. }
    destruct (unsubscribe_present _ _ Hin) as (l1 & l2 & Hl & Hl1 & Hu).
    rewrite Hu in Hr. unfold registrations in Hr. cbn in Hr.
    rewrite Hl, registrations_split in Hr by done. lia.
Qed.

Lemma unsubscribe_once_registered_witness :
  let w := watch 7 (watch 5 (constructor "u" "https://hub.example/hub.html"
                                         "https://hub.example"
                                         (Options None None) [])) in
  _watchers (client (unsubscribe 7 w)) = [5]
  /\ unsubscribe 7 (unsubscribe 7 w) = unsubscribe 7 w.
Proof.
  intros w. split; [reflexivity|].
  destruct (unsubscribe_removes_first_registration 7 w)
    as (_ & _ & _ & Honce & _).
  apply (Honce ltac:(vm_compute; lia) 1).
Defined.

(** C8 fails as stated: after registering the same callback twice, the
    second invocation of the unsubscribe function is not a no-op, it
    removes the other registration. *)
Lemma unsubscribe_twice_removes_both_registrations :
  let w := watch 7 (watch 7 (constructor "u" "https://hub.example/hub.html"
                                         "https://hub.example"
                                         (Options None None) [])) in
  _watchers (client w) = [7; 7]
  /\ _watchers (client (unsubscribe 7 w)) = [7]
  /\ _watchers (client (unsubscribe 7 (unsubscribe 7 w))) = [].
Proof. done. Qed.

(** *** Closing *)

Lemma remove_detaches (f : Element) (d : list Element) :
  attached f (remove f d) = false.
Proof.
  unfold attached, remove. apply not_true_iff_false. intros Hex.
  apply existsb_exists in Hex as (e & Hin & He).
  apply list_elem_of_In, list_elem_of_filter in Hin as [Hne _].
  by apply Nat.eqb_eq in He.
Qed.

Lemma fresh_node_above (d : list Element) :
  Forall (fun e => node e < fresh_node d) d.
Proof.
  unfold fresh_node. induction d as [|e d IH]; [done|].
  constructor; cbn; [lia|].
  eapply Forall_impl; [exact IH|]. cbn. intros e' He'. lia.
Qed.

Lemma remove_appended (f : Element) (d : list Element) :
  Forall (fun e => node e < node f) d -> remove f (d ++ [f]) = d.
Proof.
  intros Hd. unfold remove. rewrite filter_app.
  rewrite filter_cons_False, filter_nil, app_nil_r by (intros ?; done).
  induction Hd as [|e d He Hd IH]; [done|].
  rewrite filter_cons_True by lia. by rewrite IH.
Qed.

Lemma find_appended {A} (P : A -> bool) (d : list A) (x : A) :
  find P d = None -> P x = true -> find P (d ++ [x]) = Some x.
Proof.
  intros Hd Hx. induction d as [|y d IH]; cbn in *; [by rewrite Hx|].
  destruct (P y); [done | by apply IH].
Qed.

Lemma getElementById_nonempty i (d : list Element) f :
  getElementById i d = Some f -> String.eqb i "" = false.
Proof. unfold getElementById. by destruct (String.eqb i ""). Qed.

(** The page the constructor starts from. *)
Lemma constructor_frameId uuid url' org opts d :
  frameId (client (constructor uuid url' org opts d))
  = match options_frameId opts with
    | Some i => i
    | None => "cross-storage-client-" +:+ uuid
    end.
Proof.
  unfold constructor.
  destruct (match options_frameId opts with
            | Some i => if String.eqb i "" then None else getElementById i d
            | None => None
            end); done.
Qed.

Lemma constructor_adopts uuid url' org opts d i f :
  options_frameId opts = Some i -> getElementById i d = Some f ->
  constructor uuid url' org opts d
  = MkPage (MkClient uuid url' org opts false false 0 (Some f) ∅ [] [])
           d (fresh_node d) true {[0 := MkTimer 1000 PollInterval]} 1
           [] [] [].
Proof.
  intros Hopt Hget. unfold constructor.
  by rewrite Hopt, (getElementById_nonempty _ _ _ Hget), Hget.
Qed.

Lemma constructor_creates uuid url' org opts d :
  let fid := match options_frameId opts with
             | Some i => i
             | None => "cross-storage-client-" +:+ uuid
             end in
  let f := MkElement (fresh_node d) fid url' in
  getElementById fid d = None ->
  constructor uuid url' org opts d
  = MkPage (MkClient uuid url' org opts false false 0 (Some f) ∅ [] [])
           (d ++ [f]) (S (fresh_node d)) true ∅ 0 [] [] [].
Proof.
  intros fid f Hnone. unfold constructor, _createFrame, frameId. cbn.
  subst f fid.
  destruct (options_frameId opts) as [i|]; [|done].
  destruct (String.eqb i ""); [done | by rewrite Hnone].
Qed.

(** *** Pending requests and pending connects *)

Lemma settle_pending p s (w : Page) :
  promises w !! p = Some None ->
  promises (settle p s w) !! p = Some (Some s).
Proof.
  intros Hp. unfold settle. rewrite Hp. cbn.
  apply list_lookup_insert_eq. by eapply lookup_lt_Some.
Qed.

Lemma settle_frame p s (w : Page) :
  client (settle p s w) = client w
  /\ document (settle p s w) = document w
  /\ listening (settle p s w) = listening w
  /\ timers (settle p s w) = timers w
  /\ sent (settle p s w) = sent w
  /\ invoked (settle p s w) = invoked w.
Proof. unfold settle. by destruct (promises w !! p) as [[?|]|]. Qed.

Lemma settle_appended p s (w : Page) (ps : list Promise) :
  promises w = ps ++ [None] -> p = length ps ->
  promises (settle p s w) = ps ++ [Some s].
Proof.
  intros Hps ->. unfold settle. rewrite Hps.
  rewrite lookup_app_r, Nat.sub_diag by done. cbn.
  rewrite insert_app_r_alt, Nat.sub_diag by done. done.
Qed.

(** A message that is not the text of a signal leaves the connection
    state and the watchers alone; what is left is the lookup of its id. *)
Lemma _onListener_json (fns : Handlers) (message : MessageEvent)
  (response : json) (w : Page) :
  message_data message = Json response ->
  _onListener fns message w
  = if closed (client w) then w
    else if negb (String.eqb
                    (if String.eqb (message_origin message) "null"
                     then "file://" else message_origin message)
                    (origin (client w))) then w
    else
      match prop response "id" with
      | Throw _ => w
      | Ok response_id =>
          if negb (truthyV response_id) then w
          else
            match ToStringV response_id with
            | Throw _ => w
            | Ok request_id =>
                match _requests (client w) !! request_id with
                | Some requestCallback =>
                    request_callback request_id requestCallback response w
                | None => w
                end
            end
      end.
Proof.
  intros Hdata. unfold _onListener. rewrite Hdata. cbn.
  rewrite orb_false_r. done.
Qed.

(** C4, as the code has it.  For requests: a request that is sent is held
    in the pending map with a timer of the configured timeout; when that
    timer fires the entry is deleted and the promise rejected with the
    timeout error; an error Response clears the timer, deletes the entry
    and rejects the promise; without a hub window the timer is cleared, no
    entry is made and the promise is rejected; on a closed or unconnected
    client the promise is rejected with neither timer nor entry; and a
    Response whose id is not in the pending map invokes no handler and
    changes nothing.  For [connect()]: the timeout rejects the caller and
    its timer is gone, but its callback stays in the pending-connect
    list. *)
Theorem rejections_clean_up_requests_not_connects :
  forall (fns : Handlers) (w : Page),
    (forall method params h d,
        let request_id :=
          id (client w) +:+ ":" +:+ pretty (S (count (client w))) in
        let p := length (promises w) in
        let t := next_timer w in
        let w' := (_request method params w).2 in
        closed (client w) = false -> connected (client w) = true ->
        hub w = Some h ->
        stringify request_id method params = Ok d ->
        (_request method params w).1 = p
        /\ _requests (client w') !! request_id = Some (MkRequest t p)
        /\ timers w' !! t
           = Some (MkTimer (timeout (client w))
                           (RequestTimeout request_id method p))
        /\ promises w' !! p = Some None
        /\ sent w' = sent w ++ [Post (Other (node h)) d
                                    (targetOrigin (client w))])
    /\ (forall t ms request_id method p cb,
          timers w !! t
          = Some (MkTimer ms (RequestTimeout request_id method p)) ->
          _requests (client w) !! request_id = Some cb ->
          promises w !! p = Some None ->
          _requests (client (fire t w)) !! request_id = None
          /\ timers (fire t w) !! t = None
          /\ promises (fire t w) !! p
             = Some (Some (Rejected (request_timed_out method (client w))))
          /\ invoked (fire t w) = invoked w)
    /\ (forall message response response_id request_id cb error m,
          closed (client w) = false ->
          (if String.eqb (message_origin message) "null"
           then "file://" else message_origin message) = origin (client w) ->
          message_data message = Json response ->
          field response "id" = Some response_id ->
          truthy response_id = true ->
          ToString response_id = Ok request_id ->
          _requests (client w) !! request_id = Some cb ->
          field response "error" = Some error ->
          truthy error = true ->
          ToString error = Ok m ->
          promises w !! request_promise cb = Some None ->
          let w' := _onListener fns message w in
          _requests (client w') !! request_id = None
          /\ timers w' !! request_timer cb = None
          /\ promises w' !! request_promise cb = Some (Some (Rejected m))
          /\ invoked w' = invoked w ++ [InvokeRequest request_id cb])
    /\ (forall method params,
          let p := length (promises w) in
          let w' := (_request method params w).2 in
          closed (client w) = false -> connected (client w) = true ->
          hub w = None ->
          (_request method params w).1 = p
          /\ promises w' !! p = Some (Some (Rejected hub_error))
          /\ timers w' !! next_timer w = None
          /\ _requests (client w') = _requests (client w))
    /\ (forall method params,
          let p := length (promises w) in
          let w' := (_request method params w).2 in
          closed (client w) = true \/ connected (client w) = false ->
          (_request method params w).1 = p
          /\ promises w' !! p
             = Some (Some (Rejected (if closed (client w) then closed_error
                                     else not_connected_error)))
          /\ timers w' = timers w
          /\ _requests (client w') = _requests (client w))
    /\ (forall message response,
          message_data message = Json response ->
          (forall response_id request_id,
              field response "id" = Some response_id ->
              ToString response_id = Ok request_id ->
              _requests (client w) !! request_id = None) ->
          _onListener fns message w = w)
    /\ (forall t ms p,
          timers w !! t = Some (MkTimer ms (ConnectTimeout p)) ->
          promises w !! p = Some None ->
          promises (fire t w) !! p
          = Some (Some (Rejected (connect_timed_out (client w))))
          /\ timers (fire t w) !! t = None
          /\ _connects (client (fire t w)) = _connects (client w)).
Proof.
  intros fns w. split; [|split; [|split; [|split; [|split; [|split]]]]].
  - intros method params h d request_id p t w' Hclosed Hconn Hhub Hstr.
    subst w'. unfold _request. rewrite Hclosed, Hconn. cbn [negb].
    unfold hub in *. cbn. rewrite Hhub. fold request_id. rewrite Hstr. cbn.
    split; [done|]. split; [apply lookup_insert_eq|].
    split; [apply lookup_insert_eq|]. split; [|done].
    rewrite lookup_app_r, Nat.sub_diag by done. done.
  - intros t ms request_id method p cb Ht Hreq Hp.
    unfold fire. rewrite Ht. cbn. rewrite Hreq.
    unfold reject, settle. cbn. rewrite Hp. cbn.
    split; [apply lookup_delete_eq|]. split; [apply lookup_delete_eq|].
    split; [|done].
    apply list_lookup_insert_eq. by eapply lookup_lt_Some.
  - intros message response response_id request_id cb error m
           Hclosed Horigin Hdata Hid Htruthy Hrid Hreq Herror Herr Hm Hp w'.
    subst w'. rewrite (_onListener_json _ _ _ _ Hdata).
    rewrite Hclosed, Horigin, String.eqb_refl. cbn [negb].
    unfold prop. destruct response; try discriminate Hid.
    rewrite Hid. cbn [truthyV ToStringV]. rewrite Htruthy, Hrid, Hreq.
    cbn [negb]. unfold request_callback. rewrite Herror.
    cbn [truthyV ToStringV]. rewrite Herr, Hm.
    unfold reject, settle. cbn. rewrite Hp. cbn.
    split; [apply lookup_delete_eq|]. split; [apply lookup_delete_eq|].
    split; [|done].
    apply list_lookup_insert_eq. by eapply lookup_lt_Some.
  - intros method params p w' Hclosed Hconn Hhub.
    subst w'. unfold _request. rewrite Hclosed, Hconn. cbn [negb].
    unfold hub in *. cbn. rewrite Hhub. cbn.
    split; [done|].
    unfold reject, settle. cbn.
    rewrite lookup_app_r, Nat.sub_diag by done. cbn.
    split; [|split; [apply lookup_delete_eq | done]].
    rewrite insert_app_r_alt, Nat.sub_diag by done.
    rewrite lookup_app_r, Nat.sub_diag by done. done.
  - intros method params p w' Hor. subst w'. unfold _request.
    destruct (closed (client w)) eqn:Hclosed; cbn.
    + split; [done|]. split; [|done].
      rewrite lookup_app_r, Nat.sub_diag by done. done.
    + destruct Hor as [|Hconn]; [done|]. rewrite Hconn. cbn.
      split; [done|]. split; [|done].
      rewrite lookup_app_r, Nat.sub_diag by done. done.
  - intros message response Hdata Hunknown.
    rewrite (_onListener_json _ _ _ _ Hdata).
    destruct (closed (client w)); [done|].
    destruct (negb _); [done|].
    unfold prop. destruct response; try done.
    destruct (field (JObj props) "id") as [response_id|] eqn:Hid; [|done].
    cbn [truthyV ToStringV]. destruct (negb _); [done|].
    destruct (ToString response_id) as [request_id|] eqn:Hrid; [|done].
    by rewrite (Hunknown _ _ eq_refl Hrid).
  - intros t ms p Ht Hp. unfold fire. rewrite Ht. cbn.
    unfold reject, settle. cbn. rewrite Hp. cbn.
    split; [|split; [apply lookup_delete_eq | done]].
    apply list_lookup_insert_eq. by eapply lookup_lt_Some.
Qed.



Lemma request_timeout_witness :
  let ready := Message "https://hub.example" (Text EVENT_READY) (Other 1) in
  let late :=
    Message "https://hub.example"
            (Json (JObj [("id", JStr "u:1"); ("method", JStr "set")]))
            (Other 1) in
  let w :=
    (set "k" (Serialized (JStr "v"))
         (receive idle ready
                  (constructor "u" "https://hub.example/hub.html"
                               "https://hub.example" (Options None None)
                               []))).2 in
  _requests (client w) !! "u:1" = Some (MkRequest 0 0)
  /\ _requests (client (fire 0 w)) !! "u:1" = None
  /\ promises (fire 0 w) !! 0
     = Some (Some (Rejected
          "Timeout: cross-storage:set request timed out after 30000ms"))
  /\ _onListener idle late (fire 0 w) = fire 0 w.
Proof.
  intros ready late w. split; [reflexivity|].
  destruct (rejections_clean_up_requests_not_connects idle w)
    as (_ & Htimeout & _).
  destruct (Htimeout 0 30000%Z "u:1" SET 0 (MkRequest 0 0)
                     eq_refl eq_refl eq_refl)
    as (Hgone & _ & Hrejected & _).
  split; [exact Hgone|]. split; [exact Hrejected|].
  destruct (rejections_clean_up_requests_not_connects idle (fire 0 w))
    as (_ & _ & _ & _ & _ & Hunknown & _).
  apply (Hunknown late (JObj [("id", JStr "u:1"); ("method", JStr "set")])
                  eq_refl).
  intros response_id request_id [= <-] [= <-]. reflexivity.
Defined.

(** C4 fails as stated, on two rejection paths.  A [connect()] caller
    rejected by its timeout keeps its callback in the pending-connect
    list, and the next ready signal invokes it.  A request rejected
    because [JSON.stringify] throws on its value keeps its entry in the
    pending map, and its timer. *)
Lemma rejected_connect_and_request_stay_pending :
  let ready := Message "https://hub.example" (Text EVENT_READY) (Other 1) in
  let w0 := constructor "u" "https://hub.example/hub.html"
                        "https://hub.example" (Options None None) [] in
  let timed_out := fire 0 (connect w0).2 in
  let unsent := (set "k" Unserializable (receive idle ready w0)).2 in
  promises timed_out
  = [Some (Rejected "CrossStorageClient timed out after 30000ms")]
  /\ _connects (client timed_out) = [MkConnect 0 0]
  /\ invoked (receive idle ready timed_out)
     = [InvokeConnect (MkConnect 0 0) None]
  /\ promises unsent = [Some (Rejected stringify_error)]
  /\ _requests (client unsent) !! "u:1" = Some (MkRequest 0 0)
  /\ timers unsent !! 0
     = Some (MkTimer 30000 (RequestTimeout "u:1" SET 0)).
Proof. done. Qed.

(** *** Messages the client ignores *)

(** A message is ignored, the page stays as it is, when the listener is
    detached, when the client is closed, when the text is empty, or when
    the sender's origin (with ["null"] read as [file://]) is not the hub's
    origin; whatever the message says. *)
Theorem foreign_or_late_message_is_ignored :
  forall (fns : Handlers) (message : MessageEvent) (w : Page),
    (listening w = false
     \/ closed (client w) = true
     \/ message_data message = Text ""
     \/ (if String.eqb (message_origin message) "null"
         then "file://" else message_origin message) <> origin (client w)) ->
    receive fns message w = w.
Proof.
  intros fns message w H. unfold receive, _onListener.
  destruct (listening w); [|done].
  destruct (closed (client w)); [done|]. cbn [orb].
  destruct H as [H | [H | [H | H]]]; try done.
  - by rewrite H.
  - destruct (is_text (message_data message) ""); [done|].
    apply String.eqb_neq in H. by rewrite H.
Qed.

Lemma foreign_message_witness :
  let w := constructor "u" "https://hub.example/hub.html"
                       "https://hub.example" (Options None None) [] in
  receive idle (Message "https://evil.example" (Text EVENT_READY) (Other 1)) w
  = w.
Proof.
  intros w. apply foreign_or_late_message_is_ignored.
  right. right. right. discriminate.
Defined.

(** *** Change notifications *)

Lemma substring_all (s : string) : String.substring 0 (String.length s) s = s.
Proof. induction s as [|c s IH]; [done|]. cbn. by rewrite IH. Qed.

(** The client reads back the key that the hub wrote into a change
    notification. *)
Lemma slice_change (key : string) :
  slice (EVENT_CHANGE +:+ ":" +:+ key) (String.length EVENT_CHANGE + 1) = key.
Proof.
  change (String.substring 0 (String.length key - 0) key = key).
  rewrite Nat.sub_0_r. apply substring_all.
Qed.

Lemma page_eta (w : Page) :
  MkPage (client w) (document w) (next_node w) (listening w) (timers w)
         (next_timer w) (promises w) (sent w) (invoked w) = w.
Proof. by destruct w. Qed.

Lemma invoke_silent (fns : Handlers) (watcher : WatchHandler)
  (changeKey : option string) (w : Page) :
  fns watcher changeKey w = silent ->
  invoke fns watcher changeKey w
  = (log (InvokeWatcher watcher changeKey) w, false).
Proof. intros Hsilent. unfold invoke. by rewrite Hsilent. Qed.

Lemma watchers_forEach_S (fns : Handlers) (changeKey : option string)
  (n k : nat) (w : Page) :
  watchers_forEach fns changeKey (S n) k w
  = match _watchers (client w) !! k with
    | None => watchers_forEach fns changeKey n (S k) w
    | Some watcher =>
        let '(w1, thrown) := invoke fns watcher changeKey w in
        if thrown then (w1, true)
        else watchers_forEach fns changeKey n (S k) w1
    end.
Proof. done. Qed.

Lemma watchers_forEach_call (fns : Handlers) (changeKey : option string)
  (n k : nat) (w : Page) (watcher : WatchHandler) :
  _watchers (client w) !! k = Some watcher ->
  watchers_forEach fns changeKey (S n) k w
  = let '(w1, thrown) := invoke fns watcher changeKey w in
    if thrown then (w1, true) else watchers_forEach fns changeKey n (S k) w1.
Proof. intros Hk. cbn [watchers_forEach]. by rewrite Hk. Qed.

(** The loop over watchers that do nothing: the watchers at the [n]
    indices from [k] are called, in this order. *)
Lemma watchers_forEach_silent (fns : Handlers) (changeKey : option string)
  (n k : nat) (w : Page) :
  (forall watcher w',
      watcher ∈ take n (drop k (_watchers (client w))) ->
      fns watcher changeKey w' = silent) ->
  watchers_forEach fns changeKey n k w
  = (called_silently changeKey (take n (drop k (_watchers (client w)))) w,
     false).
Proof.
  revert k w. induction n as [|n IH]; intros k w Hsilent.
  - cbn. unfold called_silently. cbn. by rewrite app_nil_r, page_eta.
  - cbn [watchers_forEach].
    destruct (_watchers (client w) !! k) as [watcher|] eqn:Hk.
    + rewrite (drop_S _ _ _ Hk) in Hsilent |- *. cbn [take] in *.
      rewrite invoke_silent by (apply Hsilent; left).
      rewrite IH.
      * unfold called_silently. cbn. by rewrite <- app_assoc.
      * intros watcher' w' Hin. apply Hsilent. by right.
    + rewrite IH.
      * apply lookup_ge_None in Hk.
        by rewrite !drop_ge, !take_nil by lia.
      * intros watcher' w' Hin. apply Hsilent.
        apply lookup_ge_None in Hk.
        rewrite drop_ge, take_nil in Hin by lia. by apply elem_of_nil in Hin.
Qed.

(** The loop over [n1 + n2] indices is the loop over the first [n1], and,
    unless a watcher threw, the loop over the other [n2] on the page the
    first left. *)
Lemma watchers_forEach_app (fns : Handlers) (changeKey : option string)
  (n1 n2 k : nat) (w : Page) :
  watchers_forEach fns changeKey (n1 + n2) k w
  = let '(w1, thrown) := watchers_forEach fns changeKey n1 k w in
    if thrown then (w1, true)
    else watchers_forEach fns changeKey n2 (k + n1) w1.
Proof.
  revert k w. induction n1 as [|n1 IH]; intros k w.
  - cbn. by rewrite Nat.add_0_r.
  - cbn [Nat.add watchers_forEach].
    destruct (_watchers (client w) !! k) as [watcher|].
    + destruct (invoke fns watcher changeKey w) as [w1 [|]]; [done|].
      rewrite IH. by replace (S k + n1) with (k + S n1) by lia.
    + rewrite IH. by replace (S k + n1) with (k + S n1) by lia.
Qed.

(** A change notification on a connected client: all that happens is the
    loop over the watchers. *)
Lemma receive_change (fns : Handlers) (w : Page) (org : string)
  (source : window) (key : string) :
  listening w = true ->
  closed (client w) = false ->
  connected (client w) = true ->
  (if String.eqb org "null" then "file://" else org) = origin (client w) ->
  receive fns (Message org (CrossStorageHub.change key) source) w
  = (watchers_forEach fns (if String.eqb key "*" then None else Some key)
                      (length (_watchers (client w))) 0 w).1.
Proof.
  intros Hlisten Hclosed Hconn Horigin.
  unfold receive. rewrite Hlisten at 1.
  unfold _onListener, CrossStorageHub.change. rewrite Hclosed.
  cbn [message_data message_origin is_text orb].
  rewrite Horigin, String.eqb_refl, Hconn.
  change (String.eqb (EVENT_CHANGE +:+ ":" +:+ key) "") with false.
  change (String.eqb (EVENT_CHANGE +:+ ":" +:+ key) EVENT_UNAVAILABLE)
    with false.
  change (String.eqb (EVENT_CHANGE +:+ ":" +:+ key) EVENT_READY) with false.
  change (String.prefix (EVENT_CHANGE +:+ ":") (EVENT_CHANGE +:+ ":" +:+ key))
    with (String.prefix "" key).
  assert (String.prefix "" key = true) as -> by by destruct key.
  cbn [negb andb JSON_parse]. rewrite andb_false_r, andb_true_r.
  rewrite slice_change.
  destruct (_watchers (client w)) as [|f fs] eqn:Hw; cbn [length Nat.eqb negb].
  - done.
  - by destruct (watchers_forEach _ _ _ _ _) as [w2 [|]].
Qed.

(** A change notification from the hub, on a connected client, runs the
    caller's watchers over the watcher list as it is when each index is
    reached, with the key the hub put in the notification, or with [null]
    for the wildcard (a key that is itself ["*"] is reported as [null]).
    When the watchers do nothing to the client, every registered watcher
    is called once, in the order of registration, and nothing else in the
    page changes.  When the first watcher unsubscribes itself, the watcher
    registered after it is not called: it has moved to the index that
    was just visited.  When a watcher throws, the watchers registered
    after it are not called. *)
Theorem change_notification_calls_every_watcher :
  forall (fns : Handlers) (w : Page) (org : string) (source : window)
         (key : string),
    let changeKey := if String.eqb key "*" then None else Some key in
    let w' :=
      receive fns (Message org (CrossStorageHub.change key) source) w in
    listening w = true ->
    closed (client w) = false ->
    connected (client w) = true ->
    (if String.eqb org "null" then "file://" else org) = origin (client w) ->
    ((forall watcher w0,
         watcher ∈ _watchers (client w) ->
         fns watcher changeKey w0 = silent) ->
     w' = called_silently changeKey (_watchers (client w)) w)
    /\ (forall first second rest,
          _watchers (client w) = first :: second :: rest ->
          (forall w0,
              fns first changeKey w0 = Behave [CallUnsubscribe first] false) ->
          (forall watcher w0,
              watcher ∈ second :: rest ->
              fns watcher changeKey w0 = silent) ->
          _watchers (client w') = second :: rest
          /\ invoked w'
             = invoked w
               ++ ((fun watcher => InvokeWatcher watcher changeKey)
                     <$> first :: rest))
    /\ (forall before thrower after,
          _watchers (client w) = before ++ thrower :: after ->
          (forall watcher w0,
              watcher ∈ before -> fns watcher changeKey w0 = silent) ->
          (forall w0, fns thrower changeKey w0 = Behave [] true) ->
          w' = called_silently changeKey (before ++ [thrower]) w).
Proof.
  intros fns w org source key changeKey w' Hlisten Hclosed Hconn Horigin.
  subst w'. rewrite receive_change by done. fold changeKey.
  split; [|split].
  - intros Hsilent. rewrite watchers_forEach_silent.
    + cbn [fst]. by rewrite drop_0, firstn_all.
    + intros watcher w0 Hin. apply Hsilent.
      rewrite drop_0, firstn_all in Hin. exact Hin.
  - intros first second rest Hw Hfirst Hrest.
    replace (length (_watchers (client w)))
      with (S (length (second :: rest))) by by rewrite Hw.
    rewrite (watchers_forEach_call _ _ _ _ _ first) by by rewrite Hw.
    unfold invoke. rewrite Hfirst. cbn [calls throws foldl call].
    set (w1 := unsubscribe first (log (InvokeWatcher first changeKey) w)).
    assert (w1 = with_client (set_watchers (second :: rest))
                             (log (InvokeWatcher first changeKey) w)) as Hw1.
    { unfold w1, unsubscribe. cbn [log client]. rewrite Hw.
      cbn [indexOf]. rewrite Nat.eqb_refl. unfold with_client.
      cbn [log client]. by rewrite Hw. }
    assert (take (length (second :: rest)) (drop 1 (_watchers (client w1)))
            = rest) as Hcalled.
    { rewrite Hw1. cbn. apply take_ge. lia. }
    rewrite watchers_forEach_silent; rewrite Hcalled.
    + rewrite Hw1. cbn. split; [done|]. by rewrite <- app_assoc.
    + intros watcher w0 Hin. apply Hrest. by right.
  - intros before thrower after Hw Hbefore Hthrower. rewrite Hw.
    rewrite length_app. rewrite watchers_forEach_app.
    rewrite watchers_forEach_silent; rewrite Hw, drop_0, take_app_length.
    + cbn [Nat.add length].
      rewrite (watchers_forEach_call _ _ _ _ _ thrower)
        by (cbn; by rewrite Hw, lookup_app_r, Nat.sub_diag).
      unfold invoke. rewrite Hthrower. cbn.
      unfold called_silently. by rewrite fmap_app, app_assoc.
    + exact Hbefore.
Qed.

Lemma change_notification_witness :
  let ready := Message "https://hub.example" (Text EVENT_READY) (Other 1) in
  let changed :=
    Message "https://hub.example" (CrossStorageHub.change "token") (Other 1) in
  let w := watch 3 (watch 2 (watch 1
             (receive idle ready
                (constructor "u" "https://hub.example/hub.html"
                             "https://hub.example" (Options None None) [])))) in
  let once : Handlers :=
    fun watcher _ _ =>
      if Nat.eqb watcher 1 then Behave [CallUnsubscribe 1] false else silent in
  let failing : Handlers :=
    fun watcher _ _ => if Nat.eqb watcher 2 then Behave [] true else silent in
  invoked (receive idle changed w)
  = [InvokeWatcher 1 (Some "token"); InvokeWatcher 2 (Some "token");
     InvokeWatcher 3 (Some "token")]
  /\ invoked (receive once changed w)
     = [InvokeWatcher 1 (Some "token"); InvokeWatcher 3 (Some "token")]
  /\ invoked (receive failing changed w)
     = [InvokeWatcher 1 (Some "token"); InvokeWatcher 2 (Some "token")].
Proof.
  intros ready changed w once failing. unfold changed. split; [|split].
  - destruct (change_notification_calls_every_watcher
                idle w "https://hub.example" (Other 1) "token"
                eq_refl eq_refl eq_refl eq_refl) as (Hall & _).
    by rewrite Hall.
  - destruct (change_notification_calls_every_watcher
                once w "https://hub.example" (Other 1) "token"
                eq_refl eq_refl eq_refl eq_refl) as (_ & Hskip & _).
    destruct (Hskip 1 2 [3] eq_refl) as [_ Hinvoked]; [done| |exact Hinvoked].
    intros watcher w0 Hin.
    apply elem_of_cons in Hin as [-> | Hin]; [done|].
    by apply list_elem_of_singleton in Hin as ->.
  - destruct (change_notification_calls_every_watcher
                failing w "https://hub.example" (Other 1) "token"
                eq_refl eq_refl eq_refl eq_refl) as (_ & _ & Hthrow).
    rewrite (Hthrow [1] 2 [3] eq_refl); [done| |done].
    intros watcher w0 Hin. by apply list_elem_of_singleton in Hin as ->.
Defined.

(** *** Connecting *)

Lemma settle_lookup (p q : nat) (s : Settlement) (w : Page) :
  promises (settle p s w) !! q
  = if decide (q = p)
    then match promises w !! p with
         | Some None => Some (Some s)
         | o => o
         end
    else promises w !! q.
Proof.
  unfold settle. destruct (promises w !! p) as [[s'|]|] eqn:Hp; cbn.
  - by destruct (decide (q = p)) as [->|].
  - destruct (decide (q = p)) as [->|Hne].
    + apply list_lookup_insert_eq. by eapply lookup_lt_Some.
    + by apply list_lookup_insert_ne.
  - by destruct (decide (q = p)) as [->|].
Qed.

Lemma connect_callback_page (cb : ConnectCallback) (err : option string)
  (w : Page) :
  connect_callback cb err w
  = MkPage (client w) (document w) (next_node w) (listening w)
           (delete (connect_timer cb) (timers w)) (next_timer w)
           (promises
              (settle (connect_promise cb)
                      (match err with
                       | Some m => Rejected m
                       | None => ResolvedThis
                       end) w))
           (sent w) (invoked w ++ [InvokeConnect cb err]).
Proof.
  unfold connect_callback, reject, settle, clearTimer, log.
  destruct err; cbn; by destruct (promises w !! connect_promise cb) as [[?|]|].
Qed.

(** What calling every callback of a list of pending connects does. *)
Lemma connect_callbacks_fold (err : option string)
  (l : list ConnectCallback) (w : Page) :
  let w' := foldl (fun w0 cb => connect_callback cb err w0) w l in
  let s := match err with
           | Some m => Rejected m
           | None => ResolvedThis
           end in
  client w' = client w
  /\ document w' = document w
  /\ listening w' = listening w
  /\ sent w' = sent w
  /\ next_timer w' = next_timer w
  /\ invoked w' = invoked w ++ ((fun cb => InvokeConnect cb err) <$> l)
  /\ (forall t,
        timers w' !! t
        = if bool_decide (t ∈ connect_timer <$> l) then None
          else timers w !! t)
  /\ (forall p,
        promises w' !! p
        = if bool_decide (p ∈ connect_promise <$> l)
          then match promises w !! p with
               | Some None => Some (Some s)
               | o => o
               end
          else promises w !! p).
Proof.
  revert w. induction l as [|cb l IH]; intros w w' s.
  - subst w'. cbn. rewrite app_nil_r. repeat split; done.
  - subst w'. cbn [foldl].
    assert (client (connect_callback cb err w) = client w
            /\ document (connect_callback cb err w) = document w
            /\ listening (connect_callback cb err w) = listening w
            /\ sent (connect_callback cb err w) = sent w
            /\ next_timer (connect_callback cb err w) = next_timer w
            /\ invoked (connect_callback cb err w)
               = invoked w ++ [InvokeConnect cb err]
            /\ timers (connect_callback cb err w)
               = delete (connect_timer cb) (timers w)
            /\ promises (connect_callback cb err w)
               = promises (settle (connect_promise cb) s w))
      as (Hc1 & Hd1 & Hl1 & Hs1 & Hn1 & Hi1 & Ht1 & Hp1)
      by (by rewrite connect_callback_page).
    destruct (IH (connect_callback cb err w))
      as (Hc & Hd & Hl & Hs & Hn & Hi & Ht & Hp).
    split; [by rewrite Hc|]. split; [by rewrite Hd|].
    split; [by rewrite Hl|]. split; [by rewrite Hs|].
    split; [by rewrite Hn|]. split; [|split].
    + rewrite Hi, Hi1. cbn. by rewrite <- app_assoc.
    + intros t. rewrite Ht, Ht1, fmap_cons.
      destruct (decide (t ∈ connect_timer <$> l)) as [Hin|Hnin].
      * rewrite !bool_decide_eq_true_2; [done | by right | done].
      * rewrite (bool_decide_eq_false_2 _ Hnin).
        destruct (decide (t = connect_timer cb)) as [->|Hne].
        -- rewrite bool_decide_eq_true_2 by left. apply lookup_delete_eq.
        -- rewrite bool_decide_eq_false_2
             by (rewrite not_elem_of_cons; by split).
           by apply lookup_delete_ne.
    + intros p. rewrite Hp, Hp1, settle_lookup, fmap_cons.
      destruct (decide (p = connect_promise cb)) as [->|Hne].
      * rewrite (bool_decide_eq_true_2 (_ ∈ _ :: _)) by left.
        destruct (bool_decide _);
          by destruct (promises w !! connect_promise cb) as [[?|]|].
      * destruct (decide (p ∈ connect_promise <$> l)) as [Hin|Hnin].
        -- rewrite !bool_decide_eq_true_2; [done | by right | done].
        -- rewrite (bool_decide_eq_false_2 _ Hnin).
           rewrite bool_decide_eq_false_2; [done|].
           rewrite not_elem_of_cons. by split.
Qed.

(** The unavailable signal from the hub closes the client: the listener is
    detached, every pending [connect()] caller is rejected with the
    unavailable error and its timer cleared, and no later message is
    looked at.  The pending-connect list itself is left as it was. *)
Theorem unavailable_signal_closes_client :
  forall (fns : Handlers) (w : Page) (message : MessageEvent),
    listening w = true ->
    closed (client w) = false ->
    (if String.eqb (message_origin message) "null"
     then "file://" else message_origin message) = origin (client w) ->
    message_data message = Text EVENT_UNAVAILABLE ->
    let w' := receive fns message w in
    closed (client w') = true
    /\ connected (client w') = false
    /\ listening w' = false
    /\ _connects (client w') = _connects (client w)
    /\ (forall cb, cb ∈ _connects (client w) ->
          timers w' !! connect_timer cb = None
          /\ (promises w !! connect_promise cb = Some None ->
              promises w' !! connect_promise cb
              = Some (Some (Rejected unavailable_error))))
    /\ (forall later, receive fns later w' = w').
Proof.
  intros fns w message Hlisten Hclosed Horigin Hdata w'.
  subst w'.
  assert (receive fns message w
          = connects_forEach (Some unavailable_error) (close w)) as ->.
  { unfold receive. rewrite Hlisten.
    unfold _onListener. rewrite Hclosed, Hdata, Horigin, String.eqb_refl.
    cbn [is_text orb negb].
    change (String.eqb EVENT_UNAVAILABLE "") with false.
    change (String.eqb EVENT_UNAVAILABLE EVENT_UNAVAILABLE) with true.
    done. }
  destruct (connect_callbacks_fold (Some unavailable_error)
              (_connects (client (close w))) (close w))
    as (Hc & _ & Hl & _ & _ & _ & Ht & Hp).
  fold (connects_forEach (Some unavailable_error) (close w)) in Hc, Hl, Ht, Hp.
  rewrite Hc.
  assert (promises (close w) = promises w) as Hpc.
  { unfold close. by destruct (getElementById _ _). }
  assert (_connects (client (close w)) = _connects (client w)) as Hcc.
  { unfold close. by destruct (getElementById _ _). }
  assert (listening (close w) = false) as Hlc.
  { unfold close. by destruct (getElementById _ _). }
  split; [unfold close; by destruct (getElementById _ _)|].
  split; [unfold close; by destruct (getElementById _ _)|].
  split; [by rewrite Hl|]. split; [done|]. split.
  - intros cb Hin. rewrite Ht, Hp, Hcc, Hpc.
    rewrite !bool_decide_eq_true_2
      by (apply list_elem_of_fmap; by exists cb).
    split; [done|]. by intros ->.
  - intros later. unfold receive. by rewrite Hl, Hlc.
Qed.

Lemma unavailable_signal_witness :
  let gone :=
    Message "https://hub.example" (Text EVENT_UNAVAILABLE) (Other 1) in
  let w := (connect (constructor "u" "https://hub.example/hub.html"
                                 "https://hub.example" (Options None None)
                                 [])).2 in
  closed (client (receive idle gone w)) = true
  /\ promises (receive idle gone w) !! 0
     = Some (Some (Rejected unavailable_error)).
Proof.
  intros gone w.
  destruct (unavailable_signal_closes_client idle w gone eq_refl eq_refl
                                             eq_refl eq_refl)
    as (Hclosed & _ & _ & _ & Hcb & _).
  destruct (Hcb (MkConnect 0 0) ltac:(constructor)) as [_ Hpromise].
  split; [exact Hclosed | exact (Hpromise eq_refl)].
Defined.

(** *** What settling and the callbacks leave alone *)

Lemma client_settle p s (w : Page) : client (settle p s w) = client w.
Proof. apply settle_frame. Qed.

Lemma timers_settle p s (w : Page) : timers (settle p s w) = timers w.
Proof. apply settle_frame. Qed.

Lemma sent_settle p s (w : Page) : sent (settle p s w) = sent w.
Proof. apply settle_frame. Qed.

Lemma next_timer_settle p s (w : Page) :
  next_timer (settle p s w) = next_timer w.
Proof. unfold settle. by destruct (promises w !! p) as [[?|]|]. Qed.

Lemma document_settle p s (w : Page) : document (settle p s w) = document w.
Proof. apply settle_frame. Qed.

Lemma listening_settle p s (w : Page) :
  listening (settle p s w) = listening w.
Proof. apply settle_frame. Qed.

Lemma client_connects_forEach err (w : Page) :
  client (connects_forEach err w) = client w.
Proof. apply (connect_callbacks_fold err (_connects (client w)) w). Qed.

Lemma sent_connects_forEach err (w : Page) :
  sent (connects_forEach err w) = sent w.
Proof. apply (connect_callbacks_fold err (_connects (client w)) w). Qed.

Lemma document_connects_forEach err (w : Page) :
  document (connects_forEach err w) = document w.
Proof. apply (connect_callbacks_fold err (_connects (client w)) w). Qed.

Lemma listening_connects_forEach err (w : Page) :
  listening (connects_forEach err w) = listening w.
Proof. apply (connect_callbacks_fold err (_connects (client w)) w). Qed.

Lemma next_timer_connects_forEach err (w : Page) :
  next_timer (connects_forEach err w) = next_timer w.
Proof. apply (connect_callbacks_fold err (_connects (client w)) w). Qed.

Lemma timers_connects_forEach err (w : Page) t :
  timers (connects_forEach err w) !! t
  = if bool_decide (t ∈ connect_timer <$> _connects (client w)) then None
    else timers w !! t.
Proof. apply (connect_callbacks_fold err (_connects (client w)) w). Qed.

(** *** The stages of the listener *)

Lemma _onListener_stages (fns : Handlers) (message : MessageEvent)
  (w : Page) :
  _onListener fns message w
  = if closed (client w) || is_text (message_data message) "" then w
    else if negb (String.eqb
                    (if String.eqb (message_origin message) "null"
                     then "file://" else message_origin message)
                    (origin (client w))) then w
    else if is_text (message_data message) EVENT_UNAVAILABLE then
      connects_forEach (Some unavailable_error)
                       (if negb (closed (client w)) then close w else w)
    else
      let '(w2, thrown) :=
        on_change fns (message_data message)
                  (on_connection (message_data message) w) in
      if thrown then w2 else on_response (message_data message) w2.
Proof.
  unfold _onListener, on_response, on_change, on_connection.
  destruct (closed (client w) || is_text (message_data message) ""); [done|].
  destruct (negb _); [done|].
  destruct (is_text (message_data message) EVENT_UNAVAILABLE); [done|].
  by destruct (message_data message).
Qed.

#[local] Arguments connects_forEach : simpl never.
#[local] Arguments watchers_forEach : simpl never.
#[local] Arguments settle : simpl never.

Create Rewrite HintDb page.

#[local] Hint Rewrite client_settle timers_settle sent_settle
  next_timer_settle document_settle listening_settle
  client_connects_forEach sent_connects_forEach document_connects_forEach
  listening_connects_forEach next_timer_connects_forEach : page.

(** *** A signal of the protocol connects the client *)

(** A promise that is settled stays as it is through a call of a public
    method. *)
Lemma settled_call (c : Call) (w : Page) (p : nat) (s : Settlement) :
  promises w !! p = Some (Some s) ->
  promises (call c w) !! p = Some (Some s).
Proof.
  intros Hp. pose proof (lookup_lt_Some _ _ _ Hp) as Hlt.
  assert (forall x, (promises w ++ [x]) !! p = Some (Some s)) as Happ
    by (intros x; by rewrite lookup_app_l).
  destruct c as [|method params|watcher|watcher|]; cbn [call].
  - unfold connect. destruct (connected (client w)); [apply Happ|].
    destruct (closed (client w)); apply Happ.
  - unfold _request. destruct (closed (client w)); [apply Happ|].
    destruct (negb _); [apply Happ|]. cbn.
    destruct (hub _) as [h|].
    + destruct (stringify _ method params) as [d|m]; cbn; [apply Happ|].
      unfold reject. rewrite settle_lookup. cbn.
      destruct (decide (p = length (promises w)));
        [unfold Promise in *; lia | apply Happ].
    + cbn. unfold reject. rewrite settle_lookup. cbn.
      destruct (decide (p = length (promises w)));
        [unfold Promise in *; lia | apply Happ].
  - done.
  - unfold unsubscribe. by destruct (indexOf _ _).
  - unfold close. by destruct (getElementById _ _).
Qed.

(** A client that is connected or closed, and has no pending connect,
    stays so through a call of a public method: [connect()] settles at
    once. *)
Lemma no_pending_connect_call (c : Call) (w : Page) :
  connected (client w) = true \/ closed (client w) = true ->
  _connects (client w) = [] ->
  (connected (client (call c w)) = true \/ closed (client (call c w)) = true)
  /\ _connects (client (call c w)) = [].
Proof.
  intros Hflags Hnone.
  assert (forall w',
            connected (client w') = connected (client w) ->
            closed (client w') = closed (client w) ->
            _connects (client w') = _connects (client w) ->
            (connected (client w') = true \/ closed (client w') = true)
            /\ _connects (client w') = []) as Hsame.
  { intros w' -> -> ->. by split. }
  destruct c as [|method params|watcher|watcher|]; cbn [call].
  - unfold connect. destruct (connected (client w)) eqn:Hconn;
      [by apply Hsame|].
    destruct (closed (client w)) eqn:Hclosed; [by apply Hsame|].
    by destruct Hflags.
  - unfold _request. destruct (closed (client w)) eqn:Hclosed;
      [by apply Hsame|].
    destruct (connected (client w)) eqn:Hconn; [|by apply Hsame]. cbn.
    destruct (hub _) as [h|].
    + destruct (stringify _ method params) as [d|m]; cbn.
      * by apply Hsame.
      * unfold reject. apply Hsame; by rewrite client_settle.
    + cbn. unfold reject. apply Hsame; by rewrite client_settle.
  - by apply Hsame.
  - unfold unsubscribe. destruct (indexOf _ _); by apply Hsame.
  - unfold close. destruct (getElementById _ _); cbn; (split; [by right|done]).
Qed.

Lemma no_pending_connect_invoke (fns : Handlers) (watcher : WatchHandler)
  (changeKey : option string) (w : Page) :
  connected (client w) = true \/ closed (client w) = true ->
  _connects (client w) = [] ->
  let w' := (invoke fns watcher changeKey w).1 in
  (connected (client w') = true \/ closed (client w') = true)
  /\ _connects (client w') = []
  /\ forall p s, promises w !! p = Some (Some s) ->
                 promises w' !! p = Some (Some s).
Proof.
  intros Hflags Hnone. unfold invoke. cbn [fst].
  generalize (calls (fns watcher changeKey w)). intros cs.
  assert ((connected (client (log (InvokeWatcher watcher changeKey) w)) = true
           \/ closed (client (log (InvokeWatcher watcher changeKey) w)) = true)
          /\ _connects (client (log (InvokeWatcher watcher changeKey) w)) = []
          /\ forall p s, promises w !! p = Some (Some s) ->
                         promises (log (InvokeWatcher watcher changeKey) w)
                           !! p = Some (Some s)) as Hlog by done.
  revert Hlog. generalize (log (InvokeWatcher watcher changeKey) w).
  induction cs as [|c cs IH]; intros w0 (Hf & Hn & Hp); [done|].
  cbn [foldl]. apply IH.
  destruct (no_pending_connect_call c w0 Hf Hn) as [Hf' Hn'].
  split; [done|]. split; [done|].
  intros p s Hps. by apply settled_call, Hp.
Qed.

(** So does it through the loop over the watchers, whatever they do. *)
Lemma no_pending_connect_watchers (fns : Handlers)
  (changeKey : option string) (n k : nat) (w : Page) :
  connected (client w) = true \/ closed (client w) = true ->
  _connects (client w) = [] ->
  let w' := (watchers_forEach fns changeKey n k w).1 in
  (connected (client w') = true \/ closed (client w') = true)
  /\ _connects (client w') = []
  /\ forall p s, promises w !! p = Some (Some s) ->
                 promises w' !! p = Some (Some s).
Proof.
  revert k w. induction n as [|n IH]; intros k w Hflags Hnone; [done|].
  rewrite watchers_forEach_S.
  destruct (_watchers (client w) !! k) as [watcher|]; [|by apply IH].
  pose proof (no_pending_connect_invoke fns watcher changeKey w Hflags Hnone)
    as (Hf & Hn & Hp).
  destruct (invoke fns watcher changeKey w) as [w1 [|]]; cbn [fst] in *;
    [done|].
  destruct (IH (S k) w1 Hf Hn) as (Hf' & Hn' & Hp').
  split; [done|]. split; [done|]. intros p s Hps. by apply Hp', Hp.
Qed.

(** A timer that is gone stays gone through a call of a public method:
    the timers a call sets are new ones. *)
Lemma cleared_call (c : Call) (w : Page) (t : nat) :
  t < next_timer w -> timers w !! t = None ->
  t < next_timer (call c w) /\ timers (call c w) !! t = None.
Proof.
  intros Hlt Hgone.
  destruct c as [|method params|watcher|watcher|]; cbn [call].
  - unfold connect. destruct (connected (client w)); [done|].
    destruct (closed (client w)); [done|]. cbn.
    split; [lia|]. by rewrite lookup_insert_ne by lia.
  - unfold _request. destruct (closed (client w)); [done|].
    destruct (negb _); [done|]. cbn.
    destruct (hub _) as [h|].
    + destruct (stringify _ method params) as [d|m]; cbn.
      * split; [lia|]. by rewrite lookup_insert_ne by lia.
      * unfold reject. rewrite next_timer_settle, timers_settle. cbn.
        split; [lia|]. by rewrite lookup_insert_ne by lia.
    + cbn. unfold reject. rewrite next_timer_settle, timers_settle. cbn.
      split; [lia|]. apply lookup_delete_None. right.
      by rewrite lookup_insert_ne by lia.
  - done.
  - unfold unsubscribe. by destruct (indexOf _ _).
  - unfold close. by destruct (getElementById _ _).
Qed.

Lemma cleared_invoke (fns : Handlers) (watcher : WatchHandler)
  (changeKey : option string) (w : Page) (t : nat) :
  t < next_timer w -> timers w !! t = None ->
  t < next_timer (invoke fns watcher changeKey w).1
  /\ timers (invoke fns watcher changeKey w).1 !! t = None.
Proof.
  intros Hlt Hgone. unfold invoke. cbn [fst].
  generalize (calls (fns watcher changeKey w)). intros cs.
  assert (t < next_timer (log (InvokeWatcher watcher changeKey) w)
          /\ timers (log (InvokeWatcher watcher changeKey) w) !! t = None)
    as Hlog by done.
  revert Hlog. generalize (log (InvokeWatcher watcher changeKey) w).
  induction cs as [|c cs IH]; intros w0 [Hlt0 Hgone0]; [done|].
  cbn [foldl]. by apply IH, cleared_call.
Qed.

Lemma cleared_watchers (fns : Handlers) (changeKey : option string)
  (n k : nat) (w : Page) (t : nat) :
  t < next_timer w -> timers w !! t = None ->
  timers (watchers_forEach fns changeKey n k w).1 !! t = None.
Proof.
  revert k w. induction n as [|n IH]; intros k w Hlt Hgone; [done|].
  rewrite watchers_forEach_S.
  destruct (_watchers (client w) !! k) as [watcher|]; [|by apply IH].
  pose proof (cleared_invoke fns watcher changeKey w t Hlt Hgone)
    as [Hlt1 Hgone1].
  destruct (invoke fns watcher changeKey w) as [w1 [|]]; cbn [fst] in *;
    [done|].
  by apply IH.
Qed.

(** Any signal of the protocol from the hub (a text that begins with
    [cross-storage:], the unavailable signal apart) connects a client that
    is waiting.  Whatever the watchers do when the signal is also a change
    notification, every pending [connect()] caller is resolved, its timer
    (one that was set before the signal) is cleared, the pending-connect
    list is emptied, and the client is connected unless a watcher closed
    it.  When the signal calls no watcher (it is not a change
    notification, or no watcher is registered), the client is connected
    and not closed, and the timers of those callers are cleared. *)
Theorem protocol_signal_resolves_pending_connects :
  forall (fns : Handlers) (w : Page) (message : MessageEvent) (s : string),
    listening w = true ->
    closed (client w) = false ->
    connected (client w) = false ->
    (if String.eqb (message_origin message) "null"
     then "file://" else message_origin message) = origin (client w) ->
    message_data message = Text s ->
    String.prefix "cross-storage:" s = true ->
    s <> EVENT_UNAVAILABLE ->
    let w' := receive fns message w in
    _connects (client w') = []
    /\ (connected (client w') = true \/ closed (client w') = true)
    /\ (forall cb, cb ∈ _connects (client w) ->
          promises w !! connect_promise cb = Some None ->
          promises w' !! connect_promise cb = Some (Some ResolvedThis))
    /\ (forall cb, cb ∈ _connects (client w) ->
          connect_timer cb < next_timer w ->
          timers w' !! connect_timer cb = None)
    /\ (String.prefix (EVENT_CHANGE +:+ ":") s = false
        \/ _watchers (client w) = [] ->
        connected (client w') = true
        /\ closed (client w') = false
        /\ forall cb, cb ∈ _connects (client w) ->
             timers w' !! connect_timer cb = None).
Proof.
  intros fns w message s Hlisten Hclosed Hconn Horigin Hdata Hprefix Hs w'.
  subst w'. unfold receive. rewrite Hlisten.
  rewrite _onListener_stages.
  rewrite Hclosed, Hdata, Horigin, String.eqb_refl.
  cbn [is_text orb negb].
  apply String.eqb_neq in Hs. rewrite Hs.
  assert (String.eqb s "" = false) as ->.
  { destruct s; [done | reflexivity]. }
  unfold on_connection. cbn [startsWith]. rewrite Hprefix, Hconn.
  cbn [andb negb].
  set (w0 := with_client (set_connected true) w).
  destruct (connect_callbacks_fold None (_connects (client w0)) w0)
    as (Hc & _ & _ & _ & Hnt & _ & Ht & Hp).
  fold (connects_forEach None w0) in Hc, Hnt, Ht, Hp.
  set (w1 := with_client (set_connects []) (connects_forEach None w0)).
  assert (client w1 = set_connects [] (set_connected true (client w)))
    as Hc1 by (unfold w1, with_client at 1; cbn [client]; by rewrite Hc).
  assert (timers w1 = timers (connects_forEach None w0)) as Ht1 by done.
  assert (next_timer w1 = next_timer w) as Hnt1 by done.
  assert (promises w1 = promises (connects_forEach None w0)) as Hp1 by done.
  assert (forall cb, cb ∈ _connects (client w) ->
            timers w1 !! connect_timer cb = None) as Hcleared.
  { intros cb Hin. rewrite Ht1, Ht. rewrite bool_decide_eq_true_2; [done|].
    apply list_elem_of_fmap. by exists cb. }
  assert (forall cb, cb ∈ _connects (client w) ->
            promises w !! connect_promise cb = Some None ->
            promises w1 !! connect_promise cb = Some (Some ResolvedThis))
    as Hresolved.
  { intros cb Hin Hpending. rewrite Hp1, Hp. rewrite bool_decide_eq_true_2.
    - cbn. by rewrite Hpending.
    - apply list_elem_of_fmap. by exists cb. }
  assert (forall w2, on_response (Text s) w2 = w2) as Hresponse.
  { intros w2. unfold on_response. cbn. by destruct (String.eqb s EVENT_READY). }
  assert (connected (client w1) = true \/ closed (client w1) = true) as Hflags
    by (left; by rewrite Hc1).
  assert (_connects (client w1) = []) as Hnone by by rewrite Hc1.
  assert (let w2 := (on_change fns (Text s) w1).1 in
          (connected (client w2) = true \/ closed (client w2) = true)
          /\ _connects (client w2) = []
          /\ forall p s0, promises w1 !! p = Some (Some s0) ->
                          promises w2 !! p = Some (Some s0)) as Hafter.
  { unfold on_change. destruct (_ && _); [|done].
    by apply no_pending_connect_watchers. }
  assert ((let '(w2, thrown) := on_change fns (Text s) w1 in
           if thrown then w2 else on_response (Text s) w2)
          = (on_change fns (Text s) w1).1) as ->.
  { destruct (on_change fns (Text s) w1) as [w2 [|]]; [done|].
    apply Hresponse. }
  destruct Hafter as (Hf2 & Hn2 & Hp2).
  split; [done|]. split; [done|]. split; [|split].
  - intros cb Hin Hpending. by apply Hp2, Hresolved.
  - intros cb Hin Hlt. unfold on_change.
    destruct (_ && _); [|by apply Hcleared].
    apply cleared_watchers; [by rewrite Hnt1 | by apply Hcleared].
  - intros Hquiet.
    assert (on_change fns (Text s) w1 = (w1, false)) as ->.
    { unfold on_change. destruct Hquiet as [-> | Hw].
      - by rewrite andb_false_r.
      - rewrite Hc1. cbn. by rewrite Hw. }
    cbn [fst]. rewrite Hc1. cbn. do 2 (split; [done|]).
    exact Hcleared.
Qed.

Lemma connect_is_resolved_witness :
  let ready := Message "https://hub.example" (Text EVENT_READY) (Other 1) in
  let w := (connect (constructor "u" "https://hub.example/hub.html"
                                 "https://hub.example" (Options None None)
                                 [])).2 in
  promises w = [None]
  /\ promises (receive idle ready w) !! 0 = Some (Some ResolvedThis)
  /\ timers (receive idle ready w) !! 0 = None.
Proof.
  intros ready w. split; [reflexivity|].
  destruct (protocol_signal_resolves_pending_connects
              idle w ready EVENT_READY eq_refl eq_refl eq_refl eq_refl eq_refl
              eq_refl ltac:(discriminate))
    as (_ & _ & Hpromise & _ & Hquiet).
  split; [exact (Hpromise (MkConnect 0 0) ltac:(constructor) eq_refl)|].
  destruct (Hquiet ltac:(by left)) as (_ & _ & Htimer).
  exact (Htimer (MkConnect 0 0) ltac:(constructor)).
Defined.

(** *** What every run keeps *)

Lemma stable_refl (w : Page) : stable w w.
Proof.
  unfold stable. do 9 (split; [done|]). exists []. by rewrite app_nil_r.
Qed.

Lemma posts_to_hub_stable (w w' : Page) (p : post) :
  stable w w' -> posts_to_hub w' p -> posts_to_hub w p.
Proof.
  intros (_ & _ & Ho & _ & Hf & _) (Ht & Hframe & Hdata).
  unfold posts_to_hub, targetOrigin in *. by rewrite <- Ho, <- Hf.
Qed.

Lemma stable_trans (w1 w2 w3 : Page) :
  stable w1 w2 -> stable w2 w3 -> stable w1 w3.
Proof.
  intros H12 H23.
  pose proof H12
    as (Hi & Hu & Ho & Hp & Hf & Hx & Hc & Hn & Hd & new & Hs & Hnew).
  destruct H23
    as (Hi' & Hu' & Ho' & Hp' & Hf' & Hx' & Hc' & Hn' & Hd' & new' & Hs'
        & Hnew').
  unfold stable. rewrite Hi', Hu', Ho', Hp', Hf'.
  do 5 (split; [done|]). split; [auto|]. split; [lia|]. split; [lia|].
  split.
  - intros Hopen. destruct (Hd' Hopen) as [-> ->].
    apply Hd. destruct (closed (client w2)); [|done].
    rewrite Hx' in Hopen; done.
  - exists (new ++ new'). split; [by rewrite Hs', Hs, app_assoc|].
    apply Forall_app. split; [done|].
    eapply Forall_impl; [exact Hnew'|]. intros p.
    by apply posts_to_hub_stable.
Qed.

(** A change that leaves the constructed fields, the counters, the
    document, the listener and the posts alone. *)
Lemma stable_quiet (w w' : Page) :
  id (client w') = id (client w) ->
  url (client w') = url (client w) ->
  origin (client w') = origin (client w) ->
  options (client w') = options (client w) ->
  frame (client w') = frame (client w) ->
  closed (client w') = closed (client w) ->
  count (client w') = count (client w) ->
  next_timer w' = next_timer w ->
  document w' = document w ->
  listening w' = listening w ->
  sent w' = sent w ->
  stable w w'.
Proof.
  intros Hi Hu Ho Hp Hf Hx Hc Hn Hd Hl Hs. unfold stable.
  do 5 (split; [done|]). split; [by rewrite Hx|]. split; [lia|].
  split; [lia|]. split; [done|].
  exists []. by rewrite app_nil_r.
Qed.

Ltac quiet := apply stable_quiet; cbn; autorewrite with page; cbn; done.

Lemma stable_settle p s (w : Page) : stable w (settle p s w).
Proof. quiet. Qed.

Lemma stable_close (w : Page) : stable w (close w).
Proof.
  unfold close, stable.
  destruct (getElementById _ _); cbn; do 9 (split; [done|]);
    exists []; by rewrite app_nil_r.
Qed.

Lemma stable_connects_forEach err (w : Page) :
  stable w (connects_forEach err w).
Proof. quiet. Qed.

Lemma stable_on_connection d (w : Page) : stable w (on_connection d w).
Proof.
  unfold on_connection. destruct (_ && _); [|apply stable_refl]. quiet.
Qed.

Lemma stable_request_callback request_id cb response (w : Page) :
  stable w (request_callback request_id cb response w).
Proof.
  unfold request_callback, reject, resolve.
  destruct (truthyV _); [destruct (ToStringV _)|]; quiet.
Qed.

Lemma stable_on_response d (w : Page) : stable w (on_response d w).
Proof.
  unfold on_response.
  destruct (is_text d EVENT_READY); [apply stable_refl|].
  destruct (JSON_parse d) as [response|]; [|apply stable_refl].
  destruct (prop response "id") as [response_id|]; [|apply stable_refl].
  destruct (negb _); [apply stable_refl|].
  destruct (ToStringV response_id) as [request_id|]; [|apply stable_refl].
  destruct (_ !! request_id) as [cb|]; [|apply stable_refl].
  apply stable_request_callback.
Qed.

Lemma hub_frame (w : Page) (h : Element) :
  hub w = Some h -> frame (client w) = Some h.
Proof.
  unfold hub. destruct (frame (client w)) as [f|]; [|done].
  by destruct (attached f (document w)).
Qed.

Lemma stable_post (w : Page) (h : Element) (d : wire) :
  frame (client w) = Some h ->
  (d = Text EVENT_POLL
   \/ exists request_id method rest,
        d = Json (JObj (("id", JStr request_id)
                        :: ("method", JStr (action_name method)) :: rest))) ->
  stable w (hub_postMessage h d (targetOrigin (client w)) w).
Proof.
  intros Hf Hd. unfold stable. cbn. do 9 (split; [done|]).
  eexists. split; [done|]. constructor; [|done].
  split; [done|]. split; [|done]. by exists h.
Qed.

Lemma stable_fire (t : nat) (w : Page) : stable w (fire t w).
Proof.
  unfold fire. destruct (timers w !! t) as [[ms a]|]; [|apply stable_refl].
  destruct a as [|p|request_id method p]; cbn [action].
  - destruct (connected (client w)); [quiet|].
    destruct (hub w) as [h|] eqn:Hhub; [|apply stable_refl].
    apply stable_post; [by apply hub_frame | by left].
  - unfold reject. quiet.
  - cbn. destruct (_ !! request_id); unfold reject; quiet.
Qed.

Lemma stable_connect (w : Page) : stable w (connect w).2.
Proof.
  unfold connect. destruct (connected (client w)); [quiet|].
  destruct (closed (client w)); [quiet|].
  unfold stable. cbn. do 7 (split; [done|]). split; [lia|]. split; [done|].
  exists []. by rewrite app_nil_r.
Qed.

Lemma stringify_request request_id method params d :
  stringify request_id method params = Ok d ->
  exists rest,
    d = Json (JObj (("id", JStr request_id)
                    :: ("method", JStr (action_name method)) :: rest)).
Proof.
  unfold stringify. destruct (sequence _) as [fields|]; [|done].
  cbn. intros [= <-]. by eexists.
Qed.

Lemma stable__request method params (w : Page) :
  stable w (_request method params w).2.
Proof.
  unfold _request. destruct (closed (client w)); [quiet|].
  destruct (negb _); [quiet|]. cbn.
  destruct (hub _) as [h|] eqn:Hhub.
  - apply hub_frame in Hhub. cbn in Hhub.
    destruct (stringify _ method params) as [d|m] eqn:Hd; cbn.
    + apply stringify_request in Hd as [rest ->].
      unfold stable. cbn. do 6 (split; [done|]). split; [lia|].
      split; [lia|]. split; [done|].
      eexists. split; [done|]. constructor; [|done].
      split; [done|]. split; [by exists h|]. right. by eexists _, _, _.
    + unfold reject, stable. cbn. autorewrite with page. cbn.
      do 6 (split; [done|]). split; [lia|]. split; [lia|]. split; [done|].
      exists []. by rewrite app_nil_r.
  - cbn. unfold reject, stable. cbn. autorewrite with page. cbn.
    do 6 (split; [done|]). split; [lia|]. split; [lia|]. split; [done|].
    exists []. by rewrite app_nil_r.
Qed.

Lemma stable_watch watcher (w : Page) : stable w (watch watcher w).
Proof. unfold watch. quiet. Qed.

Lemma stable_unsubscribe watcher (w : Page) :
  stable w (unsubscribe watcher w).
Proof.
  unfold unsubscribe. destruct (indexOf _ _); [quiet | apply stable_refl].
Qed.

(** What a watcher does through the public methods is within what a run
    keeps. *)
Lemma stable_call (c : Call) (w : Page) : stable w (call c w).
Proof.
  destruct c; cbn [call].
  - apply stable_connect.
  - apply stable__request.
  - apply stable_watch.
  - apply stable_unsubscribe.
  - apply stable_close.
Qed.

Lemma stable_invoke (fns : Handlers) watcher changeKey (w : Page) :
  stable w (invoke fns watcher changeKey w).1.
Proof.
  unfold invoke. cbn [fst].
  generalize (calls (fns watcher changeKey w)). intros cs.
  assert (stable w (log (InvokeWatcher watcher changeKey) w)) as Hlog by quiet.
  revert Hlog. generalize (log (InvokeWatcher watcher changeKey) w).
  induction cs as [|c cs IH]; intros w0 Hw0; [done|].
  cbn [foldl]. apply IH.
  eapply stable_trans; [exact Hw0 | apply stable_call].
Qed.

Lemma stable_watchers_forEach (fns : Handlers) changeKey n k (w : Page) :
  stable w (watchers_forEach fns changeKey n k w).1.
Proof.
  revert k w. induction n as [|n IH]; intros k w; [apply stable_refl|].
  rewrite watchers_forEach_S.
  destruct (_watchers (client w) !! k) as [watcher|]; [|apply IH].
  pose proof (stable_invoke fns watcher changeKey w) as Hinvoke.
  destruct (invoke fns watcher changeKey w) as [w1 [|]]; [done|].
  eapply stable_trans; [exact Hinvoke | apply IH].
Qed.

Lemma stable_on_change (fns : Handlers) d (w : Page) :
  stable w (on_change fns d w).1.
Proof.
  unfold on_change. destruct d as [t|j]; [|apply stable_refl].
  destruct (_ && _); [|apply stable_refl]. apply stable_watchers_forEach.
Qed.

Lemma stable__onListener (fns : Handlers) (message : MessageEvent)
  (w : Page) :
  stable w (_onListener fns message w).
Proof.
  rewrite _onListener_stages.
  destruct (_ || _); [apply stable_refl|].
  destruct (negb (String.eqb _ _)); [apply stable_refl|].
  destruct (is_text _ EVENT_UNAVAILABLE).
  - eapply stable_trans; [|apply stable_connects_forEach].
    destruct (negb _); [apply stable_close | apply stable_refl].
  - pose proof (stable_on_change
                  fns (message_data message)
                  (on_connection (message_data message) w)) as Hchange.
    destruct (on_change _ _ _) as [w2 thrown]. cbn [fst] in Hchange.
    assert (stable w w2) as Hw2
      by (eapply stable_trans; [apply stable_on_connection | exact Hchange]).
    destruct thrown; [done|].
    eapply stable_trans; [exact Hw2 | apply stable_on_response].
Qed.

Lemma stable_step (fns : Handlers) (e : Event) (w : Page) :
  stable w (step fns e w).
Proof.
  destruct e; cbn [step].
  - unfold receive. destruct (listening w);
      [apply stable__onListener | apply stable_refl].
  - apply stable_fire.
  - apply stable_connect.
  - apply stable__request.
  - apply stable_watch.
  - apply stable_unsubscribe.
  - apply stable_close.
Qed.

Lemma stable_run (fns : Handlers) (es : list Event) (w : Page) :
  stable w (run fns es w).
Proof.
  unfold run. revert w. induction es as [|e es IH]; intros w;
    [apply stable_refl|].
  cbn. eapply stable_trans; [apply stable_step | apply IH].
Qed.

(** *** Closing, at any time *)

(** [close()] on the page the constructor leaves. *)
Lemma close_constructed (uuid url' org : string)
  (opts : CrossStorageClientOptions) (d : list Element) :
  let w := constructor uuid url' org opts d in
  listening w = true
  /\ (forall i f,
        options_frameId opts = Some i -> getElementById i d = Some f ->
        frame (client w) = Some f
        /\ document w = d
        /\ document (close w) = remove f d
        /\ attached f (document (close w)) = false)
  /\ (frameId (client w) <> "" ->
      getElementById (frameId (client w)) d = None ->
      exists f,
        frame (client w) = Some f
        /\ document w = d ++ [f]
        /\ document (close w) = d)
  /\ (frameId (client w) = "" ->
      exists f,
        frame (client w) = Some f
        /\ element_id f = ""
        /\ document w = d ++ [f]
        /\ document (close w) = d ++ [f]).
Proof.
  intros w. subst w.
  assert (listening (constructor uuid url' org opts d) = true) as Hl.
  { unfold constructor.
    destruct (match options_frameId opts with
              | Some i => if String.eqb i "" then None else getElementById i d
              | None => None
              end); done. }
  split; [done|]. split; [|split].
  - intros i f Hopt Hget.
    rewrite (constructor_adopts _ _ _ _ _ _ _ Hopt Hget).
    unfold close, frameId. cbn. rewrite Hopt, Hget. cbn.
    do 3 (split; [done|]). apply remove_detaches.
  - rewrite constructor_frameId. intros Hid Hnone.
    rewrite (constructor_creates _ _ _ _ _ Hnone).
    eexists. split; [done|]. split; [done|].
    unfold close, frameId, getElementById in *. cbn.
    apply String.eqb_neq in Hid. rewrite Hid in *.
    rewrite (find_appended _ _ _ Hnone) by apply String.eqb_refl.
    cbn.
    exact (remove_appended (MkElement (fresh_node d) _ url') d
                           (fresh_node_above d)).
  - rewrite constructor_frameId. intros Hid.
    rewrite constructor_creates by (by rewrite Hid).
    rewrite Hid. eexists. split; [done|]. split; [done|]. split; [done|].
    unfold close, frameId. cbn.
    destruct (options_frameId opts) as [i|]; [|done].
    by rewrite Hid.
Qed.

(** [close()] looks at the frame id and at the document only. *)
Lemma close_document (w w' : Page) :
  id (client w') = id (client w) ->
  options (client w') = options (client w) ->
  document w' = document w ->
  document (close w') = document (close w).
Proof.
  intros Hid Hopt Hdoc. unfold close, frameId. rewrite Hid, Hopt, Hdoc.
  by destruct (getElementById _ _).
Qed.

(** C2, as the code has it.  [close()] detaches the message listener and
    marks the client closed and not connected.  Called on a client that
    was not closed before, whatever happened to it since it was built, it
    removes from the document the element that [getElementById] finds
    under [frameId].  For a client built with [options.frameId] naming an
    element of the document, that is the supplied frame, which the client
    adopted without creating one; for a client that found no element
    under a frame id that is not empty, it is the frame the client
    created.  When the frame id is the empty string, the client creates a
    frame without an id, which [close()] does not find: that frame stays
    in the document. *)
Theorem close_removes_frame_named_by_frameId :
  forall (fns : Handlers) (uuid url' org : string)
         (opts : CrossStorageClientOptions) (d : list Element)
         (es : list Event),
    let w := run fns es (constructor uuid url' org opts d) in
    listening (close w) = false
    /\ closed (client (close w)) = true
    /\ connected (client (close w)) = false
    /\ (closed (client w) = false ->
        listening w = true
        /\ (forall i f,
              options_frameId opts = Some i -> getElementById i d = Some f ->
              frame (client w) = Some f
              /\ document w = d
              /\ document (close w) = remove f d
              /\ attached f (document (close w)) = false)
        /\ (frameId (client w) <> "" ->
            getElementById (frameId (client w)) d = None ->
            exists f,
              frame (client w) = Some f
              /\ document w = d ++ [f]
              /\ document (close w) = d)
        /\ (frameId (client w) = "" ->
            exists f,
              frame (client w) = Some f
              /\ element_id f = ""
              /\ document w = d ++ [f]
              /\ document (close w) = d ++ [f])).
Proof.
  intros fns uuid url' org opts d es w.
  assert (listening (close w) = false
          /\ closed (client (close w)) = true
          /\ connected (client (close w)) = false) as (Hl & Hc & Hn).
  { unfold close. by destruct (getElementById _ _). }
  do 3 (split; [done|]). intros Hopen.
  set (w0 := constructor uuid url' org opts d) in *.
  destruct (stable_run fns es w0)
    as (Hi & _ & _ & Ho & Hf & _ & _ & _ & Hd & _).
  fold w in Hi, Ho, Hf, Hd. destruct (Hd Hopen) as [Hdoc Hlisten].
  pose proof (close_document w0 w Hi Ho Hdoc) as Hclose.
  assert (frameId (client w) = frameId (client w0)) as Hfid
    by (unfold frameId; by rewrite Hi, Ho).
  destruct (close_constructed uuid url' org opts d)
    as (Hl0 & Hsupplied & Hcreated & Hempty).
  fold w0 in Hl0, Hsupplied, Hcreated, Hempty.
  rewrite Hlisten, Hf, Hdoc, Hclose, Hfid.
  by split.
Qed.

Lemma close_supplied_frame_witness :
  let ready := Message "https://hub.example" (Text EVENT_READY) (Other 1) in
  let d := [MkElement 1 "banner" "";
            MkElement 2 "hub" "https://hub.example/hub.html"] in
  let w := run idle
               [Connect; Receive ready;
                Request GET [("key", Serialized (JStr "k"))]; Watch 1]
               (constructor "u" "https://hub.example/hub.html"
                            "https://hub.example" (Options (Some "hub") None)
                            d) in
  listening (close w) = false
  /\ closed (client (close w)) = true
  /\ document (close w) = [MkElement 1 "banner" ""].
Proof.
  intros ready d w.
  destruct (close_removes_frame_named_by_frameId
              idle "u" "https://hub.example/hub.html" "https://hub.example"
              (Options (Some "hub") None) d
              [Connect; Receive ready;
               Request GET [("key", Serialized (JStr "k"))]; Watch 1])
    as (Hlisten & Hclosed & _ & Hopen).
  destruct (Hopen eq_refl) as (_ & Hsupplied & _).
  destruct (Hsupplied "hub" (MkElement 2 "hub" "https://hub.example/hub.html")
                      eq_refl eq_refl) as (_ & _ & Hdoc & _).
  split; [exact Hlisten|]. split; [exact Hclosed|]. exact Hdoc.
Defined.

(** C2 fails as stated: a frame that was in the document before the client
    was built, and that the client was given by its id, is removed from
    the document by [close()]. *)
Lemma close_removes_supplied_frame :
  let hub_frame := MkElement 2 "hub" "https://hub.example/hub.html" in
  let d := [MkElement 1 "banner" ""; hub_frame] in
  let w := constructor "u" "https://hub.example/hub.html"
                       "https://hub.example" (Options (Some "hub") None) d in
  document w = d
  /\ frame (client w) = Some hub_frame
  /\ attached hub_frame (document w) = true
  /\ attached hub_frame (document (close w)) = false.
Proof. done. Qed.

(** Whatever happens to a client, the identity it was built with (its
    id, the hub's url and origin, its options and its frame) stays the
    same, the request counter never goes back, and everything it posts
    goes to the window of its own frame, addressed to the hub's origin
    (or to ["*"] when that origin is [file://]), and is the poll signal or
    a request carrying an id and a method. *)
Theorem client_posts_only_to_its_hub :
  forall (fns : Handlers) (es : list Event) (w : Page),
    id (client (run fns es w)) = id (client w)
    /\ origin (client (run fns es w)) = origin (client w)
    /\ frame (client (run fns es w)) = frame (client w)
    /\ count (client w) <= count (client (run fns es w))
    /\ exists new,
         sent (run fns es w) = sent w ++ new
         /\ Forall
              (fun p =>
                 Js.targetOrigin p
                 = (if String.eqb (origin (client w)) "file://"
                    then "*" else origin (client w))
                 /\ (exists f, frame (client w) = Some f
                               /\ target p = Other (node f))
                 /\ (data p = Text EVENT_POLL
                     \/ exists request_id method rest,
                          data p
                          = Json (JObj (("id", JStr request_id)
                                        :: ("method",
                                            JStr (action_name method))
                                        :: rest))))
              new.
Proof.
  intros fns es w.
  destruct (stable_run fns es w)
    as (Hi & _ & Ho & _ & Hf & _ & Hc & _ & _ & Hsent).
  by do 4 (split; [done|]).
Qed.

Lemma consistent_shrink (w w' : Page) :
  id (client w') = id (client w) ->
  options (client w') = options (client w) ->
  (closed (client w') = true -> connected (client w') = false) ->
  count (client w) <= count (client w') ->
  next_timer w <= next_timer w' ->
  (forall request_id cb,
      _requests (client w') !! request_id = Some cb ->
      _requests (client w) !! request_id = Some cb) ->
  (forall cb, cb ∈ _connects (client w') -> cb ∈ _connects (client w)) ->
  (forall t, timers w' !! t = None \/ timers w' !! t = timers w !! t) ->
  (forall request_id cb,
      _requests (client w') !! request_id = Some cb ->
      timers w' !! request_timer cb = timers w !! request_timer cb) ->
  consistent w -> consistent w'.
Proof.
  intros Hid Hopt Hflags Hcount Hnext Hreq Hcon Htim Hlive
         (C1 & C2 & C3 & C4 & C5).
  unfold consistent. split; [done|]. split; [|split; [|split]].
  - intros t tm Ht. destruct (Htim t) as [Hn|He]; [congruence|].
    rewrite He in Ht. apply C2 in Ht. lia.
  - intros request_id cb Hcb. rewrite (Hlive _ _ Hcb).
    unfold timeout. rewrite Hopt. by apply C3, Hreq.
  - intros cb Hin. destruct (C4 cb (Hcon cb Hin)) as [Hlt Hnot].
    split; [lia|]. intros ms request_id method p.
    destruct (Htim (connect_timer cb)) as [-> | ->]; [done | apply Hnot].
  - intros request_id [cb Hcb]. destruct (C5 request_id) as (n & Hn & ->).
    { exists cb. by apply Hreq. }
    exists n. split; [lia | by rewrite Hid].
Qed.

(** A change that touches neither the flags, the pending requests and
    connects, nor the timers. *)
Lemma consistent_same (w w' : Page) :
  id (client w') = id (client w) ->
  options (client w') = options (client w) ->
  connected (client w') = connected (client w) ->
  closed (client w') = closed (client w) ->
  count (client w') = count (client w) ->
  _requests (client w') = _requests (client w) ->
  _connects (client w') = _connects (client w) ->
  timers w' = timers w ->
  next_timer w' = next_timer w ->
  consistent w -> consistent w'.
Proof.
  intros Hid Hopt Hconn Hclosed Hcount Hreq Hcon Htim Hnext Hw.
  apply (consistent_shrink w); try done.
  - rewrite Hconn, Hclosed. apply Hw.
  - lia.
  - lia.
  - intros ??. by rewrite Hreq.
  - intros ?. by rewrite Hcon.
  - intros t. right. by rewrite Htim.
  - intros ???. by rewrite Htim.
Qed.

Ltac same :=
  apply consistent_same; cbn; autorewrite with page; cbn; done.

Lemma consistent_settle p s (w : Page) :
  consistent w -> consistent (settle p s w).
Proof. same. Qed.

(** Removing a timer that no pending request owns, and any pending
    request but those with another timer. *)
Lemma consistent_clear (t : nat) (w w' : Page) :
  id (client w') = id (client w) ->
  options (client w') = options (client w) ->
  connected (client w') = connected (client w) ->
  closed (client w') = closed (client w) ->
  count (client w') = count (client w) ->
  _connects (client w') = _connects (client w) ->
  next_timer w' = next_timer w ->
  timers w' = delete t (timers w) ->
  (forall request_id cb,
      _requests (client w') !! request_id = Some cb ->
      _requests (client w) !! request_id = Some cb
      /\ request_timer cb <> t) ->
  consistent w -> consistent w'.
Proof.
  intros Hid Hopt Hconn Hclosed Hcount Hcon Hnext Htim Hreq Hw.
  apply (consistent_shrink w); try done.
  - rewrite Hconn, Hclosed. apply Hw.
  - lia.
  - lia.
  - intros ?? H. by apply Hreq in H as [? _].
  - intros ?. by rewrite Hcon.
  - intros t'. rewrite Htim. destruct (decide (t' = t)) as [->|Hne].
    + left. apply lookup_delete_eq.
    + right. by apply lookup_delete_ne.
  - intros ?? H. apply Hreq in H as [_ Hne]. rewrite Htim.
    by apply lookup_delete_ne.
Qed.

Lemma consistent_close (w : Page) : consistent w -> consistent (close w).
Proof.
  intros Hw. apply (consistent_shrink w); try done;
    unfold close; destruct (getElementById _ _); cbn; try done; try lia;
    try (intros; by right).
Qed.

Lemma request_timer_not_connect_timer (w : Page) request_id cb cb0 :
  consistent w ->
  _requests (client w) !! request_id = Some cb ->
  cb0 ∈ _connects (client w) ->
  request_timer cb <> connect_timer cb0.
Proof.
  intros (_ & _ & C3 & C4 & _) Hcb Hin Heq.
  destruct (C3 _ _ Hcb) as (method & Ht).
  destruct (C4 _ Hin) as [_ Hnot]. rewrite Heq in Ht. by apply Hnot in Ht.
Qed.

Lemma consistent_connects_forEach err (w : Page) :
  consistent w -> consistent (connects_forEach err w).
Proof.
  intros Hw. apply (consistent_shrink w);
    rewrite ?client_connects_forEach, ?next_timer_connects_forEach;
    try done; try apply Hw.
  - intros t. rewrite timers_connects_forEach.
    destruct (bool_decide _); [by left | by right].
  - intros request_id cb Hcb. rewrite timers_connects_forEach.
    rewrite bool_decide_eq_false_2; [done|].
    intros (cb0 & Heq & Hin)%list_elem_of_fmap.
    by eapply request_timer_not_connect_timer.
Qed.

Lemma consistent_on_connection d (w : Page) :
  closed (client w) = false ->
  consistent w ->
  consistent (on_connection d w)
  /\ closed (client (on_connection d w)) = false.
Proof.
  intros Hclosed Hw. unfold on_connection.
  destruct (_ && _); [|done].
  split; [|cbn; by rewrite client_connects_forEach].
  assert (consistent (with_client (set_connected true) w)) as Hw0.
  { apply (consistent_shrink w); cbn; try done; try apply Hw.
    - by rewrite Hclosed.
    - intros; by right. }
  apply (consistent_connects_forEach None) in Hw0.
  apply (consistent_shrink
           (connects_forEach None (with_client (set_connected true) w)));
    cbn; try done.
  - rewrite client_connects_forEach. cbn. by rewrite Hclosed.
  - intros cb Hin. by apply elem_of_nil in Hin.
  - intros; by right.
Qed.

Lemma consistent_forget (request_id : string) (t : nat) (w : Page) :
  consistent w ->
  (exists ms method p,
      timers w !! t = Some (MkTimer ms (RequestTimeout request_id method p))) ->
  consistent
    (with_client (fun c => set_requests (delete request_id (_requests c)) c)
                 (clearTimer t w)).
Proof.
  intros Hw (ms & method & p & Ht). apply (consistent_clear t w); cbn; try done.
  intros request_id' cb' [Hne Hcb']%lookup_delete_Some.
  split; [done|]. intros <-.
  destruct Hw as (_ & _ & C3 & _). destruct (C3 _ _ Hcb') as (method' & Ht').
  rewrite Ht in Ht'. by injection Ht' as _ ? _.
Qed.

Lemma consistent_request_callback request_id cb response (w : Page) :
  consistent w ->
  _requests (client w) !! request_id = Some cb ->
  consistent (request_callback request_id cb response w).
Proof.
  intros Hw Hcb. pose proof Hw as (_ & _ & C3 & _).
  destruct (C3 _ _ Hcb) as (method & Ht).
  assert (consistent
            (with_client
               (fun c => set_requests (delete request_id (_requests c)) c)
               (clearTimer (request_timer cb)
                           (log (InvokeRequest request_id cb) w)))) as Hw'.
  { assert (consistent (log (InvokeRequest request_id cb) w)) as Hlog
      by (revert Hw; same).
    apply (consistent_forget request_id); [done|]. by eexists _, _, _. }
  unfold request_callback, reject, resolve.
  destruct (truthyV _); [destruct (ToStringV _)|];
    try done; by apply consistent_settle.
Qed.

Lemma consistent_on_response d (w : Page) :
  consistent w -> consistent (on_response d w).
Proof.
  intros Hw. unfold on_response.
  destruct (is_text d EVENT_READY); [done|].
  destruct (JSON_parse d) as [response|]; [|done].
  destruct (prop response "id") as [response_id|]; [|done].
  destruct (negb _); [done|].
  destruct (ToStringV response_id) as [request_id|]; [|done].
  destruct (_ !! request_id) as [cb|] eqn:Hcb; [|done].
  by apply consistent_request_callback.
Qed.

Lemma consistent_fire (t : nat) (w : Page) :
  consistent w -> consistent (fire t w).
Proof.
  intros Hw. unfold fire.
  destruct (timers w !! t) as [[ms a]|] eqn:Ht; [|done].
  pose proof Hw as (_ & _ & C3 & _).
  assert (forall request_id cb,
            _requests (client w) !! request_id = Some cb ->
            (forall method p, a <> RequestTimeout request_id method p) ->
            request_timer cb <> t) as Hother.
  { intros request_id cb Hcb Ha <-.
    destruct (C3 _ _ Hcb) as (method & Ht'). rewrite Ht in Ht'.
    injection Ht' as _ ->. by eapply Ha. }
  destruct a as [|p|request_id method p]; cbn [action].
  - destruct (connected (client w)).
    + apply (consistent_clear t w); cbn; try done.
      intros request_id cb Hcb. split; [done|]. by eapply Hother.
    + destruct (hub w); [|done]. revert Hw. same.
  - unfold reject. apply consistent_settle.
    apply (consistent_clear t w); cbn; try done.
    intros request_id cb Hcb. split; [done|]. by eapply Hother.
  - cbn. destruct (_requests (client w) !! request_id) as [cb|] eqn:Hcb.
    + unfold reject. apply consistent_settle.
      apply (consistent_forget request_id); [done|]. by eexists _, _, _.
    + apply (consistent_clear t w); cbn; try done.
      intros request_id' cb' Hcb'. split; [done|].
      eapply Hother; [done|]. intros method' p' [= <- _ _]. congruence.
Qed.

Lemma consistent_connect (w : Page) :
  consistent w -> consistent (connect w).2.
Proof.
  intros Hw. unfold connect.
  destruct (connected (client w)); [revert Hw; same|].
  destruct (closed (client w)) eqn:Hclosed; [revert Hw; same|].
  destruct Hw as (C1 & C2 & C3 & C4 & C5). unfold consistent. cbn.
  split; [by rewrite Hclosed|]. split; [|split; [|split]].
  - intros t tm [[<- _] | [_ Ht]]%lookup_insert_Some; [lia|].
    apply C2 in Ht. lia.
  - intros request_id cb Hcb. destruct (C3 _ _ Hcb) as (method & Ht).
    exists method. rewrite lookup_insert_ne; [done|].
    apply C2 in Ht. lia.
  - intros cb [Hin | ->%list_elem_of_singleton]%elem_of_app.
    + destruct (C4 _ Hin) as [Hlt Hnot]. split; [lia|].
      intros ms request_id method p.
      rewrite lookup_insert_ne by lia. apply Hnot.
    + cbn. split; [lia|]. intros ms request_id method p.
      by rewrite lookup_insert_eq.
  - done.
Qed.

Lemma consistent__request method params (w : Page) :
  consistent w -> consistent (_request method params w).2.
Proof.
  intros Hw. unfold _request.
  destruct (closed (client w)) eqn:Hclosed; [revert Hw; same|].
  destruct (negb _); [revert Hw; same|]. cbn.
  pose proof Hw as (C1 & C2 & C3 & C4 & C5).
  destruct (hub _) as [h|].
  - assert (consistent
              (with_client
                 (fun c =>
                    set_requests
                      (<[id (client w) +:+ ":" +:+ pretty (S (count (client w)))
                         := MkRequest (next_timer w) (length (promises w))]>
                         (_requests c)) c)
                 (MkPage (set_count (S (count (client w))) (client w))
                         (document w) (next_node w) (listening w)
                         (<[next_timer w
                            := MkTimer (timeout (client w))
                                 (RequestTimeout
                                    (id (client w) +:+ ":"
                                     +:+ pretty (S (count (client w))))
                                    method (length (promises w)))]>
                            (timers w))
                         (S (next_timer w)) (promises w ++ [None]) (sent w)
                         (invoked w)))) as Hw'.
    { unfold consistent. cbn. split; [by rewrite Hclosed|].
      split; [|split; [|split]].
      - intros t tm [[<- _] | [_ Ht]]%lookup_insert_Some; [lia|].
        apply C2 in Ht. lia.
      - intros request_id cb [[<- <-] | [Hne Hcb]]%lookup_insert_Some.
        + cbn. exists method. by rewrite lookup_insert_eq.
        + destruct (C3 _ _ Hcb) as (method' & Ht). exists method'.
          rewrite lookup_insert_ne; [done|]. apply C2 in Ht. lia.
      - intros cb Hin. destruct (C4 _ Hin) as [Hlt Hnot]. split; [lia|].
        intros ms request_id method' p.
        rewrite lookup_insert_ne by lia. apply Hnot.
      - intros request_id [cb [[<- _] | [_ Hcb]]%lookup_insert_Some].
        + by exists (S (count (client w))).
        + destruct (C5 request_id) as (n & Hn & ->); [by exists cb|].
          exists n. split; [lia | done]. }
    destruct (stringify _ method params) as [d|m]; cbn.
    + revert Hw'. same.
    + unfold reject. by apply consistent_settle.
  - unfold reject. apply consistent_settle.
    apply (consistent_shrink w); cbn; try done; try lia.
    + intros t. destruct (decide (t = next_timer w)) as [->|Hne].
      * left. apply lookup_delete_eq.
      * right. by rewrite lookup_delete_ne, lookup_insert_ne.
    + intros request_id cb Hcb. destruct (C3 _ _ Hcb) as (method' & Ht).
      apply C2 in Ht. by rewrite lookup_delete_ne, lookup_insert_ne by lia.
Qed.

Lemma consistent_watch watcher (w : Page) :
  consistent w -> consistent (watch watcher w).
Proof. unfold watch. same. Qed.

Lemma consistent_unsubscribe watcher (w : Page) :
  consistent w -> consistent (unsubscribe watcher w).
Proof.
  intros Hw. unfold unsubscribe. destruct (indexOf _ _); [|done].
  revert Hw. same.
Qed.

(** What a watcher does through the public methods keeps the
    bookkeeping consistent. *)
Lemma consistent_call (c : Call) (w : Page) :
  consistent w -> consistent (call c w).
Proof.
  intros Hw. destruct c; cbn [call].
  - by apply consistent_connect.
  - by apply consistent__request.
  - by apply consistent_watch.
  - by apply consistent_unsubscribe.
  - by apply consistent_close.
Qed.

Lemma consistent_invoke (fns : Handlers) watcher changeKey (w : Page) :
  consistent w -> consistent (invoke fns watcher changeKey w).1.
Proof.
  intros Hw. unfold invoke. cbn [fst].
  generalize (calls (fns watcher changeKey w)). intros cs.
  assert (consistent (log (InvokeWatcher watcher changeKey) w)) as Hlog
    by (revert Hw; same).
  revert Hlog. generalize (log (InvokeWatcher watcher changeKey) w).
  induction cs as [|c cs IH]; intros w0 Hw0; [done|].
  cbn [foldl]. by apply IH, consistent_call.
Qed.

Lemma consistent_watchers_forEach (fns : Handlers) changeKey n k (w : Page) :
  consistent w -> consistent (watchers_forEach fns changeKey n k w).1.
Proof.
  revert k w. induction n as [|n IH]; intros k w Hw; [done|].
  rewrite watchers_forEach_S.
  destruct (_watchers (client w) !! k) as [watcher|]; [|by apply IH].
  pose proof (consistent_invoke fns watcher changeKey w Hw) as Hinvoke.
  destruct (invoke fns watcher changeKey w) as [w1 [|]]; [done|].
  by apply IH.
Qed.

Lemma consistent_on_change (fns : Handlers) d (w : Page) :
  consistent w -> consistent (on_change fns d w).1.
Proof.
  intros Hw. unfold on_change. destruct d as [t|j]; [|done].
  destruct (_ && _); [|done]. by apply consistent_watchers_forEach.
Qed.

Lemma consistent__onListener (fns : Handlers) (message : MessageEvent)
  (w : Page) :
  consistent w -> consistent (_onListener fns message w).
Proof.
  intros Hw. rewrite _onListener_stages.
  destruct (closed (client w)) eqn:Hclosed; [done|]. cbn [orb negb].
  destruct (is_text _ ""); [done|].
  destruct (negb (String.eqb _ _)); [done|].
  destruct (is_text _ EVENT_UNAVAILABLE).
  - by apply consistent_connects_forEach, consistent_close.
  - destruct (consistent_on_connection (message_data message) w Hclosed Hw)
      as [Hw1 _].
    pose proof (consistent_on_change fns (message_data message) _ Hw1)
      as Hw2.
    destruct (on_change _ _ _) as [w2 [|]]; [done|].
    by apply consistent_on_response.
Qed.

Lemma consistent_step (fns : Handlers) (e : Event) (w : Page) :
  consistent w -> consistent (step fns e w).
Proof.
  intros Hw. destruct e; cbn [step].
  - unfold receive. destruct (listening w); [|done].
    by apply consistent__onListener.
  - by apply consistent_fire.
  - by apply consistent_connect.
  - by apply consistent__request.
  - by apply consistent_watch.
  - by apply consistent_unsubscribe.
  - by apply consistent_close.
Qed.

Lemma consistent_run (fns : Handlers) (es : list Event) (w : Page) :
  consistent w -> consistent (run fns es w).
Proof.
  unfold run. revert w. induction es as [|e es IH]; intros w Hw; [done|].
  cbn. by apply IH, consistent_step.
Qed.

Lemma consistent_constructor uuid url' org opts d :
  consistent (constructor uuid url' org opts d).
Proof.
  unfold constructor.
  destruct (match options_frameId opts with
            | Some i => if String.eqb i "" then None else getElementById i d
            | None => None
            end); unfold consistent; cbn.
  - split; [done|]. split.
    + intros t tm [[<- _] | [_ Ht]]%lookup_insert_Some; [lia | done].
    + split; [done|]. split; [|by intros ? [? ?]].
      intros cb Hin. by apply elem_of_nil in Hin.
  - split; [done|]. split; [done|]. split; [done|].
    split; [|by intros ? [? ?]].
    intros cb Hin. by apply elem_of_nil in Hin.
Qed.

Lemma run_app (fns : Handlers) (es es' : list Event) (w : Page) :
  run fns (es ++ es') w = run fns es' (run fns es w).
Proof. unfold run. apply foldl_app. Qed.

(** On every page a client can reach from its construction, each pending
    request has a live timer of its own, set to the configured timeout,
    whose firing deletes the entry: no entry can stay in the pending map
    for ever. *)
Theorem pending_request_has_live_timer :
  forall (fns : Handlers) (uuid url' org : string)
         (opts : CrossStorageClientOptions) (d : list Element)
         (es : list Event) (request_id : string) (cb : RequestCallback),
    let w := run fns es (constructor uuid url' org opts d) in
    _requests (client w) !! request_id = Some cb ->
    (exists method,
        timers w !! request_timer cb
        = Some (MkTimer (timeout (client w))
                        (RequestTimeout request_id method
                                        (request_promise cb))))
    /\ _requests (client (fire (request_timer cb) w)) !! request_id = None.
Proof.
  intros fns uuid url' org opts d es request_id cb w Hcb.
  destruct (consistent_run fns es _
              (consistent_constructor uuid url' org opts d))
    as (_ & _ & C3 & _).
  destruct (C3 _ _ Hcb) as (method & Ht). fold w in Ht.
  split; [by exists method|].
  unfold fire. rewrite Ht. cbn. rewrite Hcb. unfold reject.
  rewrite client_settle. cbn. apply lookup_delete_eq.
Qed.

Lemma pending_request_witness :
  let ready := Message "https://hub.example" (Text EVENT_READY) (Other 1) in
  let w := run idle
               [Receive ready; Request GET [("key", Serialized (JStr "k"))];
                Connect; Watch 3]
               (constructor "u" "https://hub.example/hub.html"
                            "https://hub.example" (Options None (Some 500%Z))
                            []) in
  (exists method,
      timers w !! 0 = Some (MkTimer 500 (RequestTimeout "u:1" method 0)))
  /\ _requests (client (fire 0 w)) !! "u:1" = None.
Proof.
  intros ready w.
  apply (pending_request_has_live_timer
           idle "u" "https://hub.example/hub.html" "https://hub.example"
           (Options None (Some 500%Z)) []
           [Receive ready; Request GET [("key", Serialized (JStr "k"))];
            Connect; Watch 3]
           "u:1" (MkRequest 0 0)).
  reflexivity.
Defined.

(** On every page a client can reach from its construction, the id that
    the next request will take, the client id followed by the next count,
    is not the id of a pending request: a request never displaces one
    that is still waiting for its response. *)
Theorem next_request_id_is_free :
  forall (fns : Handlers) (uuid url' org : string)
         (opts : CrossStorageClientOptions) (d : list Element)
         (es : list Event),
    let w := run fns es (constructor uuid url' org opts d) in
    _requests (client w)
      !! (id (client w) +:+ ":" +:+ pretty (S (count (client w))))
    = None.
Proof.
  intros fns uuid url' org opts d es w.
  destruct (consistent_run fns es _
              (consistent_constructor uuid url' org opts d))
    as (_ & _ & _ & _ & C5).
  fold w in C5.
  destruct (_requests (client w) !! _) as [cb|] eqn:Hcb; [|done].
  destruct (C5 _ (ex_intro _ cb Hcb)) as (n & Hn & Heq).
  apply (inj (String.app _)), (inj (String.app _)), (inj pretty) in Heq. lia.
Qed.

(** Closing is final.  On every page a client can reach from its
    construction, a closed client is not connected, stays closed and
    unconnected whatever happens next, and rejects [connect()] and every
    request at once with the closed error, without posting anything. *)
Theorem closed_client_stays_closed :
  forall (fns : Handlers) (uuid url' org : string)
         (opts : CrossStorageClientOptions) (d : list Element)
         (es : list Event),
    let w := run fns es (constructor uuid url' org opts d) in
    closed (client w) = true ->
    connected (client w) = false
    /\ (forall es',
          closed (client (run fns es' w)) = true
          /\ connected (client (run fns es' w)) = false)
    /\ promises (connect w).2 !! (connect w).1
       = Some (Some (Rejected closed_error))
    /\ (forall method params,
          promises (_request method params w).2 !! (_request method params w).1
          = Some (Some (Rejected closed_error))
          /\ sent (_request method params w).2 = sent w).
Proof.
  intros fns uuid url' org opts d es w Hclosed.
  pose proof (consistent_run fns es _
                (consistent_constructor uuid url' org opts d))
    as Hw. fold w in Hw.
  assert (connected (client w) = false) as Hconn by by apply Hw.
  split; [done|]. split; [|split].
  - intros es'.
    assert (closed (client (run fns es' w)) = true) as Hclosed'
      by by apply (stable_run fns es' w).
    split; [done|]. by apply (consistent_run fns es' w Hw).
  - unfold connect. rewrite Hconn, Hclosed. cbn.
    by rewrite lookup_app_r, Nat.sub_diag.
  - intros method params. unfold _request. rewrite Hclosed. cbn.
    by rewrite lookup_app_r, Nat.sub_diag.
Qed.

Lemma closed_client_witness :
  let w := run idle [Connect; Close]
               (constructor "u" "https://hub.example/hub.html"
                            "https://hub.example" (Options None None) []) in
  let ready := Message "https://hub.example" (Text EVENT_READY) (Other 1) in
  connected (client (run idle [Receive ready; Fire 0; Connect] w)) = false
  /\ promises (connect w).2 !! (connect w).1
     = Some (Some (Rejected closed_error)).
Proof.
  intros w ready.
  destruct (closed_client_stays_closed
              idle "u" "https://hub.example/hub.html" "https://hub.example"
              (Options None None) [] [Connect; Close] eq_refl)
    as (_ & Hlater & Hconnect & _).
  split; [apply (Hlater [Receive ready; Fire 0; Connect]) | exact Hconnect].
Defined.

(** *** The client id *)

Lemma toString16_nibble (v : N) :
  (v < 16)%N -> toString16 v = String (hex_digit v) "".
Proof.
  intros Hv. unfold toString16. cbn [toString16_go].
  rewrite N.mod_small, N.div_small by done. done.
Qed.

Lemma variant_nibble (r : N) :
  (r < 16)%N ->
  (8 <= N.lor (N.land r 3) 8 < 12)%N.
Proof.
  intros Hr.
  assert (r = 0 \/ r = 1 \/ r = 2 \/ r = 3 \/ r = 4 \/ r = 5 \/ r = 6
          \/ r = 7 \/ r = 8 \/ r = 9 \/ r = 10 \/ r = 11 \/ r = 12
          \/ r = 13 \/ r = 14 \/ r = 15)%N as Hcases by lia.
  repeat destruct Hcases as [Hcases | Hcases]; subst r; vm_compute;
    by split.
Qed.

Lemma hex_digit_is_hex (v : N) :
  (v < 16)%N ->
  hex_digit v ∈ String.list_ascii_of_string "0123456789abcdef".
Proof.
  intros Hv.
  assert (v = 0 \/ v = 1 \/ v = 2 \/ v = 3 \/ v = 4 \/ v = 5 \/ v = 6
          \/ v = 7 \/ v = 8 \/ v = 9 \/ v = 10 \/ v = 11 \/ v = 12
          \/ v = 13 \/ v = 14 \/ v = 15)%N as Hcases by lia.
  repeat destruct Hcases as [Hcases | Hcases]; subst v; cbn;
    repeat first [by left | right].
Qed.

(** Whatever the random numbers (each below 16, as [Math.random() * 16 | 0]
    is), the id is a version 4 UUID in text form: 36 characters, hyphens at
    the four usual places and hexadecimal digits elsewhere, the version
    digit [4], and a variant digit among [8], [9], [a], [b]. *)
Theorem uuid_is_version_4 :
  forall (random : nat -> N),
    (forall i, (random i < 16)%N) ->
    String.length (uuid random) = 36
    /\ (forall i, i ∈ [8; 13; 18; 23] ->
          String.get i (uuid random) = Some "-"%char)
    /\ (forall i c, i ∉ [8; 13; 18; 23] ->
          String.get i (uuid random) = Some c ->
          c ∈ String.list_ascii_of_string "0123456789abcdef")
    /\ String.get 14 (uuid random) = Some "4"%char
    /\ (exists c, String.get 19 (uuid random) = Some c
                  /\ c ∈ String.list_ascii_of_string "89ab").
Proof.
  intros random Hrandom. unfold uuid. cbn [replace_xy Ascii.eqb Bool.eqb].
  pose proof (fun r H => proj2 (variant_nibble r H)) as Hvariant.
  assert (N.lor (N.land (random 15%nat) 3) 8 < 16)%N as Hy
    by (specialize (Hvariant _ (Hrandom 15%nat)); lia).
  rewrite !toString16_nibble by done.
  cbv [String.append].
  split; [done|]. split; [|split; [|split; [done|]]].
  - intros i Hi. repeat (apply elem_of_cons in Hi as [-> | Hi]; [done|]).
    by apply elem_of_nil in Hi.
  - intros i c Hi.
    do 36 (destruct i as [|i];
           [cbn; intros [= <-];
            first [ apply hex_digit_is_hex; first [apply Hrandom | exact Hy]
                  | by (exfalso; apply Hi; repeat first [by left | right])
                  | by repeat first [by left | right] ]|]).
    done.
  - eexists. split; [done|].
    pose proof (variant_nibble _ (Hrandom 15%nat)) as [Hlo Hhi].
    assert (N.lor (N.land (random 15%nat) 3) 8 = 8
            \/ N.lor (N.land (random 15%nat) 3) 8 = 9
            \/ N.lor (N.land (random 15%nat) 3) 8 = 10
            \/ N.lor (N.land (random 15%nat) 3) 8 = 11)%N
      as [-> | [-> | [-> | ->]]] by lia;
      cbn; repeat first [by left | right].
Qed.

Lemma uuid_witness :
  String.length (uuid (fun i => N.of_nat (i mod 16))) = 36
  /\ String.get 14 (uuid (fun i => N.of_nat (i mod 16))) = Some "4"%char.
Proof.
  assert (forall i, (N.of_nat (i mod 16) < 16)%N) as Hrandom.
  { intros i. pose proof (Nat.mod_upper_bound i 16). lia. }
  destruct (uuid_is_version_4 (fun i => N.of_nat (i mod 16)) Hrandom)
    as (Hlen & _ & _ & Hversion & _).
  split; [exact Hlen | exact Hversion].
Defined.

(** *** One request, step by step *)

Lemma request_id_truthy (i n : string) :
  String.eqb (i +:+ ":" +:+ n) "" = false.
Proof. by destruct i. Qed.

(** A request on a connected client with a hub window: the page after it. *)
Lemma _request_sends (method : CrossStorageAction)
  (params : list (string * any)) (w : Page) (f : Element) (d : wire) :
  closed (client w) = false ->
  connected (client w) = true ->
  hub w = Some f ->
  stringify (id (client w) +:+ ":" +:+ pretty (S (count (client w))))
            method params = Ok d ->
  _request method params w
  = (length (promises w),
     MkPage
       (set_requests
          (<[id (client w) +:+ ":" +:+ pretty (S (count (client w)))
             := MkRequest (next_timer w) (length (promises w))]>
             (_requests (client w)))
          (set_count (S (count (client w))) (client w)))
       (document w) (next_node w) (listening w)
       (<[next_timer w
          := MkTimer (timeout (client w))
               (RequestTimeout
                  (id (client w) +:+ ":" +:+ pretty (S (count (client w))))
                  method (length (promises w)))]> (timers w))
       (S (next_timer w)) (promises w ++ [None])
       (sent w ++ [Post (Other (node f)) d (targetOrigin (client w))])
       (invoked w)).
Proof.
  intros Hclosed Hconn Hhub Hd. unfold _request. rewrite Hclosed, Hconn.
  cbn [negb]. unfold hub in *. cbn. rewrite Hhub. cbn. by rewrite Hd.
Qed.

(** A response for a pending request, on a page that listens: what it
    settles and what it clears. *)
Lemma receive_response (fns : Handlers) (w : Page) (org : string)
  (source : window) (response : json) (request_id : string)
  (cb : RequestCallback) :
  listening w = true ->
  closed (client w) = false ->
  (if String.eqb org "null" then "file://" else org) = origin (client w) ->
  field response "id" = Some (JStr request_id) ->
  String.eqb request_id "" = false ->
  _requests (client w) !! request_id = Some cb ->
  promises w !! request_promise cb = Some None ->
  let w' := receive fns (Message org (Json response) source) w in
  _requests (client w') = delete request_id (_requests (client w))
  /\ timers w' = delete (request_timer cb) (timers w)
  /\ promises w' !! request_promise cb
     = (if truthyV (field response "error")
        then match ToStringV (field response "error") with
             | Ok m => Some (Some (Rejected m))
             | Throw _ => Some None
             end
        else Some (Some (Resolved (field response "result"))))
  /\ listening w' = true
  /\ closed (client w') = false
  /\ connected (client w') = connected (client w)
  /\ hub w' = hub w
  /\ id (client w') = id (client w)
  /\ origin (client w') = origin (client w)
  /\ count (client w') = count (client w)
  /\ length (promises w') = length (promises w)
  /\ sent w' = sent w.
Proof.
  intros Hlisten Hclosed Horigin Hid Hne Hcb Hp w'. subst w'.
  unfold receive. rewrite Hlisten.
  rewrite (_onListener_json _ _ response) by done.
  cbn [message_origin]. rewrite Hclosed, Horigin, String.eqb_refl.
  cbn [negb]. unfold prop. destruct response; try discriminate Hid.
  rewrite Hid. cbn [truthyV truthy ToStringV ToString]. rewrite Hne.
  cbn [negb]. rewrite Hcb. unfold request_callback, reject, resolve, hub.
  destruct (truthyV _); [destruct (ToStringV _)|];
    rewrite ?settle_pending by done;
    rewrite ?client_settle, ?timers_settle, ?sent_settle, ?document_settle;
    unfold settle; cbn; rewrite ?Hp; cbn;
    rewrite ?length_insert; done.
Qed.

Lemma getElementById_attached (i : string) (d : list Element) (f : Element) :
  getElementById i d = Some f -> attached f d = true.
Proof.
  unfold getElementById, attached. destruct (String.eqb i ""); [done|].
  intros Hfind. apply find_some in Hfind as [Hin _].
  apply existsb_exists. exists f. split; [done | apply Nat.eqb_refl].
Qed.

End ClientProperties.

(** ** Properties of the client and the hub together *)

Module ProtocolProperties.
Import Js.

(** One exchange: a request leaves a connected client, the hub handles
    it, and the reply comes back to the client.  [corg] is the origin of
    the client's document as the hub sees it, [horg] the origin of the hub
    as the client sees it. *)
Lemma exchange (fns : CrossStorageClient.Handlers)
  (w : CrossStorageClient.Page) (h : CrossStorageHub.Hub)
  (f : CrossStorageClient.Element) (method : CrossStorageAction)
  (params : list (string * CrossStorageClient.any)) (d : wire)
  (corg horg : string) (src src' : window) :
  let request_id :=
    CrossStorageClient.id (CrossStorageClient.client w) +:+ ":"
    +:+ pretty (S (CrossStorageClient.count (CrossStorageClient.client w))) in
  let p := length (CrossStorageClient.promises w) in
  let w1 := (CrossStorageClient._request method params w).2 in
  let h1 := CrossStorageHub._onListener (Message corg d src) h in
  CrossStorageClient.listening w = true ->
  CrossStorageClient.closed (CrossStorageClient.client w) = false ->
  CrossStorageClient.connected (CrossStorageClient.client w) = true ->
  CrossStorageClient.hub w = Some f ->
  CrossStorageClient.stringify request_id method params = Ok d ->
  corg <> "null" ->
  (if String.eqb horg "null" then "file://" else horg)
  = CrossStorageClient.origin (CrossStorageClient.client w) ->
  exists request reply,
    d = Json request
    /\ (CrossStorageClient._request method params w).1 = p
    /\ CrossStorageClient.sent w1
       = CrossStorageClient.sent w
         ++ [Post (Other (CrossStorageClient.node f)) d
                  (CrossStorageClient.targetOrigin
                     (CrossStorageClient.client w))]
    /\ CrossStorageHub.posted h1
       = CrossStorageHub.posted h
         ++ [Post Parent reply
                  (if String.eqb corg "file://" then "*" else corg)]
    /\ CrossStorageHub.permissions h1 = CrossStorageHub.permissions h
    /\ let w2 := CrossStorageClient.receive fns (Message horg reply src') w1 in
       (if CrossStorageHub._permitted (CrossStorageHub.permissions h) corg
                                      method
        then
          match CrossStorageHub.execute (CrossStorageHub.quota h) method
                                        request (CrossStorageHub.storage h)
          with
          | (Ok res, st) =>
              CrossStorageHub.storage h1 = st
              /\ CrossStorageClient.promises w2 !! p
                 = Some (Some (CrossStorageClient.Resolved res))
          | (Throw m, st) =>
              CrossStorageHub.storage h1 = st
              /\ CrossStorageClient.promises w2 !! p
                 = Some (Some (CrossStorageClient.Rejected m))
          end
        else
          CrossStorageHub.storage h1 = CrossStorageHub.storage h
          /\ CrossStorageClient.promises w2 !! p
             = Some (Some (CrossStorageClient.Rejected
                             ("Invalid permissions for "
                              +:+ action_name method))))
       /\ CrossStorageClient._requests (CrossStorageClient.client w2)
            !! request_id = None
       /\ CrossStorageClient.listening w2 = true
       /\ CrossStorageClient.closed (CrossStorageClient.client w2) = false
       /\ CrossStorageClient.connected (CrossStorageClient.client w2) = true
       /\ CrossStorageClient.hub w2 = Some f
       /\ CrossStorageClient.id (CrossStorageClient.client w2)
          = CrossStorageClient.id (CrossStorageClient.client w)
       /\ CrossStorageClient.origin (CrossStorageClient.client w2)
          = CrossStorageClient.origin (CrossStorageClient.client w)
       /\ CrossStorageClient.count (CrossStorageClient.client w2)
          = S (CrossStorageClient.count (CrossStorageClient.client w))
       /\ length (CrossStorageClient.promises w2) = S p.
Proof.
  intros request_id p w1 h1 Hlisten Hclosed Hconn Hhub Hd Hcorg Hhorg.
  pose proof (ClientProperties._request_sends method params w f d
                Hclosed Hconn Hhub Hd) as Hsend.
  fold request_id p in Hsend.
  destruct (ClientProperties.stringify_request _ _ _ _ Hd) as [rest ->].
  set (request := JObj (("id", JStr request_id)
                        :: ("method", JStr (action_name method)) :: rest)).
  assert (CrossStorageHub.hub_origin (Message corg (Json request) src) = corg)
    as Hhub_origin.
  { unfold CrossStorageHub.hub_origin. cbn.
    apply String.eqb_neq in Hcorg. by rewrite Hcorg. }
  assert (truthy (JStr request_id) = true) as Htruthy
    by (cbn [truthy]; unfold request_id;
        by rewrite ClientProperties.request_id_truthy).
  assert (action_name method <> "") as Hname by by destruct method.
  pose proof (HubProperties._onListener_request
                h (Message corg (Json request) src) request (JStr request_id)
                (action_name method) eq_refl eq_refl Htruthy eq_refl Hname)
    as Hh1.
  rewrite HubProperties.allowedMethods_has_name, Hhub_origin in Hh1.
  change (CrossStorageHub._onListener _ h) with h1 in Hh1.
  assert (forall error res,
            (forall e, error = Some e -> String.eqb e "" = false) ->
            let w2 :=
              CrossStorageClient.receive fns
                (Message horg (CrossStorageHub.response request error res)
                         src') w1 in
            CrossStorageClient.promises w2 !! p
            = Some (Some (match error with
                          | Some e => CrossStorageClient.Rejected e
                          | None => CrossStorageClient.Resolved res
                          end))
            /\ CrossStorageClient._requests (CrossStorageClient.client w2)
                 !! request_id = None
            /\ CrossStorageClient.listening w2 = true
            /\ CrossStorageClient.closed (CrossStorageClient.client w2)
               = false
            /\ CrossStorageClient.connected (CrossStorageClient.client w2)
               = true
            /\ CrossStorageClient.hub w2 = Some f
            /\ CrossStorageClient.id (CrossStorageClient.client w2)
               = CrossStorageClient.id (CrossStorageClient.client w)
            /\ CrossStorageClient.origin (CrossStorageClient.client w2)
               = CrossStorageClient.origin (CrossStorageClient.client w)
            /\ CrossStorageClient.count (CrossStorageClient.client w2)
               = S (CrossStorageClient.count (CrossStorageClient.client w))
            /\ length (CrossStorageClient.promises w2) = S p) as Hclient.
  { intros error res Herror w2. subst w2 w1. rewrite Hsend. cbn [snd].
    match goal with
    | |- context [CrossStorageClient.receive fns ?m ?w0] =>
        destruct (ClientProperties.receive_response
                    fns w0 horg src'
                    (JObj (("id", JStr request_id)
                           :: ("method", JStr (action_name method))
                           :: literal [("error", JStr <$> error);
                                       ("result", res)]))
                    request_id
                    (CrossStorageClient.MkRequest
                       (CrossStorageClient.next_timer w) p))
          as (Hreq & _ & Hp & Hl & Hc & Hco & Hh & Hi & Ho & Hn & Hlen & _)
    end; try done.
    - unfold request_id. apply ClientProperties.request_id_truthy.
    - cbn. apply lookup_insert_eq.
    - cbn. by rewrite lookup_app_r, Nat.sub_diag.
    - change (CrossStorageHub.response request error res)
        with (Json (JObj (("id", JStr request_id)
                          :: ("method", JStr (action_name method))
                          :: literal [("error", JStr <$> error);
                                      ("result", res)]))).
      rewrite Hreq, Hl, Hc, Hco, Hh, Hi, Ho, Hn, Hlen. cbn.
      rewrite lookup_delete_eq, length_app. cbn.
      split; [|repeat split; try done; try lia;
               unfold CrossStorageClient.hub in *; by cbn].
      cbn in Hp. rewrite Hp. destruct error as [e|]; cbn.
      + by rewrite (Herror e eq_refl).
      + by destruct res. }
  exists request.
  destruct (CrossStorageHub._permitted (CrossStorageHub.permissions h) corg
                                       method) eqn:Hperm; cbn [negb] in Hh1.
  - destruct (CrossStorageHub.execute (CrossStorageHub.quota h) method
                                      request (CrossStorageHub.storage h))
      as [[res|m] st] eqn:Hexec.
    + exists (CrossStorageHub.response request None res).
      destruct (Hclient None res) as (Hp & Hrest); [done|].
      split; [done|]. split; [by rewrite Hsend|].
      split; [unfold w1; by rewrite Hsend|].
      split; [by rewrite Hh1|]. split; [by rewrite Hh1|].
      split; [|exact Hrest]. split; [by rewrite Hh1 | exact Hp].
    + exists (CrossStorageHub.response request (Some m) (Some JNull)).
      destruct (Hclient (Some m) (Some JNull)) as (Hp & Hrest).
      { intros e [= <-].
        by destruct (HubProperties.execute_throw _ _ _ _ _ _ Hexec)
          as [-> | ->]. }
      split; [done|]. split; [by rewrite Hsend|].
      split; [unfold w1; by rewrite Hsend|].
      split; [by rewrite Hh1|]. split; [by rewrite Hh1|].
      split; [|exact Hrest]. split; [by rewrite Hh1 | exact Hp].
  - exists (CrossStorageHub.response
              request (Some (CrossStorageHub.invalid_permissions method))
              (Some JNull)).
    destruct (Hclient (Some (CrossStorageHub.invalid_permissions method))
                      (Some JNull)) as (Hp & Hrest);
      [by intros e [= <-]|].
    split; [done|]. split; [by rewrite Hsend|].
    split; [unfold w1; by rewrite Hsend|].
    split; [by rewrite Hh1|]. split; [by rewrite Hh1|].
    split; [|exact Hrest]. split; [by rewrite Hh1 | exact Hp].
Qed.

(** A request made on a connected client and carried to the hub and back
    is settled by what the hub decided: resolved with the result of the
    storage operation when the origin is permitted, rejected with the
    permission error when it is not, rejected with the exception's message
    when the operation throws; the hub's storage is what the operation
    left, and the pending entry is gone. *)
Theorem request_is_settled_by_the_hub :
  forall (fns : CrossStorageClient.Handlers)
         (w : CrossStorageClient.Page) (h : CrossStorageHub.Hub)
         (f : CrossStorageClient.Element) (method : CrossStorageAction)
         (params : list (string * CrossStorageClient.any)) (d : wire)
         (corg horg : string) (src src' : window),
    let request_id :=
      CrossStorageClient.id (CrossStorageClient.client w) +:+ ":"
      +:+ pretty (S (CrossStorageClient.count (CrossStorageClient.client w))) in
    let p := (CrossStorageClient._request method params w).1 in
    let w1 := (CrossStorageClient._request method params w).2 in
    let h1 := CrossStorageHub._onListener (Message corg d src) h in
    CrossStorageClient.listening w = true ->
    CrossStorageClient.closed (CrossStorageClient.client w) = false ->
    CrossStorageClient.connected (CrossStorageClient.client w) = true ->
    CrossStorageClient.hub w = Some f ->
    CrossStorageClient.stringify request_id method params = Ok d ->
    corg <> "null" ->
    (if String.eqb horg "null" then "file://" else horg)
    = CrossStorageClient.origin (CrossStorageClient.client w) ->
    exists request reply,
      d = Json request
      /\ CrossStorageClient.sent w1
         = CrossStorageClient.sent w
           ++ [Post (Other (CrossStorageClient.node f)) d
                    (CrossStorageClient.targetOrigin
                       (CrossStorageClient.client w))]
      /\ CrossStorageHub.posted h1
         = CrossStorageHub.posted h
           ++ [Post Parent reply
                    (if String.eqb corg "file://" then "*" else corg)]
      /\ let w2 :=
           CrossStorageClient.receive fns (Message horg reply src') w1 in
         (if CrossStorageHub._permitted (CrossStorageHub.permissions h) corg
                                        method
          then
            match CrossStorageHub.execute (CrossStorageHub.quota h) method
                                          request (CrossStorageHub.storage h)
            with
            | (Ok res, st) =>
                CrossStorageHub.storage h1 = st
                /\ CrossStorageClient.promises w2 !! p
                   = Some (Some (CrossStorageClient.Resolved res))
            | (Throw m, st) =>
                CrossStorageHub.storage h1 = st
                /\ CrossStorageClient.promises w2 !! p
                   = Some (Some (CrossStorageClient.Rejected m))
            end
          else
            CrossStorageHub.storage h1 = CrossStorageHub.storage h
            /\ CrossStorageClient.promises w2 !! p
               = Some (Some (CrossStorageClient.Rejected
                               ("Invalid permissions for "
                                +:+ action_name method))))
         /\ CrossStorageClient._requests (CrossStorageClient.client w2)
              !! request_id = None.
Proof.
  intros fns w h f method params d corg horg src src' request_id p w1 h1
         Hlisten Hclosed Hconn Hhub Hd Hcorg Hhorg.
  destruct (exchange fns w h f method params d corg horg src src'
                     Hlisten Hclosed Hconn Hhub Hd Hcorg Hhorg)
    as (request & reply & Hreq & Hp & Hsent & Hposted & _ & Hout & Hgone & _).
  exists request, reply. subst p. rewrite Hp. by repeat split.
Qed.

Lemma request_is_settled_witness :
  let idle := CrossStorageClient.idle in
  let ready := Message "https://hub.example" (Text EVENT_READY) (Other 1) in
  let w := CrossStorageClient.receive idle ready
             (CrossStorageClient.constructor
                "u" "https://hub.example/hub.html" "https://hub.example"
                (CrossStorageClient.Options None None) []) in
  let h := CrossStorageHub._init
             [CrossStorageHub.Permission
                (CrossStorageHub.OriginString "https://a.example")
                (CrossStorageHub.AllowList [GET; SET])]
             None (CrossStorageHub.new true CrossStorageHub.unlimited
                                       {["x" := "1"]}) in
  let d := Json (JObj [("id", JStr "u:1"); ("method", JStr "del");
                       ("key", JStr "x")]) in
  exists reply,
    CrossStorageClient.promises
      (CrossStorageClient.receive idle
         (Message "https://hub.example" reply Parent)
         (CrossStorageClient.del (CrossStorageClient.KeyString "x") w).2)
      !! 0
    = Some (Some (CrossStorageClient.Rejected "Invalid permissions for del"))
    /\ CrossStorageHub.storage
         (CrossStorageHub._onListener
            (Message "https://a.example" d (Other 7)) h)
       = {["x" := "1"]}.
Proof.
  intros idle ready w h d.
  destruct (request_is_settled_by_the_hub
              idle w h (CrossStorageClient.MkElement
                     1 "cross-storage-client-u"
                     "https://hub.example/hub.html")
              DEL [("key", CrossStorageClient.Serialized (JStr "x"))] d
              "https://a.example" "https://hub.example" (Other 7) Parent
              eq_refl eq_refl eq_refl eq_refl eq_refl ltac:(discriminate)
              eq_refl)
    as (request & reply & _ & _ & _ & Hout & _).
  exists reply. destruct Hout as [Hstorage Hpromise].
  split; [exact Hpromise | exact Hstorage].
Defined.

(** The round trip through both sides: on a connected client whose origin
    may [set] and [get], the promise of [set(k, v)] is resolved without a
    value once the hub's reply arrives, and the promise of a [get(k)] made
    after that is resolved with [v]. *)
Theorem set_then_get_through_the_hub :
  forall (fns : CrossStorageClient.Handlers)
         (w : CrossStorageClient.Page) (h : CrossStorageHub.Hub)
         (f : CrossStorageClient.Element) (k v corg horg : string)
         (src src' : window),
    CrossStorageHub.quota h k v (CrossStorageHub.storage h) = false ->
    CrossStorageClient.listening w = true ->
    CrossStorageClient.closed (CrossStorageClient.client w) = false ->
    CrossStorageClient.connected (CrossStorageClient.client w) = true ->
    CrossStorageClient.hub w = Some f ->
    corg <> "null" ->
    (if String.eqb horg "null" then "file://" else horg)
    = CrossStorageClient.origin (CrossStorageClient.client w) ->
    CrossStorageHub._permitted (CrossStorageHub.permissions h) corg SET
    = true ->
    CrossStorageHub._permitted (CrossStorageHub.permissions h) corg GET
    = true ->
    let target := CrossStorageClient.targetOrigin
                    (CrossStorageClient.client w) in
    let r1 := CrossStorageClient.set
                k (CrossStorageClient.Serialized (JStr v)) w in
    exists d1 reply1,
      CrossStorageClient.sent r1.2
      = CrossStorageClient.sent w
        ++ [Post (Other (CrossStorageClient.node f)) d1 target]
      /\ let h1 := CrossStorageHub._onListener (Message corg d1 src) h in
         let w2 := CrossStorageClient.receive fns (Message horg reply1 src')
                                              r1.2 in
         let r2 := CrossStorageClient.get (CrossStorageClient.KeyString k)
                                          w2 in
         CrossStorageHub.posted h1
         = CrossStorageHub.posted h
           ++ [Post Parent reply1
                    (if String.eqb corg "file://" then "*" else corg)]
         /\ CrossStorageClient.promises w2 !! r1.1
            = Some (Some (CrossStorageClient.Resolved None))
         /\ exists d2 reply2,
              CrossStorageClient.sent r2.2
              = CrossStorageClient.sent w2
                ++ [Post (Other (CrossStorageClient.node f)) d2 target]
              /\ let h2 :=
                   CrossStorageHub._onListener (Message corg d2 src) h1 in
                 let w4 :=
                   CrossStorageClient.receive fns (Message horg reply2 src')
                                              r2.2 in
                 CrossStorageHub.posted h2
                 = CrossStorageHub.posted h1
                   ++ [Post Parent reply2
                            (if String.eqb corg "file://" then "*"
                             else corg)]
                 /\ CrossStorageClient.promises w4 !! r2.1
                    = Some (Some (CrossStorageClient.Resolved
                                    (Some (JStr v)))).
Proof.
  intros fns w h f k v corg horg src src' Hquota Hlisten Hclosed Hconn Hhub
         Hcorg Hhorg Hset Hget target r1.
  destruct (exchange fns w h f SET
              [("key", CrossStorageClient.Serialized (JStr k));
               ("value", CrossStorageClient.Serialized (JStr v))]
              _ corg horg src src' Hlisten Hclosed Hconn Hhub eq_refl
              Hcorg Hhorg)
    as (request1 & reply1 & [= <-] & Hp1 & Hsent1 & Hposted1 & Hperms1
        & Hout1 & _ & Hl2 & Hc2 & Hco2 & Hh2 & Hi2 & Ho2 & Hn2 & _).
  match type of Hout1 with
  | context [CrossStorageHub.execute ?q SET ?r ?st] =>
      assert (CrossStorageHub.execute q SET r st = (Ok None, <[k := v]> st))
        as Hexec1
        by (cbn; unfold CrossStorageHub.setItem; by rewrite Hquota)
  end.
  rewrite Hset, Hexec1 in Hout1. cbv beta iota in Hout1.
  destruct Hout1 as [Hst1 Hpromise1].
  eexists _, reply1. split; [exact Hsent1|].
  cbn zeta. split; [exact Hposted1|].
  split; [unfold r1, CrossStorageClient.set; by rewrite Hp1|].
  set (w2 := CrossStorageClient.receive fns (Message horg reply1 src') r1.2).
  set (h1 := CrossStorageHub._onListener (Message corg _ src) h) in *.
  assert (CrossStorageClient.listening w2 = true) as Hl2' by exact Hl2.
  assert (CrossStorageClient.closed (CrossStorageClient.client w2) = false)
    as Hc2' by exact Hc2.
  assert (CrossStorageClient.connected (CrossStorageClient.client w2) = true)
    as Hco2' by exact Hco2.
  assert (CrossStorageClient.hub w2 = Some f) as Hh2' by exact Hh2.
  assert (CrossStorageClient.origin (CrossStorageClient.client w2)
          = CrossStorageClient.origin (CrossStorageClient.client w))
    as Ho2' by exact Ho2.
  rewrite <- Hperms1 in Hget. rewrite <- Ho2' in Hhorg.
  destruct (exchange fns w2 h1 f GET
              [("key", CrossStorageClient.Serialized
                         (CrossStorageClient.key_json
                            (CrossStorageClient.KeyString k)))]
              _ corg horg src src' Hl2' Hc2' Hco2' Hh2' eq_refl Hcorg Hhorg)
    as (request2 & reply2 & [= <-] & Hp2 & Hsent2 & Hposted2 & _
        & Hout2 & _).
  match type of Hout2 with
  | context [CrossStorageHub.execute ?q GET ?r ?st] =>
      assert (CrossStorageHub.execute q GET r st
              = (Ok (Some (CrossStorageHub.getItem k st)), st))
        as Hexec2 by done
  end.
  rewrite Hget, Hexec2 in Hout2. cbv beta iota in Hout2.
  destruct Hout2 as [_ Hpromise2].
  rewrite Hst1, HubProperties.getItem_insert in Hpromise2.
  eexists _, reply2. split.
  - unfold CrossStorageClient.get. rewrite Hsent2.
    unfold target, CrossStorageClient.targetOrigin. by rewrite Ho2'.
  - split; [exact Hposted2|].
    unfold CrossStorageClient.get. by rewrite Hp2.
Qed.

Lemma set_then_get_witness :
  let ready := Message "https://hub.example" (Text EVENT_READY) (Other 1) in
  let w := CrossStorageClient.receive CrossStorageClient.idle ready
             (CrossStorageClient.constructor
                "u" "https://hub.example/hub.html" "https://hub.example"
                (CrossStorageClient.Options None None) []) in
  let h := CrossStorageHub._init
             [CrossStorageHub.Permission
                (CrossStorageHub.OriginString "https://a.example")
                (CrossStorageHub.AllowList [GET; SET])]
             None (CrossStorageHub.new true CrossStorageHub.unlimited ∅) in
  exists d1 reply1,
    CrossStorageClient.sent
      (CrossStorageClient.set "x" (CrossStorageClient.Serialized (JStr "1"))
                              w).2
    = [Post (Other 1) d1 "https://hub.example"]
    /\ CrossStorageHub.posted
         (CrossStorageHub._onListener
            (Message "https://a.example" d1 (Other 7)) h)
       = CrossStorageHub.posted h
         ++ [Post Parent reply1 "https://a.example"].
Proof.
  intros ready w h.
  destruct (set_then_get_through_the_hub
              CrossStorageClient.idle
              w h (CrossStorageClient.MkElement
                     1 "cross-storage-client-u"
                     "https://hub.example/hub.html")
              "x" "1" "https://a.example" "https://hub.example"
              (Other 7) Parent
              eq_refl eq_refl eq_refl eq_refl eq_refl ltac:(discriminate)
              eq_refl eq_refl eq_refl)
    as (d1 & reply1 & Hsent & Hposted & _).
  exists d1, reply1. split; [exact Hsent | exact Hposted].
Defined.

(** A failure of the storage area through both sides: when the item of a
    permitted [set(k, v)] goes over the quota, the hub stores nothing and
    answers with the error of [setItem], and the client rejects the
    promise of the request with that message and forgets the request. *)
Theorem set_over_quota_is_rejected :
  forall (fns : CrossStorageClient.Handlers)
         (w : CrossStorageClient.Page) (h : CrossStorageHub.Hub)
         (f : CrossStorageClient.Element) (k v corg horg : string)
         (src src' : window),
    CrossStorageHub.quota h k v (CrossStorageHub.storage h) = true ->
    CrossStorageClient.listening w = true ->
    CrossStorageClient.closed (CrossStorageClient.client w) = false ->
    CrossStorageClient.connected (CrossStorageClient.client w) = true ->
    CrossStorageClient.hub w = Some f ->
    corg <> "null" ->
    (if String.eqb horg "null" then "file://" else horg)
    = CrossStorageClient.origin (CrossStorageClient.client w) ->
    CrossStorageHub._permitted (CrossStorageHub.permissions h) corg SET
    = true ->
    let request_id :=
      CrossStorageClient.id (CrossStorageClient.client w) +:+ ":"
      +:+ pretty (S (CrossStorageClient.count (CrossStorageClient.client w))) in
    let r1 := CrossStorageClient.set
                k (CrossStorageClient.Serialized (JStr v)) w in
    exists d1,
      CrossStorageClient.sent r1.2
      = CrossStorageClient.sent w
        ++ [Post (Other (CrossStorageClient.node f)) d1
                 (CrossStorageClient.targetOrigin
                    (CrossStorageClient.client w))]
      /\ let h1 := CrossStorageHub._onListener (Message corg d1 src) h in
         let reply1 :=
           Json (JObj [("id", JStr request_id); ("method", JStr "set");
                       ("error", JStr CrossStorageHub.QuotaExceededError);
                       ("result", JNull)]) in
         let w2 := CrossStorageClient.receive fns (Message horg reply1 src')
                                              r1.2 in
         CrossStorageHub.posted h1
         = CrossStorageHub.posted h
           ++ [Post Parent reply1
                    (if String.eqb corg "file://" then "*" else corg)]
         /\ CrossStorageHub.storage h1 = CrossStorageHub.storage h
         /\ CrossStorageClient.promises w2 !! r1.1
            = Some (Some (CrossStorageClient.Rejected
                            CrossStorageHub.QuotaExceededError))
         /\ CrossStorageClient._requests (CrossStorageClient.client w2)
              !! request_id = None.
Proof.
  intros fns w h f k v corg horg src src' Hquota Hlisten Hclosed Hconn Hhub
         Hcorg Hhorg Hset request_id r1.
  destruct (exchange fns w h f SET
              [("key", CrossStorageClient.Serialized (JStr k));
               ("value", CrossStorageClient.Serialized (JStr v))]
              _ corg horg src src' Hlisten Hclosed Hconn Hhub eq_refl
              Hcorg Hhorg)
    as (request1 & reply1 & [= <-] & Hp1 & Hsent1 & Hposted1 & _
        & Hout1 & Hgone & _).
  match type of Hout1 with
  | context [CrossStorageHub.execute ?q SET ?r ?st] =>
      assert (CrossStorageHub.execute q SET r st
              = (Throw CrossStorageHub.QuotaExceededError, st))
        as Hexec1
        by (cbn; unfold CrossStorageHub.setItem; by rewrite Hquota)
  end.
  rewrite Hset, Hexec1 in Hout1. cbv beta iota in Hout1.
  destruct Hout1 as [Hst1 Hpromise1].
  assert (reply1
          = Json (JObj [("id", JStr request_id); ("method", JStr "set");
                        ("error", JStr CrossStorageHub.QuotaExceededError);
                        ("result", JNull)])) as ->.
  { unfold CrossStorageHub._onListener in Hposted1. cbn in Hposted1.
    rewrite ClientProperties.request_id_truthy in Hposted1.
    apply String.eqb_neq in Hcorg. rewrite Hcorg, Hset in Hposted1.
    cbn in Hposted1. unfold CrossStorageHub.setItem in Hposted1.
    rewrite Hquota in Hposted1. cbn in Hposted1.
    apply app_inv_head in Hposted1. by injection Hposted1 as <-. }
  eexists. split; [exact Hsent1|]. cbn zeta.
  split; [exact Hposted1|]. split; [exact Hst1|].
  split; [|exact Hgone].
  unfold r1, CrossStorageClient.set. by rewrite Hp1.
Qed.

Lemma set_over_quota_witness :
  let ready := Message "https://hub.example" (Text EVENT_READY) (Other 1) in
  let w := CrossStorageClient.receive CrossStorageClient.idle ready
             (CrossStorageClient.constructor
                "u" "https://hub.example/hub.html" "https://hub.example"
                (CrossStorageClient.Options None None) []) in
  let full : CrossStorageHub.Quota := fun _ _ _ => true in
  let h := CrossStorageHub._init
             [CrossStorageHub.Permission
                (CrossStorageHub.OriginString "https://a.example")
                CrossStorageHub.AllowAll]
             None (CrossStorageHub.new true full {["x" := "1"]}) in
  let reply :=
    Json (JObj [("id", JStr "u:1"); ("method", JStr "set");
                ("error", JStr CrossStorageHub.QuotaExceededError);
                ("result", JNull)]) in
  CrossStorageClient.promises
    (CrossStorageClient.receive CrossStorageClient.idle
       (Message "https://hub.example" reply Parent)
       (CrossStorageClient.set "x" (CrossStorageClient.Serialized (JStr "2"))
                               w).2)
    !! 0
  = Some (Some (CrossStorageClient.Rejected
                  CrossStorageHub.QuotaExceededError)).
Proof.
  intros ready w full h reply.
  destruct (set_over_quota_is_rejected
              CrossStorageClient.idle
              w h (CrossStorageClient.MkElement
                     1 "cross-storage-client-u"
                     "https://hub.example/hub.html")
              "x" "2" "https://a.example" "https://hub.example"
              (Other 7) Parent
              eq_refl eq_refl eq_refl eq_refl eq_refl ltac:(discriminate)
              eq_refl eq_refl)
    as (d1 & _ & _ & _ & Hpromise & _).
  exact Hpromise.
Defined.

(** The handshake with a frame supplied by its id: the client polls the
    frame; the hub answers a poll with the ready signal, addressed to the
    poller's origin; on that signal the client is connected, the pending
    [connect()] is resolved, and the next turn of the poll timer stops
    the polling. *)
Theorem handshake_with_supplied_frame :
  forall (fns : CrossStorageClient.Handlers)
         (uuid url' org i corg horg : string) (ms : option Z)
         (d : list CrossStorageClient.Element)
         (f : CrossStorageClient.Element) (h : CrossStorageHub.Hub)
         (src src' : window),
    CrossStorageClient.getElementById i d = Some f ->
    (if String.eqb horg "null" then "file://" else horg) = org ->
    let w0 := (CrossStorageClient.connect
                 (CrossStorageClient.constructor
                    uuid url' org (CrossStorageClient.Options (Some i) ms)
                    d)).2 in
    let w1 := CrossStorageClient.fire 0 w0 in
    let h1 := CrossStorageHub._onListener
                (Message corg (Text EVENT_POLL) src) h in
    let w2 := CrossStorageClient.receive fns
                (Message horg (Text EVENT_READY) src') w1 in
    let w3 := CrossStorageClient.fire 0 w2 in
    CrossStorageClient.promises w0 = [None]
    /\ CrossStorageClient.sent w1
       = [Post (Other (CrossStorageClient.node f)) (Text EVENT_POLL)
               (if String.eqb org "file://" then "*" else org)]
    /\ CrossStorageHub.posted h1
       = CrossStorageHub.posted h ++ [Post Parent (Text EVENT_READY) corg]
    /\ CrossStorageClient.connected (CrossStorageClient.client w2) = true
    /\ CrossStorageClient.promises w2
       = [Some CrossStorageClient.ResolvedThis]
    /\ CrossStorageClient._connects (CrossStorageClient.client w2) = []
    /\ CrossStorageClient.timers w3 = ∅
    /\ CrossStorageClient.sent w3 = CrossStorageClient.sent w1.
Proof.
  intros fns uuid url' org i corg horg ms d f h src src' Hget Hhorg
         w0 w1 h1 w2 w3.
  pose proof (ClientProperties.getElementById_attached _ _ _ Hget) as Hatt.
  set (opts := CrossStorageClient.Options (Some i) ms) in *.
  set (c0 := CrossStorageClient.MkClient uuid url' org opts false false 0
                                         (Some f) ∅ [] []).
  set (ts := <[1 := CrossStorageClient.MkTimer
                      (CrossStorageClient.timeout c0)
                      (CrossStorageClient.ConnectTimeout 0)]>
               ({[0 := CrossStorageClient.MkTimer
                         1000 CrossStorageClient.PollInterval]}
                : gmap nat CrossStorageClient.Timer)).
  set (poll := Post (Other (CrossStorageClient.node f)) (Text EVENT_POLL)
                    (if String.eqb org "file://" then "*" else org)).
  assert (w0 = CrossStorageClient.MkPage
                 (CrossStorageClient.set_connects
                    [CrossStorageClient.MkConnect 1 0] c0)
                 d (CrossStorageClient.fresh_node d) true ts 2 [None] [] [])
    as E0.
  { unfold w0.
    by rewrite (ClientProperties.constructor_adopts
                  uuid url' org opts d i f eq_refl Hget). }
  assert (w1 = CrossStorageClient.MkPage
                 (CrossStorageClient.set_connects
                    [CrossStorageClient.MkConnect 1 0] c0)
                 d (CrossStorageClient.fresh_node d) true ts 2 [None] [poll]
                 []) as E1.
  { unfold w1. rewrite E0. unfold CrossStorageClient.fire.
    cbn [CrossStorageClient.timers]. unfold ts at 1.
    rewrite lookup_insert_ne, lookup_singleton_eq by done.
    cbn [CrossStorageClient.action CrossStorageClient.client
         CrossStorageClient.set_connects CrossStorageClient.connected c0].
    unfold CrossStorageClient.hub.
    cbn [CrossStorageClient.client CrossStorageClient.frame
         CrossStorageClient.document CrossStorageClient.set_connects c0].
    by rewrite Hatt. }
  assert (w2 = CrossStorageClient.MkPage
                 (CrossStorageClient.set_connects []
                    (CrossStorageClient.set_connected true c0))
                 d (CrossStorageClient.fresh_node d) true
                 {[0 := CrossStorageClient.MkTimer
                          1000 CrossStorageClient.PollInterval]}
                 2 [Some CrossStorageClient.ResolvedThis] [poll]
                 [CrossStorageClient.InvokeConnect
                    (CrossStorageClient.MkConnect 1 0) None]) as E2.
  { unfold w2. rewrite E1.
    unfold CrossStorageClient.receive, CrossStorageClient._onListener.
    cbn [CrossStorageClient.listening CrossStorageClient.client
         CrossStorageClient.closed CrossStorageClient.origin
         CrossStorageClient.set_connects c0 message_origin message_data
         is_text orb].
    rewrite Hhorg, String.eqb_refl. reflexivity. }
  assert (w3 = CrossStorageClient.MkPage
                 (CrossStorageClient.set_connects []
                    (CrossStorageClient.set_connected true c0))
                 d (CrossStorageClient.fresh_node d) true ∅
                 2 [Some CrossStorageClient.ResolvedThis] [poll]
                 [CrossStorageClient.InvokeConnect
                    (CrossStorageClient.MkConnect 1 0) None]) as E3.
  { unfold w3. rewrite E2. reflexivity. }
  rewrite E0, E1, E2, E3. by repeat split.
Qed.



Lemma handshake_witness :
  let frame := CrossStorageClient.MkElement 4 "hub" "https://hub.example/" in
  let w0 := (CrossStorageClient.connect
               (CrossStorageClient.constructor
                  "u" "https://hub.example/" "https://hub.example"
                  (CrossStorageClient.Options (Some "hub") None) [frame])).2 in
  let w2 := CrossStorageClient.receive CrossStorageClient.idle
              (Message "https://hub.example" (Text EVENT_READY) Parent)
              (CrossStorageClient.fire 0 w0) in
  CrossStorageClient.sent (CrossStorageClient.fire 0 w0)
  = [Post (Other 4) (Text EVENT_POLL) "https://hub.example"]
  /\ CrossStorageClient.promises w2 = [Some CrossStorageClient.ResolvedThis]
  /\ CrossStorageClient.timers (CrossStorageClient.fire 0 w2) = ∅.
Proof.
  intros frame w0 w2.
  destruct (handshake_with_supplied_frame
              CrossStorageClient.idle
              "u" "https://hub.example/" "https://hub.example" "hub"
              "https://a.example" "https://hub.example" None [frame] frame
              (CrossStorageHub.new true CrossStorageHub.unlimited ∅)
              (Other 1) Parent eq_refl eq_refl)
    as (_ & Hpoll & _ & _ & Hpromise & _ & Htimers & _).
  split; [exact Hpoll|]. split; [exact Hpromise | exact Htimers].
Defined.

End ProtocolProperties.
